(** * MUSE: demand share, search-space filters, objectives and sector loop

    A shallow embedding of the parts of [muse.demand_share], [muse.filters],
    [muse.objectives] and [muse.sectors.sector] that the specification
    speaks about, and the properties proved of them.

    The Python code computes on label-indexed arrays ([xarray.DataArray]).
    They are modelled by [DataArray]: an ordered list of named dimensions,
    each with its coordinate labels, and the value at every assignment of a
    label to each dimension name.  Binary operations align their operands
    on shared dimensions by intersecting the labels (xarray's default
    [arithmetic_join = "inner"]) and broadcast over the others.

    Numbers are exact rationals; where the code divides, the IEEE special
    values that numpy produces ([inf], [-inf], [nan]) are kept, because the
    code handles them ([fillna]).  Zero carries no sign. *)

From Stdlib Require Import List String ZArith QArith Qminmax Qabs Bool Lia Lqa.
From Stdlib Require Import Qround Qpower FunctionalExtensionality.
Import ListNotations.

Local Open Scope string_scope.
Local Open Scope Q_scope.

(** ** Exceptions *)

Inductive error : Type :=
| KeyError | AttributeError | AssertionError | RuntimeError | ValueError | IndexError.

Inductive result (A : Type) : Type :=
| Ok (a : A)
| Raise (e : error).
Arguments Ok {A} a.
Arguments Raise {A} e.

Definition bind {A B} (m : result A) (k : A -> result B) : result B :=
  match m with
  | Ok a => k a
  | Raise e => Raise e
  end.

Notation "x <- m ;; k" := (bind m (fun x => k))
  (at level 61, m at next level, right associativity).

Definition assert (b : bool) : result unit :=
  if b then Ok tt else Raise AssertionError.

Definition is_ok {A} (m : result A) : bool :=
  match m with
  | Ok _ => true
  | Raise _ => false
  end.

(** ** Numbers *)

Module Num.

(** A float: a finite value, or one of the three special values. *)
Inductive num : Type :=
| Fin (q : Q)
| PInf
| NInf
| NaN.

Definition sgn (q : Q) : comparison := q ?= 0.

(** [x / y] as numpy's [true_divide] computes it (no exception is raised
    on a zero divisor). *)
Definition fdiv (x y : num) : num :=
  match x, y with
  | NaN, _ | _, NaN => NaN
  | Fin a, Fin b =>
      match sgn b with
      | Eq => match sgn a with Eq => NaN | Gt => PInf | Lt => NInf end
      | _ => Fin (a / b)
      end
  | Fin _, (PInf | NInf) => Fin 0
  | PInf, Fin b => match sgn b with Lt => NInf | _ => PInf end
  | NInf, Fin b => match sgn b with Lt => PInf | _ => NInf end
  | (PInf | NInf), (PInf | NInf) => NaN
  end.

Definition inf_times (pos : bool) (b : Q) : num :=
  match sgn b with
  | Eq => NaN
  | Gt => if pos then PInf else NInf
  | Lt => if pos then NInf else PInf
  end.

Definition fmul (x y : num) : num :=
  match x, y with
  | NaN, _ | _, NaN => NaN
  | Fin a, Fin b => Fin (a * b)
  | PInf, Fin b | Fin b, PInf => inf_times true b
  | NInf, Fin b | Fin b, NInf => inf_times false b
  | PInf, PInf | NInf, NInf => PInf
  | PInf, NInf | NInf, PInf => NInf
  end.

Definition fadd (x y : num) : num :=
  match x, y with
  | NaN, _ | _, NaN => NaN
  | Fin a, Fin b => Fin (a + b)
  | PInf, NInf | NInf, PInf => NaN
  | PInf, _ | _, PInf => PInf
  | NInf, _ | _, NInf => NInf
  end.

(** [x.fillna(v)] on one entry. *)
Definition fillna (v : Q) (x : num) : num :=
  match x with
  | NaN => Fin v
  | _ => x
  end.

(** [x < q]; a comparison with [nan] is false. *)
Definition fltb (x : num) (q : Q) : bool :=
  match x with
  | Fin a => negb (Qle_bool q a)
  | NInf => true
  | PInf | NaN => false
  end.

Definition is_nan (x : num) : bool :=
  match x with NaN => true | _ => false end.


(** The sum of the entries of an array with [skipna], the default of
    [DataArray.sum] on floats. *)
Definition nansum (l : list num) : num :=
  fold_left fadd (map (fillna 0) l) (Fin 0).

Definition Qgtb (x y : Q) : bool := negb (Qle_bool x y).
Definition Qltb (x y : Q) : bool := negb (Qle_bool y x).

End Num.

(** ** Label-indexed arrays *)

Module XArray.

(** An index gives a label to every dimension name. *)
Definition Index : Type := string -> string.

Definition upd (ix : Index) (d l : string) : Index :=
  fun d' => if String.eqb d d' then l else ix d'.

Definition ix0 : Index := fun _ => EmptyString.

Definition Dims : Type := list (string * list string).

Record DataArray (A : Type) : Type := mkDA {
  dims : Dims;
  val : Index -> A
}.
Arguments mkDA {A} dims val.
Arguments dims {A} d.
Arguments val {A} d ix.

Definition mem (l : string) (ls : list string) : bool :=
  existsb (String.eqb l) ls.

Fixpoint lookup {V} (k : string) (l : list (string * V)) : option V :=
  match l with
  | [] => None
  | (k', v) :: r => if String.eqb k k' then Some v else lookup k r
  end.

Definition has_dim (d : string) (ds : Dims) : bool :=
  match lookup d ds with Some _ => true | None => false end.

(** The index [ix] designates an entry of an array of dimensions [ds]. *)
Definition valid (ds : Dims) (ix : Index) : Prop :=
  forall d ls, In (d, ls) ds -> In (ix d) ls.

(** Alignment of two operands: on a shared dimension the labels of the
    left operand that the right one has too, in the left order; the
    dimensions only the right operand has come last. *)
Definition join_dims (dx dy : Dims) : Dims :=
  (map (fun dl : string * list string =>
          let (d, ls) := dl in
          match lookup d dy with
          | Some ls' => (d, filter (fun l => mem l ls') ls)
          | None => (d, ls)
          end) dx
   ++ filter (fun dl : string * list string => negb (has_dim (fst dl) dx)) dy)%list.

Definition binop {A B C} (f : A -> B -> C) (x : DataArray A) (y : DataArray B)
  : DataArray C :=
  mkDA (join_dims (dims x) (dims y)) (fun ix => f (val x ix) (val y ix)).

Definition amap {A B} (f : A -> B) (x : DataArray A) : DataArray B :=
  mkDA (dims x) (fun ix => f (val x ix)).

Definition remove_dim (d : string) (ds : Dims) : Dims :=
  filter (fun dl : string * list string => negb (String.eqb d (fst dl))) ds.

(** A reduction along dimension [d] ([sum], [all], [any]). *)
Definition reduce {A B} (op : list A -> B) (d : string) (x : DataArray A)
  : result (DataArray B) :=
  match lookup d (dims x) with
  | None => Raise ValueError
  | Some ls =>
      Ok (mkDA (remove_dim d (dims x))
               (fun ix => op (map (fun l => val x (upd ix d l)) ls)))
  end.

Definition Qsum (l : list Q) : Q := fold_right Qplus 0 l.

Definition sum_ := @reduce Q Q Qsum.
Definition all_ := @reduce bool bool (forallb (fun b => b)).
Definition any_ := @reduce bool bool (existsb (fun b => b)).

(** Dimension [d] gives way to [new], in place (the names of the
    dimensions of an array are distinct). *)
Definition replace_dim (d : string) (new : string * list string) (ds : Dims) : Dims :=
  map (fun dl : string * list string => if String.eqb d (fst dl) then new else dl) ds.

Definition rename_dim (old new : string) (ds : Dims) : Dims :=
  map (fun dl : string * list string =>
         if String.eqb old (fst dl) then (new, snd dl) else dl) ds.

(** [x.rename(old=new)]. *)
Definition rename {A} (old new : string) (x : DataArray A) : result (DataArray A) :=
  if has_dim old (dims x)
  then Ok (mkDA (rename_dim old new (dims x))
                (fun ix => val x (upd ix old (ix new))))
  else Raise ValueError.

(** [x.d]: the coordinate of dimension [d], an array of labels. *)
Definition coord {A} (x : DataArray A) (d : string) : result (DataArray string) :=
  match lookup d (dims x) with
  | Some ls => Ok (mkDA [(d, ls)] (fun ix => ix d))
  | None => Raise AttributeError
  end.

(** The values of a one-dimensional array, in coordinate order. *)
Definition values {A} (x : DataArray A) : result (list A) :=
  match dims x with
  | [(d, ls)] => Ok (map (fun l => val x (upd ix0 d l)) ls)
  | _ => Raise ValueError
  end.

(** [x.sel(d=indexer)] with a one-dimensional array of labels as indexer:
    dimension [d] is replaced by the dimension of the indexer; a label the
    array does not have raises [KeyError]. *)
Definition sel {A} (d : string) (indexer : DataArray string) (x : DataArray A)
  : result (DataArray A) :=
  match lookup d (dims x), dims indexer with
  | Some ls, [(d', ls')] =>
      if negb (String.eqb d d') && has_dim d' (dims x) then Raise IndexError
      else if forallb (fun l => mem (val indexer (upd ix0 d' l)) ls) ls'
      then Ok (mkDA (replace_dim d (d', ls') (dims x))
                    (fun ix => val x (upd ix d (val indexer ix))))
      else Raise KeyError
  | None, _ => Raise ValueError
  | _, _ => Raise IndexError
  end.

(** [x.sel(d=mask)] with a one-dimensional boolean array over [d]: the
    labels at which the mask holds are kept. *)
Definition sel_mask {A} (d : string) (mask : DataArray bool) (x : DataArray A)
  : result (DataArray A) :=
  match lookup d (dims x), dims mask with
  | Some ls, [(d', ls')] =>
      if String.eqb d d' && forallb (fun l => mem l ls') ls
      then Ok (mkDA (replace_dim d (d, filter (fun l => val mask (upd ix0 d l)) ls)
                                 (dims x))
                    (val x))
      else Raise IndexError
  | None, _ => Raise ValueError
  | _, _ => Raise IndexError
  end.

(** [x.loc[{d: labels}]]. *)
Definition loc {A} (d : string) (labels : list string) (x : DataArray A)
  : result (DataArray A) :=
  match lookup d (dims x) with
  | Some ls =>
      if forallb (fun l => mem l ls) labels
      then Ok (mkDA (replace_dim d (d, labels) (dims x)) (val x))
      else Raise KeyError
  | None => Raise ValueError
  end.

(** [x.loc[{d: labels}] = y]. *)
Definition loc_set {A} (d : string) (labels : list string) (x y : DataArray A)
  : result (DataArray A) :=
  match lookup d (dims x) with
  | Some ls =>
      if forallb (fun l => mem l ls) labels
      then Ok (mkDA (dims x)
                    (fun ix => if mem (ix d) labels then val y ix else val x ix))
      else Raise KeyError
  | None => Raise ValueError
  end.

Definition same_labels (ds ds' : Dims) : bool :=
  forallb (fun dl : string * list string =>
             match lookup (fst dl) ds with
             | Some ls => if list_eq_dec string_dec ls (snd dl) then true else false
             | None => false
             end) ds'.

(** An in-place operation [x op= y]: the operand may neither add a
    dimension nor change a coordinate of [x]. *)
Definition inplace {A B} (f : A -> B -> A) (x : DataArray A) (y : DataArray B)
  : result (DataArray A) :=
  if same_labels (dims x) (dims y)
  then Ok (mkDA (dims x) (fun ix => f (val x ix) (val y ix)))
  else Raise ValueError.

(** [x.sel(d=l)] with a single label: the dimension is dropped. *)
Definition sel_label {A} (d l : string) (x : DataArray A) : result (DataArray A) :=
  match lookup d (dims x) with
  | Some ls =>
      if mem l ls
      then Ok (mkDA (remove_dim d (dims x)) (fun ix => val x (upd ix d l)))
      else Raise KeyError
  | None => Raise ValueError
  end.

(** [x.squeeze(d)]: a dimension of length one is dropped. *)
Definition squeeze {A} (d : string) (x : DataArray A) : result (DataArray A) :=
  match lookup d (dims x) with
  | Some [l] => sel_label d l x
  | _ => Raise ValueError
  end.

(** Alignment with [join="exact"]: the operands must carry the same labels
    on the dimensions they share. *)
Definition exact_dims (dx dy : Dims) : result Dims :=
  if forallb (fun dl : string * list string =>
                match lookup (fst dl) dy with
                | Some ls' => if list_eq_dec string_dec (snd dl) ls' then true else false
                | None => true
                end) dx
  then Ok (dx ++ filter (fun dl : string * list string => negb (has_dim (fst dl) dx)) dy)%list
  else Raise ValueError.

(** [x.where(cond, other)] with a scalar [other]. *)
Definition where_ {A} (x : DataArray A) (cond : DataArray bool) (other : A)
  : result (DataArray A) :=
  ds <- exact_dims (dims x) (dims cond) ;;
  Ok (mkDA ds (fun ix => if val cond ix then val x ix else other)).

(** [x.where(cond, other)] with an array [other]. *)
Definition where_array {A} (x : DataArray A) (cond : DataArray bool)
    (other : DataArray A) : result (DataArray A) :=
  ds <- exact_dims (dims x) (dims cond) ;;
  ds <- exact_dims ds (dims other) ;;
  Ok (mkDA ds (fun ix => if val cond ix then val x ix else val other ix)).

(** [x.clip(min=m)] on one entry. *)
Definition clip_min (m x : Q) : Q := if Num.Qltb x m then m else x.

(** The number of entries, [x.size]. *)
Definition size {A} (x : DataArray A) : nat :=
  fold_right (fun dl n => (List.length (snd dl) * n)%nat) 1%nat (dims x).

(** All entries of an array: the values at the indices that its
    dimensions span. *)
Fixpoint entries_over {A} (ds : Dims) (f : Index -> A) (ix : Index) : list A :=
  match ds with
  | [] => [f ix]
  | (d, ls) :: r => flat_map (fun l => entries_over r f (upd ix d l)) ls
  end.

Definition entries {A} (x : DataArray A) : list A :=
  entries_over (dims x) (val x) ix0.

End XArray.

(** ** Search-space filters ([muse.filters]) *)

Module Filters.
Import XArray Num.

(** What the filters read of an agent. [tolerance] is absent when the
    agent has no such attribute. *)
Record Agent : Type := {
  year : Z;
  region : string;
  tolerance : option Q;
  maturity_threshhold : Q
}.

Record Technologies : Type := {
  fixed_outputs : DataArray Q;
  comm_usage : DataArray Z;
  tech_type : DataArray string;
  fuel : DataArray string
}.

Record Market : Type := {
  capacity : DataArray Q
}.

(** [Agent.filter_input] (muse.agent), called with an array, the [year]
    and the [commodity] keyword, and [is_enduse] (muse.commodities) are
    used but not defined by the module. *)
Class External : Type := {
  filter_input :
    forall A : Type, Agent -> DataArray A -> option Z -> option (DataArray bool)
                     -> DataArray A;
  is_enduse : DataArray Z -> DataArray bool
}.

Section filters.

Context {external : External}.

Definition isin (x : DataArray string) (test : list string) : DataArray bool :=
  amap (fun l => mem l test) x.

(** [getattr(agent, "tolerance", 1e-8)] *)
Definition tolerance_of (agent : Agent) : Q :=
  match tolerance agent with
  | Some t => t
  | None => 1 # 100000000
  end.

Definition same_enduse (agent : Agent) (search_space : DataArray bool)
    (technologies : Technologies) : result (DataArray bool) :=
  let tech_enduses :=
    filter_input Q agent (fixed_outputs technologies) (Some (year agent))
                 (Some (is_enduse (comm_usage technologies))) in
  tech_enduses <-
    rename "technology" "replacement"
           (amap (fun q => if Qgtb q 0 then 1%Z else 0%Z) tech_enduses) ;;
  asset <- coord search_space "asset" ;;
  asset_enduses <- sel "replacement" asset tech_enduses ;;
  covers <-
    all_ "commodity"
         (amap (fun z => (0 <=? z)%Z) (binop Z.sub tech_enduses asset_enduses)) ;;
  Ok (binop andb search_space covers).

Definition identity (agent : Agent) (search_space : DataArray bool)
  : result (DataArray bool) :=
  Ok search_space.

Definition similar_technology (agent : Agent) (search_space : DataArray bool)
    (technologies : Technologies) : result (DataArray bool) :=
  let tech_type := filter_input string agent (tech_type technologies) None None in
  asset <- coord search_space "asset" ;;
  asset_types <- sel "technology" asset tech_type ;;
  replacement <- coord search_space "replacement" ;;
  tech_types <- sel "technology" replacement tech_type ;;
  Ok (binop andb search_space (binop String.eqb asset_types tech_types)).

Definition same_fuels (agent : Agent) (search_space : DataArray bool)
    (technologies : Technologies) : result (DataArray bool) :=
  let fuel := filter_input string agent (fuel technologies) None None in
  asset <- coord search_space "asset" ;;
  asset_fuel <- sel "technology" asset fuel ;;
  replacement <- coord search_space "replacement" ;;
  tech_fuel <- sel "technology" replacement fuel ;;
  Ok (binop andb search_space (binop String.eqb asset_fuel tech_fuel)).

Definition currently_existing_tech (agent : Agent) (search_space : DataArray bool)
    (technologies : Technologies) (market : Market) : result (DataArray bool) :=
  capacity <-
    rename "technology" "replacement"
           (filter_input Q agent (capacity market) (Some (year agent)) None) ;;
  ss_replacement <- coord search_space "replacement" ;;
  cap_replacement <- coord capacity "replacement" ;;
  cap_labels <- values cap_replacement ;;
  let result := binop andb search_space (isin ss_replacement cap_labels) in
  ss_labels <- values ss_replacement ;;
  both <- coord (isin cap_replacement ss_labels) "replacement" ;;
  both_values <- values both ;;
  selected <- loc "replacement" both_values result ;;
  existing <- sel "replacement" both capacity ;;
  selected <- inplace andb selected
                      (amap (fun q => Qgtb q (tolerance_of agent)) existing) ;;
  loc_set "replacement" both_values result selected.

Definition currently_referenced_tech (agent : Agent) (search_space : DataArray bool)
    (technologies : Technologies) (market : Market) : result (DataArray bool) :=
  capacity <-
    rename "technology" "replacement"
           (filter_input Q agent (capacity market) (Some (year agent)) None) ;;
  ss_replacement <- coord search_space "replacement" ;;
  cap_replacement <- coord capacity "replacement" ;;
  cap_labels <- values cap_replacement ;;
  Ok (binop andb search_space (isin ss_replacement cap_labels)).

Definition maturity (agent : Agent) (search_space : DataArray bool)
    (technologies : Technologies) (market : Market) : result (DataArray bool) :=
  let capacity := filter_input Q agent (capacity market) (Some (year agent)) None in
  let outputs :=
    filter_input Q agent (fixed_outputs technologies) (Some (year agent))
                 (Some (is_enduse (comm_usage technologies))) in
  enduse_production <- sum_ "technology" (binop Qmult capacity outputs) ;;
  let enduse_market_share :=
    amap (Qmult (maturity_threshhold agent)) enduse_production in
  mature <- all_ "commodity" (binop Qle_bool enduse_market_share capacity) ;;
  Ok (binop andb search_space mature).

Definition compress (agent : Agent) (search_space : DataArray bool)
    (technologies : Technologies) (market : Market) : result (DataArray bool) :=
  used <- any_ "asset" search_space ;;
  sel_mask "replacement" used search_space.

Definition with_asset_technology (agent : Agent) (search_space : DataArray bool)
    (technologies : Technologies) (market : Market) : result (DataArray bool) :=
  asset <- coord search_space "asset" ;;
  replacement <- coord search_space "replacement" ;;
  Ok (binop orb search_space (binop String.eqb asset replacement)).

End filters.

(** The number of [True] entries of a boolean array. *)
Definition ntrue (l : list bool) : nat := List.length (filter (fun b => b) l).

Definition count_true (x : DataArray bool) : nat := ntrue (entries x).

(** The bound of the maturity filter in the words of the specification:
    the candidate's enduse production, aggregated over the technologies
    [techs] or its own, does not exceed its capacity times the threshold,
    for every enduse commodity. *)
Definition spec_maturity_bound (capacity outputs : DataArray Q) (threshold : Q)
    (techs commodities : list string) (candidate : string) : Prop :=
  forall c, In c commodities ->
    let at_ t := upd (upd ix0 "technology" t) "commodity" c in
    Qsum (map (fun t => val capacity (at_ t) * val outputs (at_ t)) techs)
    <= val capacity (at_ candidate) * threshold.

Definition spec_maturity_bound_own (capacity outputs : DataArray Q) (threshold : Q)
    (commodities : list string) (candidate : string) : Prop :=
  forall c, In c commodities ->
    let at_ t := upd (upd ix0 "technology" t) "commodity" c in
    val capacity (at_ candidate) * val outputs (at_ candidate)
    <= val capacity (at_ candidate) * threshold.

(** A search space is a boolean matrix over the assets and the candidate
    replacements. *)
Definition is_search_space (x : DataArray bool) : Prop :=
  map fst (dims x) = ["asset"; "replacement"].

(** The dimensions of an array are among [names]. *)
Definition dims_among {A} (names : list string) (x : DataArray A) : Prop :=
  incl (map fst (dims x)) names.

(** [ds'] has the dimensions of [ds], each with a selection of its
    labels. *)
Definition narrows (ds ds' : Dims) : Prop :=
  Forall2 (fun dl dl' : string * list string =>
             fst dl' = fst dl /\ exists keep, snd dl' = filter keep (snd dl))
          ds ds'.

(** [out] is [ss] narrowed: no dimension added, no label added, no entry
    turned [True], hence no more [True] entries. *)
Definition narrowed (ss out : DataArray bool) : Prop :=
  narrows (dims ss) (dims out)
  /\ (forall ix, val out ix = true -> val ss ix = true)
  /\ (count_true out <= count_true ss)%nat.

(** The converse: same coordinates, no entry turned [False]. *)
Definition widened (ss out : DataArray bool) : Prop :=
  dims out = dims ss
  /\ (forall ix, val ss ix = true -> val out ix = true)
  /\ (count_true ss <= count_true out)%nat.

End Filters.

(** ** Demand share ([muse.demand_share]) *)

Module DemandShare.
Import XArray Num.

(** A coordinate that is not a dimension: one value for the whole array,
    or one value per asset. *)
Inductive coordv : Type :=
| Scalar (v : string)
| AlongAsset (f : string -> string).

(** An array with an [asset] dimension, and the coordinates ([technology],
    [region], ...) that describe each asset. *)
Record Assets : Type := {
  data : DataArray Q;
  coords : list (string * coordv)
}.

Record AgentBase : Type := {
  uuid : string;
  name : string;
  region : string;
  category : string;
  quantity : option Q;
  assets_capacity : Assets
}.

(** The two variables of the dataset that [new_and_retro_demands] returns.
    They are computed over the same coordinates, which is how the record
    keeps them. *)
Record Demands : Type := {
  new : DataArray Q;
  retrofit : DataArray Q
}.

(** A Python [dict], in insertion order: setting a key that is present
    replaces its value in place. *)
Section dict.
Context {K V : Type}.
Variable eqb : K -> K -> bool.

Fixpoint dict_set (k : K) (v : V) (d : list (K * V)) : list (K * V) :=
  match d with
  | [] => [(k, v)]
  | (k', v') :: r => if eqb k k' then (k', v) :: r else (k', v') :: dict_set k v r
  end.

Fixpoint dict_get (k : K) (d : list (K * V)) : result V :=
  match d with
  | [] => Raise KeyError
  | (k', v) :: r => if eqb k k' then Ok v else dict_get k r
  end.

Definition put (d : list (K * V)) (kv : K * V) : list (K * V) :=
  dict_set (fst kv) (snd kv) d.

(** [{k: v for ...}] *)
Definition dict_of (items : list (K * V)) : list (K * V) :=
  fold_left put items [].

(** [d.update(other)] *)
Definition dict_update (d other : list (K * V)) : list (K * V) :=
  fold_left put other d.

End dict.

Definition pair_eqb (x y : string * string) : bool :=
  String.eqb (fst x) (fst y) && String.eqb (snd x) (snd y).

Fixpoint insert_sorted (s : string) (l : list string) : list string :=
  match l with
  | [] => [s]
  | x :: r =>
      match String.compare s x with
      | Lt => s :: l
      | Eq => l
      | Gt => x :: insert_sorted s r
      end
  end.

(** The distinct values of a list, in increasing order. *)
Definition unique_sorted (l : list string) : list string :=
  fold_right insert_sorted [] l.

(** [x.groupby(key).sum("asset")]: one entry per value of the coordinate
    [key], the sum over the assets that carry it. *)
Definition groupby_sum (key : string) (x : Assets) : result (DataArray Q) :=
  match lookup key (coords x), lookup "asset" (dims (data x)) with
  | Some (AlongAsset f), Some la =>
      Ok (mkDA (replace_dim "asset" (key, unique_sorted (map f la)) (dims (data x)))
               (fun ix =>
                  Qsum (map (fun a => val (data x) (upd ix "asset" a))
                            (filter (fun a => String.eqb (f a) (ix key)) la))))
  | _, _ => Raise ValueError
  end.

(** [capacity * quantity] *)
Definition scale (q : Q) (x : Assets) : Assets :=
  {| data := amap (fun v => v * q) (data x); coords := coords x |}.

(** What Python's [sum] returns: the integer it starts from, or an array. *)
Inductive pyvalue : Type :=
| PyInt (z : Z)
| PyArr (x : DataArray Q).

Definition py_add (acc : pyvalue) (x : DataArray Q) : pyvalue :=
  match acc with
  | PyInt z => PyArr (amap (Qplus (inject_Z z)) x)
  | PyArr y => PyArr (binop Qplus y x)
  end.

Definition py_sum (l : list (DataArray Q)) : pyvalue :=
  fold_left py_add l (PyInt 0).

(** An attribute of an array read off the result of [sum]: the integer
    has none. *)
Definition as_array (v : pyvalue) : result (DataArray Q) :=
  match v with
  | PyArr x => Ok x
  | PyInt _ => Raise AttributeError
  end.

Fixpoint map_values {A B} (f : A -> result B) (d : list (string * A))
  : result (list (string * B)) :=
  match d with
  | [] => Ok []
  | (k, a) :: r =>
      b <- f a ;;
      r' <- map_values f r ;;
      Ok ((k, b) :: r')
  end.

Definition tol : Q := 1 # 1000000000000.

(** [(share / total).fillna(0) * demand).fillna(0) + unassigned] *)
Definition agent_share (share total demand : DataArray Q) (unassigned : DataArray num)
  : DataArray num :=
  binop fadd
        (amap (fillna 0)
              (binop (fun x d => fmul x (Fin d))
                     (amap (fillna 0)
                           (binop (fun s t => fdiv (Fin s) (Fin t)) share total))
                     demand))
        unassigned.

(** The two terms of one entry of an agent's share: the part in
    proportion of its reference quantity, and the equal part. *)
Definition proportional (share total demand : Q) : num :=
  fillna 0 (fmul (fillna 0 (fdiv (Fin share) (Fin total))) (Fin demand)).

Definition equal_part (total demand : Q) (count : Z) : num :=
  if Qgtb demand tol && Qle_bool total tol
  then fdiv (Fin demand) (Fin (inject_Z count))
  else Fin 0.

(** The entries of one cell, for all agents and assets, from the list of
    their reference quantities, and the sum of such entries. *)
Definition cell_entries (shares : list Q) (total demand : Q) : list num :=
  map (fun s =>
         fadd (proportional s total demand)
              (equal_part total demand (Z.of_nat (List.length shares))))
      shares.

Definition fsum (l : list num) : num := fold_right fadd (Fin 0) l.

(** The reference quantity of an agent, per technology. *)
Definition reference (method : Assets -> Assets) (capacity : Assets)
  : result (DataArray Q) :=
  grouped <- groupby_sum "technology" (method capacity) ;;
  rename "technology" "asset" grouped.

Definition _inner_split (assets : list (string * Assets)) (demand : DataArray Q)
    (method : Assets -> Assets) : result (list (string * DataArray num)) :=
  shares <- map_values (reference method) assets ;;
  summed <- as_array (py_sum (map snd shares)) ;;
  total <- sum_ "asset" summed ;;
  summed <- as_array (py_sum (map snd shares)) ;;
  asset <- coord summed "asset" ;;
  labels <- values asset ;;
  let n := (Z.of_nat (List.length shares) * Z.of_nat (List.length labels))%Z in
  unassigned <-
    where_ (amap (fun d => fdiv (Fin d) (Fin (inject_Z n))) demand)
           (binop andb (amap (fun d => Qgtb d tol) demand)
                       (amap (fun t => Qle_bool t tol) total))
           (Fin 0) ;;
  Ok (map (fun us : string * DataArray Q =>
             (fst us, agent_share (snd us) total demand unassigned))
          shares).

(** The functions of [muse.quantities], [muse.production],
    [muse.timeslices], [muse.utilities], [muse.commodities] and of xarray's
    handling of years that the module calls, over the market and technology
    datasets. *)
Class External (Market Technologies TimeSlices : Type) : Type := {
  year_min : Market -> Z;
  market_interp : Market -> list Z -> Market;
  market_sel_year : Market -> Z -> Market;
  consumption : Market -> DataArray Q;
  timeslice : Market -> TimeSlices;
  comm_usage : Technologies -> DataArray Z;
  tech_sel_region : Technologies -> string -> Technologies;
  is_enduse : DataArray Z -> DataArray bool;
  reduce_assets : list Assets -> Assets;
  convert_timeslice : Assets -> TimeSlices -> Assets;
  interp_year : Assets -> Z -> Assets;
  interp_years : Assets -> list Z -> Assets;
  sel_year : Assets -> Z -> Assets;
  squeeze_year : Assets -> Assets;
  decommissioning_demand : Technologies -> Assets -> list Z -> Assets;
  maximum_production : Technologies -> Assets -> Z -> Assets;
  prod_factory : string -> Market -> Assets -> Technologies -> Assets
}.

Section demand_share.

Context {Market Technologies TimeSlices : Type}.
Context {external : External Market Technologies TimeSlices}.

Definition ProductionMethod : Type := Market -> Assets -> Technologies -> Assets.

(** The [production] argument: a registered name or a callable. *)
Inductive production_arg : Type :=
| ByName (s : string)
| Callable (f : ProductionMethod).

Definition production_method_of (production : production_arg) : ProductionMethod :=
  match production with
  | Callable f => f
  | ByName s => prod_factory s
  end.

Definition unmet_demand (market : Market) (capacity : Assets)
    (technologies : Technologies) (production : production_arg)
  : result (DataArray Q) :=
  let prod_method := production_method_of production in
  prod <- groupby_sum "region" (prod_method market capacity technologies) ;;
  Ok (amap (clip_min 0) (binop Qminus (consumption market) prod)).

Definition new_consumption (capacity : Assets) (market : Market)
    (technologies : Technologies) (production : production_arg)
    (current_year : option Z) (forecast : Z) : result (DataArray Q) :=
  let current_year :=
    match current_year with Some y => y | None => year_min market end in
  let ts_capa :=
    convert_timeslice (interp_year capacity current_year) (timeslice market) in
  let market := market_interp market [current_year; (current_year + forecast)%Z] in
  let current := market_sel_year market current_year in
  let forecasted := market_sel_year market (current_year + forecast)%Z in
  let delta :=
    amap (clip_min 0)
         (binop Qminus (consumption forecasted) (consumption current)) in
  missing <- unmet_demand forecasted ts_capa technologies (ByName "maximum_production") ;;
  where_array delta (binop Qltb delta missing) missing.

(** [ts_capa["region"] = "asset", [str(ts_capa.region.values)] * len(ts_capa.asset)]
    when the region is a scalar coordinate. *)
Definition region_per_asset (ts_capa : Assets) : Assets :=
  match lookup "region" (coords ts_capa) with
  | Some (Scalar r) =>
      {| data := data ts_capa;
         coords := dict_set String.eqb "region" (AlongAsset (fun _ => r))
                            (coords ts_capa) |}
  | _ => ts_capa
  end.

Definition new_and_retro_demands (capacity : Assets) (market : Market)
    (technologies : Technologies) (production : production_arg)
    (current_year : option Z) (forecast : Z) : result Demands :=
  let production_method := production_method_of production in
  let current_year :=
    match current_year with Some y => y | None => year_min market end in
  let smarket := market_interp market [current_year; (current_year + forecast)%Z] in
  let ts_capa :=
    convert_timeslice
      (interp_years capacity [current_year; (current_year + forecast)%Z])
      (timeslice market) in
  let ts_capa := region_per_asset ts_capa in
  new_demand <-
    new_consumption ts_capa smarket technologies (Callable production_method)
                    (Some current_year) forecast ;;
  new_demand <-
    (if has_dim "year" (dims new_demand)
     then squeeze "year" new_demand else Ok new_demand) ;;
  service <-
    groupby_sum "region"
      (production_method (market_sel_year smarket (current_year + forecast)%Z)
                         (sel_year ts_capa (current_year + forecast)%Z)
                         technologies) ;;
  let retro_demand :=
    amap (clip_min 0)
         (binop Qminus
                (binop Qminus
                       (consumption (market_sel_year smarket (current_year + forecast)%Z))
                       new_demand)
                service) in
  retro_demand <-
    (if has_dim "year" (dims retro_demand)
     then squeeze "year" retro_demand else Ok retro_demand) ;;
  Ok {| new := new_demand; retrofit := retro_demand |}.

Definition is_retrofit (agent : AgentBase) : bool :=
  String.eqb (category agent) "retrofit".

(** [getattr(agent, "quantity", 0.3)] *)
Definition quantity_of (agent : AgentBase) : Q :=
  match quantity agent with
  | Some q => q
  | None => 3 # 10
  end.

(** The comprehension that builds [new_capacity]. *)
Fixpoint new_capacities (retro_capacity : list (string * Assets))
    (name_to_uuid : list (string * string * string))
    (news : list AgentBase) (acc : list (string * Assets))
  : result (list (string * Assets)) :=
  match news with
  | [] => Ok acc
  | agent :: r =>
      retro <- dict_get pair_eqb (name agent, region agent) name_to_uuid ;;
      capacity <- dict_get String.eqb retro retro_capacity ;;
      new_capacities retro_capacity name_to_uuid r
        (dict_set String.eqb (uuid agent) (scale (quantity_of agent) capacity) acc)
  end.

(** The key of an agent in [name_to_uuid]. *)
Definition key (agent : AgentBase) : string * string := (name agent, region agent).

(** The agents of a region, by category. *)
Definition retrofits_of (agents : list AgentBase) (region_ : string) : list AgentBase :=
  filter (fun agent => is_retrofit agent && String.eqb (region agent) region_) agents.

Definition others_of (agents : list AgentBase) (region_ : string) : list AgentBase :=
  filter (fun agent => negb (is_retrofit agent) && String.eqb (region agent) region_)
         agents.

Definition retro_capacity_of (agents : list AgentBase) (region_ : string)
  : list (string * Assets) :=
  dict_of String.eqb
          (map (fun agent => (uuid agent, assets_capacity agent))
               (retrofits_of agents region_)).

Definition name_to_uuid_of (agents : list AgentBase) (region_ : string)
  : list (string * string * string) :=
  dict_of pair_eqb
          (map (fun agent => (key agent, uuid agent))
               (retrofits_of agents region_)).

(** The local function [decommissioning] of [new_and_retro]. *)
Definition decommissioning (technologies : Technologies) (current_year forecast : Z)
    (capacity : Assets) : Assets :=
  squeeze_year
    (decommissioning_demand technologies capacity
                            [current_year; (current_year + forecast)%Z]).

(** One turn of the loop over the regions. *)
Definition split_region (agents : list AgentBase) (technologies : Technologies)
    (demands : Demands) (current_year forecast : Z)
    (results : list (string * DataArray num)) (region_ : string)
  : result (list (string * DataArray num)) :=
  let regional_techs := tech_sel_region technologies region_ in
  let retro_capacity := retro_capacity_of agents region_ in
  retro_demand <- sel_label "region" region_ (retrofit demands) ;;
  retro_demands <-
    _inner_split retro_capacity retro_demand
                 (decommissioning technologies current_year forecast) ;;
  let results := dict_update String.eqb results retro_demands in
  let name_to_uuid := name_to_uuid_of agents region_ in
  _ <- assert (Nat.eqb (List.length name_to_uuid) (List.length retro_capacity)) ;;
  new_capacity <-
    new_capacities retro_capacity name_to_uuid (others_of agents region_) [] ;;
  new_demand <- sel_label "region" region_ (new demands) ;;
  new_demands <-
    _inner_split new_capacity new_demand
      (fun capacity => maximum_production regional_techs capacity current_year) ;;
  Ok (dict_update String.eqb results new_demands).

Fixpoint split_regions (agents : list AgentBase) (technologies : Technologies)
    (demands : Demands) (current_year forecast : Z)
    (results : list (string * DataArray num)) (regions : list string)
  : result (list (string * DataArray num)) :=
  match regions with
  | [] => Ok results
  | r :: rest =>
      results <- split_region agents technologies demands current_year forecast results r ;;
      split_regions agents technologies demands current_year forecast results rest
  end.

Definition new_and_retro (agents : list AgentBase) (market : Market)
    (technologies : Technologies) (production : production_arg)
    (current_year : option Z) (forecast : Z)
  : result (list (string * DataArray num)) :=
  let current_year :=
    match current_year with Some y => y | None => year_min market end in
  let capacity := reduce_assets (map assets_capacity agents) in
  demands <-
    new_and_retro_demands capacity market technologies production
                          (Some current_year) forecast ;;
  commodity <- coord (new demands) "commodity" ;;
  usage <- sel "commodity" commodity (comm_usage technologies) ;;
  new_demand <- where_ (new demands) (is_enduse usage) 0 ;;
  retro_demand <- where_ (retrofit demands) (is_enduse usage) 0 ;;
  let demands := {| new := new_demand; retrofit := retro_demand |} in
  region_coord <- coord (new demands) "region" ;;
  regions <- values region_coord ;;
  split_regions agents technologies demands current_year forecast [] regions.

End demand_share.

Arguments ByName {Market Technologies} s.
Arguments Callable {Market Technologies} f.

End DemandShare.

(** ** Objectives ([muse.objectives]) *)

Module Objectives.
Import XArray.

(** The kinds of numpy dtype an objective can return. *)
Inductive dtype : Type :=
| float64 | int64 | bool_ | object_ | str_ | datetime64.

(** [issubdtype(dtype, number)] *)
Definition is_number (t : dtype) : bool :=
  match t with
  | float64 | int64 => true
  | _ => false
  end.

(** [issubdtype(dtype, bool_)] *)
Definition is_bool (t : dtype) : bool :=
  match t with
  | bool_ => true
  | _ => false
  end.

Definition dtype_name (t : dtype) : string :=
  match t with
  | float64 => "float64"
  | int64 => "int64"
  | bool_ => "bool"
  | object_ => "object"
  | str_ => "<U1"
  | datetime64 => "datetime64[ns]"
  end.

Inductive level : Type := WARNING | CRITICAL.

(** A record handed to a logger: the logger's name, the level, the text. *)
Definition Log : Type := list (string * level * string).

Section objectives.

(** The agent, the other arguments of an objective, the content of one
    asset's row of the demand and the values of a result play no part in
    the wrapper. *)
Variables Agent Args Row Values : Type.

(** The demand, one row per asset. *)
Definition Demand : Type := list (string * Row).

(** [demand.sel(asset=labels)] *)
Fixpoint sel_asset (labels : list string) (demand : Demand) : result Demand :=
  match labels with
  | [] => Ok []
  | a :: r =>
      match lookup a demand with
      | Some row =>
          rest <- sel_asset r demand ;;
          Ok ((a, row) :: rest)
      | None => Raise KeyError
      end
  end.

(** What the wrapper inspects of the array an objective returns. *)
Record ObjectiveArray : Type := {
  values_dtype : dtype;
  dims : list string;
  coords : list string;
  name : option string;
  values : Values
}.

Record Objective : Type := {
  function : Agent -> Demand -> DataArray bool -> Args -> result ObjectiveArray;
  __name__ : string;
  __module__ : string
}.

Definition issuperset (big small : list string) : bool :=
  forallb (fun d => mem d big) small.

Definition set_name (n : string) (r : ObjectiveArray) : ObjectiveArray :=
  {| values_dtype := values_dtype r; dims := dims r; coords := coords r;
     name := Some n; values := values r |}.

(** [demand.sel(asset=search_space.asset)] *)
Definition reduce_demand (demand : Demand) (search_space : DataArray bool)
  : result Demand :=
  asset <- coord search_space "asset" ;;
  labels <- XArray.values asset ;;
  sel_asset labels demand.

(** The checks on the array that the objective returned. *)
Definition check_result (f : Objective) (returned : ObjectiveArray) (log : Log)
  : result ObjectiveArray * Log :=
  let dtype := values_dtype returned in
  let msg :=
    "dtype of objective " ++ __name__ f
    ++ " is not a number (" ++ dtype_name dtype ++ ")" in
  let log :=
    if negb (is_number dtype || is_bool dtype)
    then (log ++ [(__module__ f, WARNING, msg)])%list
    else log in
  if negb (issuperset ["replacement"; "asset"] (dims returned))
  then (Raise RuntimeError, log)
  else if mem "technology" (dims returned) then (Raise RuntimeError, log)
  else if mem "technology" (coords returned) then (Raise RuntimeError, log)
  else (Ok (set_name (__name__ f) returned), log).

(** The function that [register_objective] puts in the registry. *)
Definition decorated (f : Objective) (agent : Agent) (demand : Demand)
    (search_space : DataArray bool) (args : Args) (log : Log)
  : result ObjectiveArray * Log :=
  match (reduced_demand <- reduce_demand demand search_space ;;
         function f agent reduced_demand search_space args) with
  | Raise e => (Raise e, log)
  | Ok returned => check_result f returned log
  end.

End objectives.

Arguments values_dtype {Values} o.
Arguments dims {Values} o.
Arguments coords {Values} o.
Arguments name {Values} o.
Arguments values {Values} o.
Arguments function {Agent Args Row Values} o.
Arguments __name__ {Agent Args Row Values} o.
Arguments __module__ {Agent Args Row Values} o.
Arguments sel_asset {Row} labels demand.
Arguments set_name {Values} n r.
Arguments reduce_demand {Row} demand search_space.
Arguments check_result {Agent Args Row Values} f returned log.
Arguments decorated {Agent Args Row Values} f agent demand search_space args log.

End Objectives.

(** ** Sector ([muse.sectors.sector]) *)

Module AgentBase.
Import XArray Num.

Section agent.

Variables Assets Technologies Market : Type.

Record t : Type := {
  uuid : string;
  name : string;
  category : string;
  forecast : option Z;
  year : option Z;
  assets : Assets
}.

Definition with_assets (agent : t) (y : option Z) (a : Assets) : t :=
  {| uuid := uuid agent; name := name agent; category := category agent;
     forecast := forecast agent; year := y; assets := a |}.

(** [demand.size == 0 or demand.sum() < 1e-12] *)
Definition negligible (demand : DataArray num) : bool :=
  Nat.eqb (size demand) 0 || fltb (nansum (entries demand)) (1 # 1000000000000).

(** Modelled from the spec: [Agent.next] belongs to [muse.agent], which is
    not among the sources; only its call in [Sector.investment] is.  The
    specification has each agent build its search space, compute the
    objectives, apply the decision function and commit the new capacity
    into its own assets ([invest] stands for that pipeline), advance its
    year, and make no investment when its demand share is empty or below
    tolerance. *)
Definition next
    (invest : t -> Technologies -> Market -> DataArray num -> Z -> result Assets)
    (agent : t) (technologies : Technologies) (market : Market)
    (demand : DataArray num) (time_period : Z) : result t :=
  let advanced := option_map (fun y => (y + time_period)%Z) (year agent) in
  if negligible demand
  then Ok (with_assets agent advanced (assets agent))
  else
    new_assets <- invest agent technologies market demand time_period ;;
    Ok (with_assets agent advanced new_assets).

End agent.

Arguments uuid {Assets} t.
Arguments name {Assets} t.
Arguments category {Assets} t.
Arguments forecast {Assets} t.
Arguments year {Assets} t.
Arguments assets {Assets} t.
Arguments negligible demand : assert.
Arguments next {Assets Technologies Market} invest agent.

End AgentBase.

Module Sector.
Import XArray Num.

(** Why a record was logged by the investment loop. *)
Inductive reason : Type :=
| EmptyShare   (* "Demand share is empty, no investment needed ..." *)
| NoDemand.    (* "No demand, no investment needed for ..." *)

(** A critical record of the loop: the reason, then the agent's category
    and name, the sector's name and the year that the message quotes. *)
Record critical : Type := {
  why : reason;
  agent_category : string;
  agent_name : string;
  sector_name : string;
  market_year : Z
}.

Section sector.

Variables Assets Technologies Market Capacity : Type.

Abbreviation Agent := (AgentBase.t Assets).

(** The market's years and the steps of the loop that other modules
    define. *)
Variable year_min : Market -> Z.
Variable year_max : Market -> Z.
Variable reduce_assets : list Assets -> Capacity.
Variable interp_capacity : Capacity -> Market -> Capacity.
Variable asset_capacity : Capacity -> Capacity.
Variable with_capacity : Market -> Capacity -> Market.
Variable invest :
  Agent -> Technologies -> Market -> DataArray num -> Z -> result Assets.

Record Sector : Type := {
  name : string;
  agents : list Agent;
  demand_share :
    list Agent -> Market -> Technologies -> Z -> Z
    -> result (list (string * DataArray num))
}.

Definition forecasts (self : Sector) : list Z :=
  flat_map (fun agent : Agent =>
              match AgentBase.forecast agent with
              | Some f => [f]
              | None => []
              end)
           (agents self).

(** Python's [max] of a non-empty list. *)
Definition py_max (x : Z) (l : list Z) : Z := fold_left Z.max l x.

Definition forecast (self : Sector) : Z :=
  match forecasts self with
  | [] => 5%Z
  | f :: r => Z.max 1 (py_max f r)
  end.

(** The body of the loop over the agents. *)
Definition invest_agent (self : Sector) (market agent_market : Market)
    (technologies : Technologies) (shares : list (string * DataArray num))
    (time_period : Z) (agent : Agent) (log : list critical)
  : result Agent * list critical :=
  let this_year :=
    match AgentBase.year agent with Some y => y | None => year_min market end in
  if negb (Z.eqb (year_min market) this_year) then (Raise AssertionError, log)
  else
    match lookup (AgentBase.uuid agent) shares with
    | None => (Raise KeyError, log)
    | Some share =>
        let record (r : reason) : critical :=
          {| why := r;
             agent_category := AgentBase.category agent;
             agent_name := AgentBase.name agent;
             sector_name := name self;
             market_year := year_min agent_market |} in
        let log :=
          if Nat.eqb (size share) 0 then (log ++ [record EmptyShare])%list
          else if fltb (nansum (entries share)) (1 # 1000000000000)
               then (log ++ [record NoDemand])%list
               else log in
        (AgentBase.next invest agent technologies agent_market share time_period,
         log)
    end.

Fixpoint invest_agents (self : Sector) (market agent_market : Market)
    (technologies : Technologies) (shares : list (string * DataArray num))
    (time_period : Z) (todo : list Agent) (log : list critical)
  : result (list Agent) * list critical :=
  match todo with
  | [] => (Ok [], log)
  | agent :: rest =>
      match invest_agent self market agent_market technologies shares
                         time_period agent log with
      | (Raise e, log) => (Raise e, log)
      | (Ok agent', log) =>
          match invest_agents self market agent_market technologies shares
                              time_period rest log with
          | (Raise e, log) => (Raise e, log)
          | (Ok rest', log) => (Ok (agent' :: rest'), log)
          end
      end
  end.

(** [Sector.investment]: the agents after the loop, and what was logged. *)
Definition investment (self : Sector) (market : Market)
    (technologies : Technologies) (time_period : option Z) (log : list critical)
  : result (list Agent) * list critical :=
  let time_period :=
    match time_period with
    | Some p => p
    | None => (year_max market - year_min market)%Z
    end in
  match demand_share self (agents self) market technologies
                     (year_min market) (forecast self) with
  | Raise e => (Raise e, log)
  | Ok shares =>
      let capacity :=
        interp_capacity (reduce_assets (map AgentBase.assets (agents self))) market in
      let agent_market := with_capacity market (asset_capacity capacity) in
      invest_agents self market agent_market technologies shares time_period
                    (agents self) log
  end.

End sector.

Arguments name {Assets Technologies Market} s.
Arguments agents {Assets Technologies Market} s.
Arguments demand_share {Assets Technologies Market} s.
Arguments forecasts {Assets Technologies Market} self.
Arguments forecast {Assets Technologies Market} self.
Arguments invest_agent {Assets Technologies Market} year_min invest self.
Arguments invest_agents {Assets Technologies Market} year_min invest self.

End Sector.

(** ** The chain of filters ([muse.filters], continued) *)

Module SearchSpace.
Import XArray Num Filters.

(** The settings of [factory]: a name, a mapping with a ["name"] item and
    keyword arguments for the function of that name, or a sequence of
    such.  The name of a mapping, when it has one, is a string. *)
Section settings.

Variable Value : Type.

Definition Kwargs : Type := list (string * Value).

Record Mapping : Type := {
  name : option string;
  kwargs : Kwargs
}.

Inductive Setting : Type :=
| Text (s : string)
| Map (m : Mapping).

Inductive Settings : Type :=
| NoSettings
| One (s : Setting)
| Many (l : list Setting).

End settings.

Arguments name {Value} m.
Arguments kwargs {Value} m.
Arguments Text {Value} s.
Arguments Map {Value} m.
Arguments NoSettings {Value}.
Arguments One {Value} s.
Arguments Many {Value} l.

Section search_space.

Context {external : External}.

Variable Value : Type.

(** The labels of the [technology] coordinate of the dataset of
    technologies, [technologies.technology.values]; the record of the
    variables of the dataset does not hold it. *)
Variable technology : Technologies -> list string.

(** [x.sum(ds)]: the sum over each of the dimensions [ds]. *)
Fixpoint sum_over (ds : list string) (x : DataArray Q) : result (DataArray Q) :=
  match ds with
  | [] => Ok x
  | d :: r =>
      y <- sum_ d x ;;
      sum_over r y
  end.

(** [demand.asset[condtechs]] with a boolean array over the assets selects
    the labels at which it holds, as [sel_mask] does. *)
Definition initialize_from_technologies (agent : Agent) (demand : DataArray Q)
    (technologies : Technologies) : result (DataArray bool) :=
  let not_assets :=
    filter (fun u => negb (String.eqb u "asset")) (map fst (dims demand)) in
  total <- sum_over not_assets demand ;;
  let condtechs := amap (fun q => Qgtb q (tolerance_of agent)) total in
  asset <- coord demand "asset" ;;
  kept <- sel_mask "asset" condtechs asset ;;
  assets <- values kept ;;
  Ok (mkDA [("asset", assets); ("replacement", technology technologies)]
           (fun _ => true)).

(** A registered function, with the keyword arguments of the settings
    first: [partial(function, **kwargs)]. *)
Definition Initializer : Type :=
  Kwargs Value -> Agent -> DataArray Q -> Technologies -> Market
  -> result (DataArray bool).

Definition Filter : Type :=
  Kwargs Value -> Agent -> DataArray bool -> Technologies -> Market
  -> result (DataArray bool).

(** The two registries; what [muse.registration] puts in them is not
    defined by the module. *)
Variable SEARCH_SPACE_INITIALIZERS : list (string * Initializer).
Variable SEARCH_SPACE_FILTERS : list (string * Filter).

(** The dictionary of an item: a name alone gives [{"name": item}], a
    mapping gives a copy of itself. *)
Definition parameter (item : Setting Value) : Mapping Value :=
  match item with
  | Text s => {| name := Some s; kwargs := [] |}
  | Map m => m
  end.

(** [setting["name"]] *)
Definition name_of (setting : Mapping Value) : result string :=
  match name setting with
  | Some s => Ok s
  | None => Raise KeyError
  end.

Definition default : Mapping Value :=
  {| name := Some "initialize_from_technologies"; kwargs := [] |}.

(** The filters of the settings after the first, each with its keyword
    arguments. *)
Fixpoint partials (parameters : list (Mapping Value))
  : result (list (Agent -> DataArray bool -> Technologies -> Market
                  -> result (DataArray bool))) :=
  match parameters with
  | [] => Ok []
  | setting :: r =>
      n <- name_of setting ;;
      function <- DemandShare.dict_get String.eqb n SEARCH_SPACE_FILTERS ;;
      rest <- partials r ;;
      Ok (function (kwargs setting) :: rest)
  end.

(** The loop of [filters] over the functions after the first. *)
Fixpoint apply_filters
    (functions : list (Agent -> DataArray bool -> Technologies -> Market
                       -> result (DataArray bool)))
    (agent : Agent) (search_space : DataArray bool)
    (technologies : Technologies) (market : Market) : result (DataArray bool) :=
  match functions with
  | [] => Ok search_space
  | function :: r =>
      search_space <- function agent search_space technologies market ;;
      apply_filters r agent search_space technologies market
  end.

Definition factory (settings : Settings Value)
  : result (Agent -> DataArray Q -> Technologies -> Market
            -> result (DataArray bool)) :=
  let settings :=
    match settings with
    | NoSettings => []
    | One s => [s]
    | Many l => l
    end in
  let settings :=
    match settings with
    | [] => [Map default]
    | _ => settings
    end in
  let parameters := map parameter settings in
  match parameters with
  | [] => Raise IndexError
  | first :: _ =>
      n <- name_of first ;;
      let parameters :=
        if mem n (map fst SEARCH_SPACE_INITIALIZERS) then parameters
        else default :: parameters in
      match parameters with
      | [] => Raise IndexError
      | initial_settings :: parameters =>
          n <- name_of initial_settings ;;
          initial <- DemandShare.dict_get String.eqb n SEARCH_SPACE_INITIALIZERS ;;
          functions <- partials parameters ;;
          Ok (fun agent demand technologies market =>
                search_space <-
                  initial (kwargs initial_settings) agent demand technologies market ;;
                apply_filters functions agent search_space technologies market)
      end
  end.

End search_space.

End SearchSpace.

(** ** The demand share of the settings ([muse.demand_share.factory]) *)

Module ShareFactory.
Import DemandShare.

Section factory.

(** The values of the keyword arguments, and what a demand share takes
    and returns. *)
Variables Value Agents Market Technologies Shares : Type.

Definition Kwargs : Type := list (string * Value).

(** A mapping of the settings: its ["name"] item, a string when it is
    there, and its other items. *)
Record Mapping : Type := {
  name : option string;
  items : Kwargs
}.

Inductive Settings : Type :=
| NoSettings
| Text (s : string)
| Map (m : Mapping).

Definition Function : Type :=
  Agents -> Market -> Technologies -> Kwargs -> result Shares.

(** The registry; what [muse.registration] puts in it is not defined by
    the module. *)
Variable DEMAND_SHARE : list (string * Function).

(** [settings or "new_and_retro"] and [settings.get("name", "new_and_retro")] *)
Definition name_of (settings : Settings) : string :=
  match settings with
  | NoSettings => "new_and_retro"
  | Text s => if String.eqb s "" then "new_and_retro" else s
  | Map m =>
      match name m with
      | Some n => n
      | None => "new_and_retro"
      end
  end.

Definition params_of (settings : Settings) : Kwargs :=
  match settings with
  | NoSettings | Text _ => []
  | Map m => items m
  end.

Definition factory (settings : Settings) : Function :=
  let name := name_of settings in
  let params := params_of settings in
  fun agents market technologies kwargs =>
    function <- dict_get String.eqb name DEMAND_SHARE ;;
    let keywords := dict_update String.eqb params kwargs in
    function agents market technologies keywords.

End factory.

Arguments name {Value} m.
Arguments items {Value} m.
Arguments NoSettings {Value}.
Arguments Text {Value} s.
Arguments Map {Value} m.
Arguments name_of {Value} settings.
Arguments params_of {Value} settings.
Arguments factory {Value Agents Market Technologies Shares} DEMAND_SHARE settings.

End ShareFactory.

(** ** Exceptions raised by the output cache and the objectives *)

Module Py.

Inductive exception : Type :=
| Builtin (e : error)
| TypeError
| UnboundLocalError.

Inductive outcome (A : Type) : Type :=
| Returns (a : A)
| Raises (e : exception).
Arguments Returns {A} a.
Arguments Raises {A} e.

Definition and_then {A B} (m : outcome A) (k : A -> outcome B) : outcome B :=
  match m with
  | Returns a => k a
  | Raises e => Raises e
  end.

Definition lift {A} (m : result A) : outcome A :=
  match m with
  | Ok a => Returns a
  | Raise e => Raises (Builtin e)
  end.

Definition returns {A} (m : outcome A) : bool :=
  match m with
  | Returns _ => true
  | Raises _ => false
  end.

End Py.

Notation "x <~ m ;; k" := (Py.and_then m (fun x => k))
  (at level 61, m at next level, right associativity).

(** ** The cache of outputs ([muse.outputs.cache]) *)

Module Cache.
Import Py DemandShare.

Section cache.

(** The arrays that are cached, what a sink returns once it has written
    them, and the functions of the registry of output quantities. *)
Variables Array Written Compute : Type.

(** The [quantity] argument: a name or a sequence of names. *)
Inductive Quantity : Type :=
| Text (s : string)
| Names (l : list string).

(** What a decorated function returns: an array, a dataset, a sequence of
    arrays, or something else. *)
Inductive Data : Type :=
| DataArray (a : Array)
| Dataset (data_vars : list (string * Array))
| Sequence (l : list Array)
| Other.

(** A string as a sequence: its characters. *)
Definition characters (s : string) : list string :=
  map (fun c => String c EmptyString) (list_ascii_of_string s).

(** [{q: data[q] for q in quantity}], before the keys are merged. *)
Fixpoint getitems (data_vars : list (string * Array)) (quantity : list string)
  : outcome (list (string * Array)) :=
  match quantity with
  | [] => Returns []
  | q :: r =>
      v <~ lift (dict_get String.eqb q data_vars) ;;
      rest <~ getitems data_vars r ;;
      Returns ((q, v) :: rest)
  end.

(** [{q: v for q, v in zip(quantity, data)}] when the lengths agree. *)
Definition zipped (quantity : list string) (data : list Array)
  : outcome (list (string * Array)) :=
  if negb (Nat.eqb (List.length quantity) (List.length data))
  then Raises (Builtin ValueError)
  else Returns (dict_of String.eqb (combine quantity data)).

(** The tests of the source are made in this order; a string is a
    sequence too, which the fourth case relies on. *)
Definition match_quantities (quantity : Quantity) (data : Data)
  : outcome (list (string * Array)) :=
  match quantity, data with
  | Text q, DataArray a => Returns [(q, a)]
  | Text q, Dataset data_vars =>
      v <~ lift (dict_get String.eqb q data_vars) ;;
      Returns [(q, v)]
  | Names qs, Dataset data_vars =>
      items <~ getitems data_vars qs ;;
      Returns (dict_of String.eqb items)
  | Text q, Sequence l => zipped (characters q) l
  | Names qs, Sequence l => zipped qs l
  | _, _ => Raises TypeError
  end.

(** A sink of the cache: what [muse.outputs.sector._factory] returns,
    called with the cached arrays and the year. *)
Definition Sink : Type := list Array -> Z -> outcome Written.

(** A parameter of [OutputCache]: a lone string, or a mapping with its
    ["quantity"] item, when it has one, and its other items. *)
Variable Options : Type.

Inductive Setting : Type :=
| Lone (s : string)
| Mapping (quantity : option string) (options : Options).

Variable _factory : list (string * Compute) -> Setting -> outcome Sink.

Record OutputCache : Type := {
  to_save : list (string * list Array);
  factory : list (string * Sink);
  topic : string
}.

(** [p["quantity"]] *)
Definition quantity_of (p : Setting) : outcome string :=
  match p with
  | Lone _ => Raises TypeError
  | Mapping (Some q) _ => Returns q
  | Mapping None _ => Raises (Builtin KeyError)
  end.

(** The quantities of the parameters, with whether each is one of
    [known]. *)
Fixpoint quantities (known : list string) (parameters : list Setting)
  : outcome (list (Setting * string * bool)) :=
  match parameters with
  | [] => Returns []
  | p :: r =>
      q <~ quantity_of p ;;
      rest <~ quantities known r ;;
      Returns ((p, q, XArray.mem q known) :: rest)
  end.

Fixpoint sinks (output_quantities : list (string * Compute))
    (selected : list (Setting * string * bool))
  : outcome (list (string * Sink)) :=
  match selected with
  | [] => Returns []
  | (p, q, _) :: r =>
      sink <~ _factory output_quantities p ;;
      rest <~ sinks output_quantities r ;;
      Returns ((q, sink) :: rest)
  end.

Definition CACHE_TOPIC_CHANNEL : string := "cache_quantity".

(** The registry of the module. *)
Variable OUTPUT_QUANTITIES : list (string * Compute).

(** [OutputCache.__init__], but for the subscription. *)
Definition __init__ (parameters : list Setting)
    (output_quantities : option (list (string * Compute))) (topic_ : string)
  : outcome OutputCache :=
  let output_quantities :=
    match output_quantities with
    | None => OUTPUT_QUANTITIES
    | Some given => given
    end in
  found <~ quantities (map fst output_quantities) parameters ;;
  let missing := filter (fun pq => negb (snd pq)) found in
  if negb (Nat.eqb (List.length missing) 0) then Raises (Builtin ValueError)
  else
    found <~ quantities (map fst output_quantities) parameters ;;
    let to_save_ :=
      dict_of String.eqb
              (map (fun pq : Setting * string * bool => (snd (fst pq), []))
                   (filter (fun pq => snd pq) found)) in
    found <~ quantities (map fst to_save_) parameters ;;
    factory_ <~ sinks output_quantities (filter (fun pq => snd pq) found) ;;
    Returns {| to_save := to_save_;
               factory := dict_of String.eqb factory_;
               topic := topic_ |}.

(** [to_save[quantity].append(value)] *)
Fixpoint append (quantity : string) (value : Array)
    (d : list (string * list Array)) : list (string * list Array) :=
  match d with
  | [] => []
  | (q, l) :: r =>
      if String.eqb quantity q then (q, (l ++ [value])%list) :: r
      else (q, l) :: append quantity value r
  end.

(** [OutputCache.cache]; the copy of a value is the value. *)
Definition cache (self : OutputCache) (data : list (string * Array)) : OutputCache :=
  {| to_save :=
       fold_left (fun d qv =>
                    if negb (XArray.mem (fst qv) (map fst d)) then d
                    else append (fst qv) (snd qv) d)
                 data (to_save self);
     factory := factory self;
     topic := topic self |}.

(** The loop of [consolidate_cache]: what the sinks returned. *)
Fixpoint write (sinks_ : list (string * Sink)) (year : Z)
    (d : list (string * list Array)) : outcome (list Written) :=
  match d with
  | [] => Returns []
  | (quantity, cached) :: r =>
      if Nat.eqb (List.length cached) 0 then write sinks_ year r
      else
        sink <~ lift (dict_get String.eqb quantity sinks_) ;;
        written <~ sink cached year ;;
        rest <~ write sinks_ year r ;;
        Returns (written :: rest)
  end.

(** [OutputCache.consolidate_cache]: the cache is flushed when every sink
    has returned. *)
Definition consolidate_cache (self : OutputCache) (year : Z)
  : outcome (list Written) * OutputCache :=
  match write (factory self) year (to_save self) with
  | Raises e => (Raises e, self)
  | Returns written =>
      (Returns written,
       {| to_save := map (fun ql : string * list Array => (fst ql, [])) (to_save self);
          factory := factory self;
          topic := topic self |})
  end.

(** The caches that have subscribed, in the order of their creation. *)
Definition Subscribers : Type := list OutputCache.

(** [pub.sendMessage(topic, data=data)] *)
Definition sendMessage (topic_ : string) (data : list (string * Array))
    (subscribers : Subscribers) : Subscribers :=
  map (fun c => if String.eqb (topic c) topic_ then cache c data else c) subscribers.

(** What [cache_quantity] returns: the function that does nothing, a
    decorator that waits for its function, or the decorated function. *)
Inductive Callable (F N : Type) : Type :=
| Nothing
| Decorator (quantity : option N)
| Decorated (function : F) (quantity : N).

(** [cache_quantity(function, quantity, **kwargs)]; nothing is asked of
    [function] and [quantity] but whether they are [None]. *)
Definition cache_quantity {F N} (function : option F) (quantity : option N)
    (kwargs : list (string * Array)) (subscribers : Subscribers)
  : outcome (Callable F N) * Subscribers :=
  if negb (Nat.eqb (List.length kwargs) 0) then
    match function with
    | Some _ => (Raises (Builtin ValueError), subscribers)
    | None =>
        (Returns (Nothing F N), sendMessage CACHE_TOPIC_CHANNEL kwargs subscribers)
    end
  else
    match function, quantity with
    | None, _ => (Returns (Decorator F N quantity), subscribers)
    | Some _, None => (Raises (Builtin ValueError), subscribers)
    | Some f, Some q => (Returns (Decorated F N f q), subscribers)
    end.

(** An argument of a call with [**matched]: the item of that name, if
    any. *)
Definition keyword (k : string) (matched : list (string * Array)) : option Array :=
  match dict_get String.eqb k matched with
  | Ok v => Some v
  | Raise _ => None
  end.

(** A call of the decorated function.  It calls [cache_quantity] with
    [**matched]: the items named as the two arguments of [cache_quantity]
    are these arguments, the others are its keyword arguments. *)
Definition decorated {Args} (function : Args -> outcome Data) (quantity : Quantity)
    (args : Args) (subscribers : Subscribers) : outcome Data * Subscribers :=
  match function args with
  | Raises e => (Raises e, subscribers)
  | Returns returned =>
      match match_quantities quantity returned with
      | Raises e => (Raises e, subscribers)
      | Returns matched =>
          let kwargs :=
            filter (fun kv : string * Array =>
                      negb (String.eqb (fst kv) "function"
                            || String.eqb (fst kv) "quantity"))
                   matched in
          match cache_quantity (keyword "function" matched)
                               (keyword "quantity" matched) kwargs subscribers with
          | (Raises e, subscribers) => (Raises e, subscribers)
          | (Returns _, subscribers) => (Returns returned, subscribers)
          end
      end
  end.

End cache.

Arguments DataArray {Array} a.
Arguments Dataset {Array} data_vars.
Arguments Sequence {Array} l.
Arguments Other {Array}.
Arguments getitems {Array} data_vars quantity.
Arguments zipped {Array} quantity data.
Arguments match_quantities {Array} quantity data.
Arguments Lone {Options} s.
Arguments Mapping {Options} quantity options.
Arguments quantity_of {Options} p.
Arguments quantities {Options} known parameters.
Arguments to_save {Array Written} o.
Arguments factory {Array Written} o.
Arguments topic {Array Written} o.
Arguments __init__ {Array Written Compute Options} _factory OUTPUT_QUANTITIES
  parameters output_quantities topic_.
Arguments append {Array} quantity value d.
Arguments cache {Array Written} self data.
Arguments write {Array Written} sinks_ year d.
Arguments consolidate_cache {Array Written} self year.
Arguments sendMessage {Array Written} topic_ data subscribers.
Arguments Nothing {F N}.
Arguments Decorator {F N} quantity.
Arguments Decorated {F N} function quantity.
Arguments cache_quantity {Array Written F N} function quantity kwargs subscribers.
Arguments keyword {Array} k matched.
Arguments decorated {Array Written Args} function quantity args subscribers.

End Cache.

(** ** The values of the objectives ([muse.objectives], continued) *)

Module ObjectiveValues.
Import XArray Num Py.

(** *** Floats *)

Definition fneg (x : num) : num :=
  match x with
  | Fin q => Fin (- q)
  | PInf => NInf
  | NInf => PInf
  | NaN => NaN
  end.

Definition fsub (x y : num) : num := fadd x (fneg y).

(** [x ** n] with an integer exponent: a negative power of zero is
    infinite. *)
Definition fpow (x : Q) (n : Z) : num :=
  if (n <? 0)%Z && Qeq_bool x 0 then PInf else Fin (Qpower x n).

(** numpy's [int] has 64 bits. *)
Definition int64_min : Z := (- 2 ^ 63)%Z.
Definition int64_max : Z := (2 ^ 63 - 1)%Z.

(** [x.astype(int)]: towards zero; a value that does not fit in 64 bits
    comes out as the smallest integer. *)
Definition astype_int (x : Q) : Z :=
  let z := if Qle_bool 0 x then Qfloor x else Qceiling x in
  if (int64_min <=? z)%Z && (z <=? int64_max)%Z then z else int64_min.

Definition qmax (a b : Q) : Q := if Qle_bool a b then b else a.

(** The larger of two floats, where [nan] gives way ([nanmax]). *)
Definition fmax2 (x y : num) : num :=
  match x, y with
  | NaN, _ => y
  | _, NaN => x
  | PInf, _ | _, PInf => PInf
  | NInf, _ => y
  | _, NInf => x
  | Fin a, Fin b => Fin (qmax a b)
  end.

(** [x.max(d)]: there is no maximum over no label. *)
Definition max_ (d : string) (x : DataArray num) : result (DataArray num) :=
  match lookup d (dims x) with
  | Some (l :: ls) =>
      Ok (mkDA (remove_dim d (dims x))
               (fun ix =>
                  fold_left fmax2 (map (fun l' => val x (upd ix d l')) ls)
                            (val x (upd ix d l))))
  | _ => Raise ValueError
  end.

(** [x.max()] over all the entries of an array of finite values. *)
Definition max_all (x : DataArray Q) : result Q :=
  match entries x with
  | [] => Raise ValueError
  | v :: r => Ok (fold_left Qmax r v)
  end.

(** [x.sum()] *)
Definition sum_all (x : DataArray Q) : Q := Qsum (entries x).

(** *** Datasets *)

(** The dataset of technologies: its variables of numbers, and the usage
    flags of the commodities. *)
Record Technologies : Type := {
  data_vars : list (string * DataArray Q);
  comm_usage : DataArray Z
}.

(** What the objectives read of the market: its [represent_hours], when
    it has them, and its timeslices. *)
Record Market (TimeSlice : Type) : Type := {
  represent_hours : option (DataArray Q);
  timeslice : TimeSlice
}.
Arguments represent_hours {TimeSlice} m.
Arguments timeslice {TimeSlice} m.

(** The keyword arguments of [Agent.filter_input]. *)
Record Selection : Type := {
  year : option Z;
  region : option string;
  technology : option (DataArray string)
}.

(** [Agent.filter_input] (muse.agent) on an array and on a dataset,
    followed by [drop_vars("technology")], which drops a coordinate that
    the arrays of the model do not hold; [is_enduse] (muse.commodities)
    and [represent_hours] (muse.timeslices). *)
Class External (Agent TimeSlice : Type) : Type := {
  agent_year : Agent -> Z;
  agent_region : Agent -> string;
  filter_input : Agent -> DataArray Q -> Selection -> DataArray Q;
  filter_dataset :
    Agent -> list (string * DataArray Q) -> Selection -> list (string * DataArray Q);
  is_enduse : DataArray Z -> DataArray bool;
  timeslice_hours : TimeSlice -> DataArray Q
}.

(** [dataset[[names]]] *)
Fixpoint getitems (names : list string) (dataset : list (string * DataArray Q))
  : result (list (string * DataArray Q)) :=
  match names with
  | [] => Ok []
  | n :: r =>
      v <- DemandShare.dict_get String.eqb n dataset ;;
      rest <- getitems r dataset ;;
      Ok ((n, v) :: rest)
  end.

(** [dataset.name] *)
Definition getattr (dataset : list (string * DataArray Q)) (n : string)
  : result (DataArray Q) :=
  match lookup n dataset with
  | Some v => Ok v
  | None => Raise AttributeError
  end.

Section objectives.

Context {Agent TimeSlice : Type}.
Context {external : External Agent TimeSlice}.

(** [coords_hours] is the coordinate [represent_hours] of the search
    space, when it has one. *)
Definition capacity_to_service_demand (agent : Agent) (demand : DataArray Q)
    (search_space : DataArray bool) (coords_hours : option (DataArray Q))
    (technologies : Technologies) (market : Market TimeSlice)
  : result (DataArray num) :=
  selected <- getitems ["utilization_factor"; "fixed_outputs"]
                       (data_vars technologies) ;;
  replacement <- coord search_space "replacement" ;;
  let params :=
    filter_dataset agent selected
                   {| year := Some (agent_year agent);
                      region := Some (agent_region agent);
                      technology := Some replacement |} in
  let hours :=
    match represent_hours market with
    | Some hours => hours
    | None =>
        match coords_hours with
        | Some hours => hours
        | None => timeslice_hours (timeslice market)
        end
    end in
  longest <- max_all hours ;;
  let max_hours := fdiv (Fin longest) (Fin (sum_all hours)) in
  fixed_outputs <- getattr params "fixed_outputs" ;;
  commodity <- coord demand "commodity" ;;
  commodity_output <- sel "commodity" commodity fixed_outputs ;;
  let produced := amap (fun q => Qgtb q 0) commodity_output in
  demanded <- where_ demand produced 0 ;;
  output <- where_ commodity_output produced 1 ;;
  let needed := binop (fun d o => fdiv (Fin d) (Fin o)) demanded output in
  over_commodities <- max_ "commodity" needed ;;
  max_demand <- max_ "timeslice" over_commodities ;;
  utilization_factor <- getattr params "utilization_factor" ;;
  Ok (amap (fun x => fdiv x max_hours)
           (binop (fun m u => fdiv m (Fin u)) max_demand utilization_factor)).

(** In [capacity_in_use] the last branch of the choice of the hours reads
    the local variable [hours], which has no value yet. *)
Definition capacity_in_use (agent : Agent) (demand : DataArray Q)
    (search_space : DataArray bool) (coords_hours : option (DataArray Q))
    (technologies : Technologies) (market : Market TimeSlice)
  : outcome (DataArray num) :=
  hours <~
    match represent_hours market with
    | Some hours => Returns hours
    | None =>
        match coords_hours with
        | Some hours => Returns hours
        | None => Raises UnboundLocalError
        end
    end ;;
  utilization_factor <~ lift (getattr (data_vars technologies) "utilization_factor") ;;
  replacement <~ lift (coord search_space "replacement") ;;
  let ufac :=
    filter_input agent utilization_factor
                 {| year := Some (agent_year agent);
                    region := None;
                    technology := Some replacement |} in
  commodity <~ lift (coord demand "commodity") ;;
  usage <~ lift (sel "commodity" commodity (comm_usage technologies)) ;;
  let enduses := is_enduse usage in
  served <~ lift (sel_mask "commodity" enduses demand) ;;
  served <~ lift (sum_ "commodity" served) ;;
  let per_hour := binop (fun d h => fdiv (Fin d) (Fin h)) served hours in
  total <~ lift (reduce nansum "timeslice" per_hour) ;;
  Returns (binop (fun x u => fdiv x (Fin u))
                 (amap (fun x => fmul x (Fin (sum_all hours))) total)
                 ufac).

(** [technical_life] and [interest_rate] are the variables of the dataset
    that [filter_input] returned. *)
Definition capital_recovery_factor (agent : Agent) (search_space : DataArray bool)
    (technologies : Technologies) : result (DataArray num) :=
  selected <- getitems ["technical_life"; "interest_rate"] (data_vars technologies) ;;
  replacement <- coord search_space "replacement" ;;
  let tech :=
    filter_dataset agent selected
                   {| year := Some (agent_year agent);
                      region := None;
                      technology := Some replacement |} in
  technical_life <- getattr tech "technical_life" ;;
  let nyears := amap astype_int technical_life in
  interest_rate <- getattr tech "interest_rate" ;;
  interest_rate' <- getattr tech "interest_rate" ;;
  Ok (binop (fun i d => fdiv (Fin i) d)
            interest_rate
            (amap (fun p => fsub (Fin 1) (fdiv (Fin 1) p))
                  (binop fpow (amap (Qplus 1) interest_rate') nyears))).

(** [mask / (1 + interest_rate) ** years]; a boolean mask counts as 0 or
    1, and the default mask is the number 1. *)
Definition discount_factor (years : DataArray Z) (interest_rate : DataArray Q)
    (mask : DataArray Q) : DataArray num :=
  binop (fun m p => fdiv (Fin m) p) mask
        (binop fpow (amap (Qplus 1) interest_rate) years).

End objectives.

(** *** The levelized cost of energy *)

Section lcoe.

(** What [Agent.filter_input] returns is tested for its class. *)
Variables Agent Technologies Prices Kwargs DatasetT ArrayT : Type.

Inductive Filtered : Type :=
| IsDataset (d : DatasetT)
| IsDataArray (a : ArrayT)
| Neither.

Definition isinstance_Dataset (x : Filtered) : bool :=
  match x with IsDataset _ => true | _ => false end.

Definition isinstance_DataArray (x : Filtered) : bool :=
  match x with IsDataArray _ => true | _ => false end.

(** The calls of [Agent.filter_input] and of
    [muse.quantities.lifetime_levelized_cost_of_energy]. *)
Variable year_of : Agent -> Z.
Variable filter_technologies : Agent -> Technologies -> list string -> outcome Filtered.
Variable filter_prices : Agent -> Prices -> outcome Filtered.
Variable lifetimeLCOE : Filtered -> Filtered -> Z -> Kwargs -> outcome (DataArray num).

Definition lifetime_levelized_cost_of_energy (agent : Agent)
    (search_space : DataArray bool) (technologies : Technologies)
    (prices : Prices) (kwargs : Kwargs) : outcome (DataArray num) :=
  replacement <~ lift (coord search_space "replacement") ;;
  labels <~ lift (values replacement) ;;
  techs <~ filter_technologies agent technologies labels ;;
  _ <~ lift (assert (isinstance_Dataset techs)) ;;
  prices <~ filter_prices agent prices ;;
  _ <~ lift (assert (isinstance_DataArray techs)) ;;
  lcoe <~ lifetimeLCOE prices techs (year_of agent) kwargs ;;
  lift (rename "replacement" "technology" lcoe).

End lcoe.

Arguments IsDataset {DatasetT ArrayT} d.
Arguments IsDataArray {DatasetT ArrayT} a.
Arguments Neither {DatasetT ArrayT}.
Arguments lifetime_levelized_cost_of_energy
  {Agent Technologies Prices Kwargs DatasetT ArrayT}
  year_of filter_technologies filter_prices lifetimeLCOE
  agent search_space technologies prices kwargs.

End ObjectiveValues.

(** ** The objectives of the settings ([muse.objectives.factory]) *)

Module ObjectiveFactory.
Import XArray.

Section factory.

(** The values of the keyword arguments, what an objective takes beside
    the search space and what it returns, and the dataset of the results
    with its two operations: [Dataset(coords=search_space.coords)] and
    [result[name] = array]. *)
Variables Value Agent Demand Args Array Dataset : Type.
Variable with_coords : DataArray bool -> Dataset.
Variable setitem : Dataset -> string -> Array -> Dataset.

Definition Kwargs : Type := SearchSpace.Kwargs Value.

(** A registered objective, with the keyword arguments of the settings
    first: [partial(OBJECTIVES[name], **kwargs)]. *)
Definition Objective : Type :=
  Kwargs -> Agent -> Demand -> DataArray bool -> Args -> result Array.

(** The registry; what [register_objective] puts in it is decided where
    the objectives are defined. *)
Variable OBJECTIVES : list (string * Objective).

(** The settings: left out, one name or mapping, or a sequence of them. *)
Inductive Settings : Type :=
| Default
| One (s : SearchSpace.Setting Value)
| Many (l : list (SearchSpace.Setting Value)).

Definition params_of (settings : Settings) : list (SearchSpace.Mapping Value) :=
  match settings with
  | Default => [SearchSpace.parameter Value (SearchSpace.Text "fixed_costs")]
  | One s => [SearchSpace.parameter Value s]
  | Many l => map (SearchSpace.parameter Value) l
  end.

(** [param["name"] for param in params] *)
Fixpoint names_of (params : list (SearchSpace.Mapping Value)) : result (list string) :=
  match params with
  | [] => Ok []
  | param :: r =>
      n <- SearchSpace.name_of Value param ;;
      rest <- names_of r ;;
      Ok (n :: rest)
  end.

(** [len(set(names))] *)
Definition distinct (names : list string) : nat :=
  List.length (nodup string_dec names).

Definition named_twice : string :=
  "The same objective is named twice. The result may be undefined if parameters differ.".

Fixpoint functions_of (params : list (SearchSpace.Mapping Value))
  : result (list (string * (Agent -> Demand -> DataArray bool -> Args -> result Array))) :=
  match params with
  | [] => Ok []
  | param :: r =>
      n <- SearchSpace.name_of Value param ;;
      objective <- DemandShare.dict_get String.eqb n OBJECTIVES ;;
      rest <- functions_of r ;;
      Ok ((n, objective (SearchSpace.kwargs param)) :: rest)
  end.

(** The loop of [objectives] over the functions. *)
Fixpoint fill
    (functions : list (string * (Agent -> Demand -> DataArray bool -> Args
                                 -> result Array)))
    (agent : Agent) (demand : Demand) (search_space : DataArray bool)
    (args : Args) (result_ : Dataset) : result Dataset :=
  match functions with
  | [] => Ok result_
  | (name, objective) :: r =>
      array <- objective agent demand search_space args ;;
      fill r agent demand search_space args (setitem result_ name array)
  end.

(** [factory]: the function computing the objectives, and what was
    logged on the way. *)
Definition factory (settings : Settings) (log : Objectives.Log)
  : result (Agent -> Demand -> DataArray bool -> Args -> result Dataset)
    * Objectives.Log :=
  let params := params_of settings in
  match names_of params with
  | Raise e => (Raise e, log)
  | Ok names =>
      let log :=
        if negb (Nat.eqb (distinct names) (List.length params))
        then (log ++ [("muse.objectives", Objectives.CRITICAL, named_twice)])%list
        else log in
      match functions_of params with
      | Raise e => (Raise e, log)
      | Ok functions =>
          (Ok (fun agent demand search_space args =>
                 fill functions agent demand search_space args
                      (with_coords search_space)),
           log)
      end
  end.

End factory.

Arguments Default {Value}.
Arguments One {Value} s.
Arguments Many {Value} l.
Arguments params_of {Value} settings.
Arguments names_of {Value} params.
Arguments functions_of {Value Agent Demand Args Array} OBJECTIVES params.
Arguments fill {Agent Demand Args Array Dataset} setitem functions.
Arguments factory {Value Agent Demand Args Array Dataset}
  with_coords setitem OBJECTIVES settings log.

End ObjectiveFactory.

(** * Inputs of the examples *)

Module Examples.
Import XArray Num.

(** *** Filters *)

Module F.
Import Filters.

(** The arrays of the examples are already those of the agent's region and
    year, and the commodities are end-uses: the two functions have nothing
    left to select. *)
#[export] Instance external : External := {|
  filter_input := fun A _ x _ _ => x;
  is_enduse := amap (fun usage => Z.eqb (Z.land usage 6) 2)
|}.

Definition agent (threshold : Q) : Agent :=
  {| year := 2020; region := "R1"; tolerance := None;
     maturity_threshhold := threshold |}.

Definition by_technology {A} (techs : list string) (f : string -> A) : DataArray A :=
  mkDA [("technology", techs)] (fun ix => f (ix "technology")).

(** Technologies that each produce one unit of heat per unit of capacity. *)
Definition heaters (techs : list string) : Technologies :=
  {| fixed_outputs :=
       mkDA [("technology", techs); ("commodity", ["heat"])] (fun _ => 1);
     comm_usage := mkDA [("commodity", ["heat"])] (fun _ => 2%Z);
     tech_type := by_technology techs (fun _ => "heater");
     fuel := by_technology techs (fun t => t) |}.

(** Every replacement in [replacements] is allowed for every asset. *)
Definition all_allowed (assets replacements : list string) : DataArray bool :=
  mkDA [("asset", assets); ("replacement", replacements)] (fun _ => true).

(** One gas boiler of capacity 1 makes up the market. *)
Definition gas_only : Market := {| capacity := by_technology ["gas"] (fun _ => 1) |}.

(** Gas and wind, with a capacity of 10 each. *)
Definition gas_and_wind : Market :=
  {| capacity := by_technology ["gas"; "wind"] (fun _ => 10) |}.

(** Gas with a capacity of 10 and wind with a capacity of 1. *)
Definition gas_and_little_wind : Market :=
  {| capacity :=
       by_technology ["gas"; "wind"]
                     (fun t => if String.eqb t "gas" then 10 else 1) |}.

(** Of gas and wind, only gas may replace the gas asset. *)
Definition gas_for_gas : DataArray bool :=
  mkDA [("asset", ["gas"]); ("replacement", ["gas"; "wind"])]
       (fun ix => String.eqb (ix "replacement") "gas").

(** The entry of a three-dimensional result. *)
Definition entry (a r t : string) : Index :=
  upd (upd (upd ix0 "asset" a) "replacement" r) "technology" t.

End F.

(** *** The chain of filters *)

Module P.
Import Filters SearchSpace F.

(** The technologies of the dataset are those of its fixed outputs. *)
Definition technology (t : Technologies) : list string :=
  match lookup "technology" (dims (fixed_outputs t)) with
  | Some ls => ls
  | None => []
  end.

(** Registries with the initializer and three of the filters, which take
    no keyword argument. *)
Definition initializers : list (string * Initializer unit) :=
  [("initialize_from_technologies",
    fun _ agent demand technologies _ =>
      initialize_from_technologies technology agent demand technologies)].

Definition filters : list (string * Filter unit) :=
  [("all", fun _ agent search_space _ _ => identity agent search_space);
   ("currently_referenced_tech", fun _ => currently_referenced_tech);
   ("existing", fun _ => currently_existing_tech)].

(** The filters of the module, under the names that their decorators
    give them. *)
Definition registered_filters : list (string * Filter unit) :=
  [("same_enduse",
    fun _ agent search_space technologies _ =>
      same_enduse agent search_space technologies);
   ("all", fun _ agent search_space _ _ => identity agent search_space);
   ("similar",
    fun _ agent search_space technologies _ =>
      similar_technology agent search_space technologies);
   ("fueltype",
    fun _ agent search_space technologies _ =>
      same_fuels agent search_space technologies);
   ("existing", fun _ => currently_existing_tech);
   ("currently_referenced_tech", fun _ => currently_referenced_tech);
   ("maturity", fun _ => maturity);
   ("compress", fun _ => compress);
   ("with_asset_technology", fun _ => with_asset_technology)].

(** The demand for heat of a gas and of a coal asset. *)
Definition demand (gas coal : Q) : DataArray Q :=
  mkDA [("asset", ["gas"; "coal"]); ("commodity", ["heat"])]
       (fun ix => if String.eqb (ix "asset") "gas" then gas else coal).

(** The search space of the settings, for the demand and the market. *)
Definition search (settings : Settings unit) (demand : DataArray Q)
    (market : Market) : result (DataArray bool) :=
  chain <- factory unit initializers filters settings ;;
  chain (agent (1 # 2)) demand (heaters ["gas"; "wind"]) market.

End P.

(** *** Demand share *)

Module D.
Import DemandShare.

Definition cell : Index :=
  upd (upd (upd ix0 "asset" "gas") "commodity" "heat") "timeslice" "day".

(** The capacity of an agent that owns one asset, constant over the years. *)
Definition one_asset (tech region_ : string) (q : Q) : Assets :=
  {| data := mkDA [("asset", [tech]); ("commodity", ["heat"]); ("timeslice", ["day"])]
                  (fun _ => q);
     coords := [("technology", AlongAsset (fun a => a));
                ("region", AlongAsset (fun _ => region_))] |}.

Definition add_assets (x y : Assets) : Assets :=
  {| data := binop Qplus (data x) (data y); coords := coords x |}.

Definition sum_assets (l : list Assets) : Assets :=
  match l with
  | [] => {| data := mkDA [] (fun _ => 0); coords := [] |}
  | x :: r => fold_left add_assets r x
  end.

(** A market of one region, one commodity and one timeslice, described by
    the consumption of heat, the same in every year; an asset produces one
    unit of heat per unit of capacity, and all of it is decommissioned
    within the forecast. *)
#[export] Instance external : External Q unit unit := {|
  year_min := fun _ => 2020%Z;
  market_interp := fun m _ => m;
  market_sel_year := fun m _ => m;
  consumption := fun m =>
    mkDA [("region", ["R1"]); ("commodity", ["heat"]); ("timeslice", ["day"])]
         (fun _ => m);
  timeslice := fun _ => tt;
  comm_usage := fun _ => mkDA [("commodity", ["heat"])] (fun _ => 2%Z);
  tech_sel_region := fun t _ => t;
  is_enduse := amap (fun usage => Z.eqb (Z.land usage 6) 2);
  reduce_assets := sum_assets;
  convert_timeslice := fun c _ => c;
  interp_year := fun c _ => c;
  interp_years := fun c _ => c;
  sel_year := fun c _ => c;
  squeeze_year := fun c => c;
  decommissioning_demand := fun _ c _ => c;
  maximum_production := fun _ c _ => c;
  prod_factory := fun _ _ c _ => c
|}.

Definition agent (id name_ category_ : string) (q : Q) : AgentBase :=
  {| uuid := id; name := name_; region := "R1"; category := category_;
     quantity := None; assets_capacity := one_asset "gas" "R1" q |}.

(** A demand of [q] for heat by day. *)
Definition heat (q : Q) : DataArray Q :=
  mkDA [("commodity", ["heat"]); ("timeslice", ["day"])] (fun _ => q).

(** A retrofit agent "A" of capacity [q], and the new agent of its name. *)
Definition pair_of_agents (q : Q) : list AgentBase :=
  [agent "r" "A" "retrofit" q; agent "n" "A" "new" 0].


Definition run (agents : list AgentBase) (consumed : Q)
  : result (list (string * DataArray num)) :=
  new_and_retro agents consumed tt (ByName "maximum_production") None 5.

(** [new_and_retro] as a registered function: its keyword arguments
    are years. *)
Definition registered (agents : list AgentBase) (consumed : Q) (technologies : unit)
    (keywords : list (string * Z)) : result (list (string * DataArray num)) :=
  new_and_retro agents consumed technologies (ByName "maximum_production")
    (match dict_get String.eqb "current_year" keywords with
     | Ok y => Some y
     | Raise _ => None
     end)
    (match dict_get String.eqb "forecast" keywords with
     | Ok f => f
     | Raise _ => 5%Z
     end).

(** The demand of the one cell of the market, new and retrofit together. *)
Definition demand_at (demands : result Demands) : option Q :=
  match demands with
  | Ok d =>
      let at_ := upd cell "region" "R1" in
      Some (val (new d) at_ + val (retrofit d) at_)
  | Raise _ => None
  end.

(** The agents that get a share, with the coordinates of their shares. *)
Definition shapes (shares : result (list (string * DataArray num)))
  : option (list (string * Dims)) :=
  match shares with
  | Ok l => Some (map (fun us : string * DataArray num => (fst us, dims (snd us))) l)
  | Raise _ => None
  end.

(** The value of an agent's share at the one cell of the market. *)
Definition share_at (uuid : string) (shares : result (list (string * DataArray num)))
  : option num :=
  match shares with
  | Ok l => option_map (fun x => val x cell) (lookup uuid l)
  | Raise _ => None
  end.

End D.

(** *** The cache of outputs *)

Module K.
Import Py Cache.

(** Arrays are numbers; a sink returns the year and what it was given. *)
Definition sink : Sink Q (Z * list Q) := fun cached year => Returns (year, cached).

Definition _factory : list (string * unit) -> Setting unit
                      -> outcome (Sink Q (Z * list Q)) :=
  fun _ _ => Returns sink.

Definition OUTPUT_QUANTITIES : list (string * unit) :=
  [("capacity", tt); ("production", tt); ("lcoe", tt)].

Definition selected (quantities : list string) : list (Setting unit) :=
  map (fun q => Mapping (Some q) tt) quantities.

(** A cache of the capacity and of the production, with what it holds of
    the capacity. *)
Definition holding (cached : list Q) : OutputCache Q (Z * list Q) :=
  {| to_save := [("capacity", cached); ("production", [])];
     factory := [("capacity", sink); ("production", sink)];
     topic := CACHE_TOPIC_CHANNEL |}.

(** A function that returns the array [a]. *)
Definition constant (a : Q) : unit -> outcome (Data Q) :=
  fun _ => Returns (DataArray a).

End K.

(** *** The values of the objectives *)

Module V.
Import Py ObjectiveValues.

(** The agent is of no account; the datasets are already those of its
    year and region, on the replacements of the search space. *)
#[export] Instance external : External unit unit := {|
  agent_year := fun _ => 2020%Z;
  agent_region := fun _ => "R1";
  filter_input := fun _ x _ => x;
  filter_dataset := fun _ d _ => d;
  is_enduse := amap (fun usage => Z.eqb (Z.land usage 6) 2);
  timeslice_hours := fun _ => mkDA [("timeslice", ["day"; "night"])] (fun _ => 12)
|}.

Definition per_replacement (q : Q) : DataArray Q :=
  mkDA [("replacement", ["gas"])] (fun _ => q).

(** A gas boiler that gives one unit of heat per unit of capacity, is
    used half of the time and lasts two years, at an interest of 10%. *)
Definition boiler : Technologies :=
  {| data_vars :=
       [("utilization_factor", per_replacement (1 # 2));
        ("fixed_outputs",
         mkDA [("replacement", ["gas"]); ("commodity", ["heat"])] (fun _ => 1));
        ("technical_life", per_replacement 2);
        ("interest_rate", per_replacement (1 # 10))];
     comm_usage := mkDA [("commodity", ["heat"])] (fun _ => 2%Z) |}.

(** A demand for heat of 3 by day and of 1 by night. *)
Definition demand : DataArray Q :=
  mkDA [("asset", ["gas"]); ("commodity", ["heat"]); ("timeslice", ["day"; "night"])]
       (fun ix => if String.eqb (ix "timeslice") "day" then 3 else 1).

Definition search_space : DataArray bool :=
  mkDA [("asset", ["gas"]); ("replacement", ["gas"])] (fun _ => true).

Definition market : Market unit := {| represent_hours := None; timeslice := tt |}.

(** The years 1 and 2. *)
Definition years : DataArray Z :=
  mkDA [("year", ["1"; "2"])]
       (fun ix => if String.eqb (ix "year") "1" then 1%Z else 2%Z).

Definition year (k : nat) : Index :=
  upd ix0 "year" (if Nat.eqb k 1 then "1" else "2").

Definition always : DataArray Q := mkDA [] (fun _ => 1).

End V.

(** *** Objectives *)

Module O.
Import Objectives.

(** The demand of two assets, one number per asset. *)
Definition demand (coal : Q) : Demand Q := [("gas", 1); ("coal", coal)].

Definition search_space : DataArray bool :=
  mkDA [("asset", ["gas"]); ("replacement", ["gas"; "wind"])] (fun _ => true).

(** An objective that returns the total of the demand it is given, as an
    array of the given dtype and dimensions. *)
Definition total_demand (t : dtype) (ds cs : list string)
  : Objective unit unit Q Q :=
  {| function := fun _ demand _ _ =>
       Ok {| values_dtype := t; dims := ds; coords := cs; name := None;
             values := Qsum (map snd demand) |};
     __name__ := "total_demand";
     __module__ := "muse.objectives" |}.

End O.

(** *** Sector *)

Module S.
Import Sector.

(** Agents whose assets are a number; the market is its first year. *)
Definition agent (id : string) (f : option Z) : AgentBase.t Q :=
  {| AgentBase.uuid := id; AgentBase.name := id; AgentBase.category := "retrofit";
     AgentBase.forecast := f; AgentBase.year := Some 2020%Z;
     AgentBase.assets := 1 |}.

Definition sector (agents_ : list (AgentBase.t Q)) : Sector Q unit Z :=
  {| name := "power"; agents := agents_;
     demand_share := fun _ _ _ _ _ => Ok [] |}.

(** An investment pipeline that fails whenever it is run. *)
Definition no_invest : AgentBase.t Q -> unit -> Z -> DataArray num -> Z -> result Q :=
  fun _ _ _ _ _ => Raise RuntimeError.

Definition year_min : Z -> Z := fun y => y.

(** A share with no asset, and a share of one entry. *)
Definition empty_share : DataArray num := mkDA [("asset", [])] (fun _ => Fin 0).
Definition share_of (v : Q) : DataArray num := mkDA [("asset", ["gas"])] (fun _ => Fin v).

End S.

(** *** The objectives of the settings *)

Module G.
Import ObjectiveFactory.

(** Two registered objectives over numbers: one returns the demand, the
    other the demand scaled by its keyword arguments. *)
Definition OBJECTIVES : list (string * Objective Q unit Q unit Q) :=
  [("fixed_costs", fun _ _ demand _ _ => Ok demand);
   ("scaled", fun kwargs _ demand _ _ => Ok (Qsum (map snd kwargs) * demand))].

Definition scaled (by_ : Q) : SearchSpace.Setting Q :=
  SearchSpace.Map {| SearchSpace.name := Some "scaled";
                     SearchSpace.kwargs := [("factor", by_)] |}.

End G.

(** *** The loop of the investments *)

Module I.
Import Sector.

(** Two agents: the share of the first is empty, the second has a share
    of 5 and doubles its assets when it invests. *)
Definition sector : Sector Q unit Z :=
  {| name := "power";
     agents := [S.agent "a" None; S.agent "b" (Some 3%Z)];
     demand_share := fun _ _ _ _ _ =>
       Ok [("a", S.empty_share); ("b", S.share_of 5)] |}.

Definition invest : AgentBase.t Q -> unit -> Z -> DataArray num -> Z -> result Q :=
  fun agent _ _ _ _ => Ok (2 * AgentBase.assets agent).

Definition investment :=
  Sector.investment Q unit Z Q S.year_min (fun y => (y + 5)%Z) Qsum
                    (fun c _ => c) (fun c => c) (fun m _ => m) invest.



End I.

End Examples.

(** * Properties *)

(** ** Exceptions, numbers and arrays *)

Lemma bind_Ok {A B} (m : result A) (k : A -> result B) (b : B) :
  bind m k = Ok b -> exists a, m = Ok a /\ k a = Ok b.
Proof. destruct m as [a|e]; simpl; intros H; [eauto | discriminate]. Qed.

Lemma returned {A} (m : result A) : is_ok m = true -> {a | m = Ok a}.
Proof. destruct m as [a|e]; [exists a; reflexivity | discriminate]. Qed.

Ltac inv_bind H :=
  let a := fresh "x" in
  let Ha := fresh "Hx" in
  apply bind_Ok in H; destruct H as (a & Ha & H).

Tactic Notation "bind_inv" hyp(H) "as" ident(a) ident(Ha) :=
  apply bind_Ok in H; destruct H as (a & Ha & H).

Module NumFacts.
Import Num.

Lemma Qgtb_true x y : Qgtb x y = true <-> y < x.
Proof.
  unfold Qgtb. rewrite negb_true_iff.
  split; intros H.
  - apply Qnot_le_lt. intros Hle. apply Qle_bool_iff in Hle. congruence.
  - destruct (Qle_bool x y) eqn:E; [|reflexivity].
    apply Qle_bool_iff in E. exfalso. lra.
Qed.

Lemma Qgtb_false x y : Qgtb x y = false <-> x <= y.
Proof. unfold Qgtb. rewrite negb_false_iff. apply Qle_bool_iff. Qed.

Lemma Qltb_true x y : Qltb x y = true <-> x < y.
Proof. unfold Qltb. apply (Qgtb_true y x). Qed.

Lemma Qltb_false x y : Qltb x y = false <-> y <= x.
Proof. unfold Qltb. apply (Qgtb_false y x). Qed.

Lemma sgn_Eq q : sgn q = Eq <-> q == 0.
Proof. unfold sgn. symmetry. apply Qeq_alt. Qed.

Lemma sgn_Lt q : sgn q = Lt <-> q < 0.
Proof. unfold sgn. symmetry. apply Qlt_alt. Qed.

Lemma sgn_Gt q : sgn q = Gt <-> 0 < q.
Proof. unfold sgn. symmetry. apply Qgt_alt. Qed.

Lemma clip_min_max m x : XArray.clip_min m x == Qmax x m.
Proof.
  unfold XArray.clip_min. destruct (Qltb x m) eqn:E.
  - apply Qltb_true in E. symmetry. apply Q.max_r. lra.
  - apply Qltb_false in E. symmetry. apply Q.max_l. exact E.
Qed.

Lemma fillna_not_nan v x : is_nan (fillna v x) = false.
Proof. destruct x; reflexivity. Qed.

End NumFacts.

Module XArrayFacts.
Import XArray.

Lemma mem_In l ls : mem l ls = true <-> In l ls.
Proof.
  unfold mem. rewrite existsb_exists. split.
  - intros (x & Hx & E). apply String.eqb_eq in E. subst. exact Hx.
  - intros H. exists l. split; [exact H | apply String.eqb_refl].
Qed.

Lemma filter_mem_self ls : filter (fun l => mem l ls) ls = ls.
Proof.
  assert (G : forall l', incl l' ls -> filter (fun l => mem l ls) l' = l').
  { induction l' as [|a l' IH]; intros Hi; simpl; [reflexivity|].
    assert (Ha : mem a ls = true) by (apply mem_In, Hi; left; reflexivity).
    rewrite Ha. f_equal. apply IH. intros x Hx. apply Hi. right. exact Hx. }
  apply G, incl_refl.
Qed.

Lemma lookup_In {V} k (l : list (string * V)) v :
  lookup k l = Some v -> In (k, v) l.
Proof.
  induction l as [|[k' v'] l IH]; simpl; [discriminate|].
  destruct (String.eqb k k') eqn:E.
  - apply String.eqb_eq in E. subst. intros [= ->]. left. reflexivity.
  - intros H. right. apply IH, H.
Qed.

Lemma lookup_None {V} k (l : list (string * V)) :
  lookup k l = None <-> ~ In k (map fst l).
Proof.
  induction l as [|[k' v'] l IH]; simpl.
  - split; [intros _ [] | reflexivity].
  - destruct (String.eqb k k') eqn:E.
    + apply String.eqb_eq in E. subst. split; [discriminate|].
      intros H. exfalso. apply H. left. reflexivity.
    + apply String.eqb_neq in E. rewrite IH. split.
      * intros H [H1|H1]; [congruence | tauto].
      * intros H H1. apply H. right. exact H1.
Qed.

Lemma has_dim_In d ds : has_dim d ds = true <-> In d (map fst ds).
Proof.
  unfold has_dim. destruct (lookup d ds) eqn:E.
  - split; [intros _ | reflexivity].
    apply lookup_In in E. apply (in_map fst) in E. exact E.
  - apply lookup_None in E. split; [discriminate | tauto].
Qed.

Lemma upd_same ix d l : upd ix d l d = l.
Proof. unfold upd. rewrite String.eqb_refl. reflexivity. Qed.

Lemma upd_other ix d l d' : d <> d' -> upd ix d l d' = ix d'.
Proof. unfold upd. intros H. apply String.eqb_neq in H. rewrite H. reflexivity. Qed.

End XArrayFacts.

(** ** The sector: forecast horizon and investment loop *)

Module SectorFacts.
Import XArray Num Sector.

Section sector.

Variables Assets Technologies Market : Type.
Variable year_min : Market -> Z.
Variable invest :
  AgentBase.t Assets -> Technologies -> Market -> DataArray num -> Z
  -> result Assets.

Implicit Types self : Sector Assets Technologies Market.
Implicit Types agent : AgentBase.t Assets.

Lemma py_max_ge x l : (x <= py_max x l)%Z.
Proof.
  unfold py_max. revert x. induction l as [|y l IH]; intros x; simpl; [lia|].
  specialize (IH (Z.max x y)). lia.
Qed.

Lemma py_max_upper x l y : In y (x :: l) -> (y <= py_max x l)%Z.
Proof.
  unfold py_max. revert x. induction l as [|z l IH]; intros x [E|H]; simpl in *.
  - subst. lia.
  - contradiction.
  - subst. pose proof (py_max_ge (Z.max y z) l) as G. unfold py_max in G. lia.
  - destruct H as [E|H].
    + subst. pose proof (py_max_ge (Z.max x y) l) as G. unfold py_max in G. lia.
    + apply IH. right. exact H.
Qed.

Lemma py_max_In x l : In (py_max x l) (x :: l).
Proof.
  unfold py_max. revert x. induction l as [|z l IH]; intros x; simpl.
  - left. reflexivity.
  - destruct (IH (Z.max x z)) as [E|H].
    + rewrite <- E. destruct (Z.max_spec x z) as [[_ ->]|[_ ->]]; auto.
    + right. right. exact H.
Qed.

Lemma forecasts_In self f :
  In f (forecasts self) <->
  exists agent, In agent (agents self) /\ AgentBase.forecast agent = Some f.
Proof.
  unfold forecasts. rewrite in_flat_map. split.
  - intros (a & Ha & Hf). exists a. split; [exact Ha|].
    destruct (AgentBase.forecast a); simpl in Hf; [|contradiction].
    destruct Hf as [->|[]]. reflexivity.
  - intros (a & Ha & Hf). exists a. split; [exact Ha|].
    rewrite Hf. left. reflexivity.
Qed.

(** C10. The forecast horizon of a sector is 5 when no agent has a
    [forecast] attribute; otherwise it is the largest of the agents'
    forecasts, raised to 1 when that is smaller.  It is at least 1 in both
    cases. *)
Theorem forecast_horizon self :
  ((forall agent, In agent (agents self) -> AgentBase.forecast agent = None) ->
   forecast self = 5%Z)
  /\ ((exists agent, In agent (agents self) /\ AgentBase.forecast agent <> None) ->
      exists m,
        (exists agent, In agent (agents self) /\ AgentBase.forecast agent = Some m)
        /\ (forall agent f, In agent (agents self) ->
                            AgentBase.forecast agent = Some f -> (f <= m)%Z)
        /\ forecast self = Z.max 1 m)
  /\ (1 <= forecast self)%Z.
Proof.
  unfold forecast. repeat split.
  - intros Hnone. destruct (forecasts self) as [|f r] eqn:E; [reflexivity|].
    assert (Hf : In f (forecasts self)) by (rewrite E; left; reflexivity).
    apply forecasts_In in Hf. destruct Hf as (a & Ha & Hf).
    rewrite (Hnone a Ha) in Hf. discriminate.
  - intros (a & Ha & Hsome).
    destruct (AgentBase.forecast a) as [fa|] eqn:Efa; [|congruence].
    assert (Hin : In fa (forecasts self)) by (apply forecasts_In; eauto).
    destruct (forecasts self) as [|f r] eqn:E; [contradiction|].
    exists (py_max f r). repeat split.
    + apply forecasts_In. rewrite E. apply py_max_In.
    + intros b fb Hb Hfb. apply py_max_upper. rewrite <- E.
      apply forecasts_In. eauto.
  - destruct (forecasts self); lia.
Qed.


End sector.

End SectorFacts.

(** ** The wrapper of the objectives *)

Module ObjectivesFacts.
Import XArray XArrayFacts Objectives.

Section objectives.

Variables Agent Args Row Values : Type.

Implicit Types f : Objective Agent Args Row Values.
Implicit Types demand : Demand Row.
Implicit Types search_space : DataArray bool.

(** The values of a coordinate are its labels. *)
Lemma coord_values {A} (x : DataArray A) d ls :
  lookup d (XArray.dims x) = Some ls ->
  (c <- coord x d ;; XArray.values c) = Ok ls.
Proof.
  intros H. unfold coord, XArray.values. rewrite H. simpl. f_equal.
  rewrite <- (map_id ls) at 2. apply map_ext. intros l. apply upd_same.
Qed.

Lemma coord_values_Raise {A} (x : DataArray A) d :
  lookup d (XArray.dims x) = None ->
  (c <- coord x d ;; XArray.values c) = Raise AttributeError.
Proof. intros H. unfold coord. rewrite H. reflexivity. Qed.

Lemma reduce_demand_sel demand search_space la :
  lookup "asset" (XArray.dims search_space) = Some la ->
  reduce_demand demand search_space = sel_asset la demand.
Proof.
  intros H. unfold reduce_demand.
  pose proof (coord_values search_space "asset" la H) as G.
  destruct (coord search_space "asset") as [c|e]; simpl in *.
  - rewrite G. reflexivity.
  - discriminate.
Qed.

Lemma sel_asset_keys labels demand reduced :
  sel_asset labels demand = Ok reduced -> map fst reduced = labels.
Proof.
  revert reduced. induction labels as [|a r IH]; simpl; intros reduced H.
  - injection H as <-. reflexivity.
  - destruct (lookup a demand) as [row|]; [|discriminate].
    inv_bind H. injection H as <-. simpl. f_equal. apply IH, Hx.
Qed.

Lemma sel_asset_rows labels demand reduced a row :
  sel_asset labels demand = Ok reduced ->
  In (a, row) reduced -> In a labels /\ lookup a demand = Some row.
Proof.
  revert reduced. induction labels as [|b r IH]; simpl; intros reduced H Hin.
  - injection H as <-. contradiction.
  - destruct (lookup b demand) as [row'|] eqn:E; [|discriminate].
    inv_bind H. injection H as <-. destruct Hin as [Hin|Hin].
    + injection Hin as -> ->. split; [left; reflexivity | exact E].
    + destruct (IH _ Hx Hin) as [H1 H2]. split; [right; exact H1 | exact H2].
Qed.

Lemma sel_asset_agree labels demand demand' :
  (forall a, In a labels -> lookup a demand = lookup a demand') ->
  sel_asset labels demand = sel_asset labels demand'.
Proof.
  induction labels as [|a r IH]; simpl; intros H; [reflexivity|].
  rewrite <- (H a (or_introl eq_refl)).
  rewrite IH; [reflexivity|]. intros b Hb. apply H. right. exact Hb.
Qed.

Lemma issuperset_incl big small :
  issuperset big small = true <-> incl small big.
Proof.
  unfold issuperset. rewrite forallb_forall. split.
  - intros H d Hd. apply mem_In, H, Hd.
  - intros H d Hd. apply mem_In, H, Hd.
Qed.

Lemma mem_false l ls : mem l ls = false <-> ~ In l ls.
Proof.
  rewrite <- mem_In. destruct (mem l ls); split; congruence.
Qed.

(** C5. Once the objective has returned an array, the wrapper raises when
    the dimensions of the array are not among [asset] and [replacement],
    or when the array has a dimension or a coordinate [technology]; a
    dtype that is neither a number nor a boolean only adds a warning to
    the log, and the array is returned when the other checks pass. *)
Theorem register_objective_contract
    f agent demand search_space args log reduced_demand returned :
  reduce_demand demand search_space = Ok reduced_demand ->
  function f agent reduced_demand search_space args = Ok returned ->
  let dtype := values_dtype returned in
  let warning :=
    (__module__ f, WARNING,
     "dtype of objective " ++ __name__ f
     ++ " is not a number (" ++ dtype_name dtype ++ ")") in
  let log' :=
    if is_number dtype || is_bool dtype then log else (log ++ [warning])%list in
  (~ incl (dims returned) ["replacement"; "asset"]
   \/ In "technology" (dims returned) \/ In "technology" (coords returned) ->
   decorated f agent demand search_space args log = (Raise RuntimeError, log'))
  /\ (incl (dims returned) ["replacement"; "asset"] ->
      ~ In "technology" (coords returned) ->
      decorated f agent demand search_space args log
      = (Ok (set_name (__name__ f) returned), log')).
Proof.
  intros Hred Hcall dtype warning log'.
  unfold decorated. rewrite Hred. simpl. rewrite Hcall.
  unfold check_result. fold dtype.
  assert (Hlog :
    (if negb (is_number dtype || is_bool dtype)
     then (log ++ [warning])%list else log) = log').
  { unfold log'. destruct (is_number dtype || is_bool dtype); reflexivity. }
  unfold warning in Hlog. rewrite Hlog. clear Hlog.
  destruct (issuperset ["replacement"; "asset"] (dims returned)) eqn:Esup; simpl.
  - apply issuperset_incl in Esup.
    assert (Htech : mem "technology" (dims returned) = false).
    { apply mem_false. intros Hin. apply Esup in Hin.
      destruct Hin as [E|[E|[]]]; discriminate. }
    rewrite Htech. split.
    + intros [H|[H|H]].
      * contradiction.
      * apply mem_In in H. congruence.
      * apply mem_In in H. rewrite H. reflexivity.
    + intros _ H. apply mem_false in H. rewrite H. reflexivity.
  - split.
    + intros _. reflexivity.
    + intros H. apply issuperset_incl in H. congruence.
Qed.

(** C9. The objective is called with the demand of the assets of the
    search space, in the order of [search_space.asset], and of them only:
    changing the demand of any other asset changes neither the result nor
    the log of the wrapped objective. *)
Theorem objective_demand_is_restricted f agent demand search_space args log :
  (forall reduced_demand,
     reduce_demand demand search_space = Ok reduced_demand ->
     lookup "asset" (XArray.dims search_space) = Some (map fst reduced_demand)
     /\ (forall a row, In (a, row) reduced_demand -> lookup a demand = Some row)
     /\ decorated f agent demand search_space args log
        = match function f agent reduced_demand search_space args with
          | Ok returned => check_result f returned log
          | Raise e => (Raise e, log)
          end)
  /\ (forall demand',
        (forall la a, lookup "asset" (XArray.dims search_space) = Some la ->
                      In a la -> lookup a demand = lookup a demand') ->
        decorated f agent demand search_space args log
        = decorated f agent demand' search_space args log).
Proof.
  split.
  - intros reduced Hred. repeat split.
    + destruct (lookup "asset" (XArray.dims search_space)) as [la|] eqn:E.
      * rewrite (reduce_demand_sel _ _ la E) in Hred.
        apply sel_asset_keys in Hred. rewrite Hred. reflexivity.
      * unfold reduce_demand, coord in Hred. rewrite E in Hred. discriminate.
    + intros a row Hin.
      destruct (lookup "asset" (XArray.dims search_space)) as [la|] eqn:E.
      * rewrite (reduce_demand_sel _ _ la E) in Hred.
        apply (sel_asset_rows _ _ _ _ _ Hred Hin).
      * unfold reduce_demand, coord in Hred. rewrite E in Hred. discriminate.
    + unfold decorated. rewrite Hred. reflexivity.
  - intros demand' Hagree. unfold decorated.
    destruct (lookup "asset" (XArray.dims search_space)) as [la|] eqn:E.
    + rewrite !(reduce_demand_sel _ _ la E).
      rewrite (sel_asset_agree la demand demand'); [reflexivity|].
      intros a Ha. apply (Hagree la a eq_refl Ha).
    + unfold reduce_demand, coord. rewrite E. reflexivity.
Qed.

End objectives.

End ObjectivesFacts.

(** ** The split of the demand between new and retrofit agents *)

Module SectorSplitFacts.
Import XArray XArrayFacts Num NumFacts DemandShare.

Lemma where_array_val {A} (x other : DataArray A) cond y :
  where_array x cond other = Ok y ->
  forall ix, val y ix = if val cond ix then val x ix else val other ix.
Proof.
  unfold where_array. intros H ix.
  inv_bind H. inv_bind H. injection H as <-. reflexivity.
Qed.

Lemma squeeze_val {A} d (x y : DataArray A) :
  squeeze d x = Ok y ->
  exists l, lookup d (dims x) = Some [l] /\ forall ix, val y ix = val x (upd ix d l).
Proof.
  unfold squeeze, sel_label. intros H.
  destruct (lookup d (dims x)) as [[|l [|l' ls]]|]; try discriminate.
  destruct (mem l [l]); [|discriminate].
  injection H as <-. exists l. split; reflexivity.
Qed.

Section split.

Context {Market Technologies TimeSlices : Type}.
Context {external : External Market Technologies TimeSlices}.

Lemma unmet_demand_max market capacity technologies production unmet :
  unmet_demand market capacity technologies production = Ok unmet ->
  exists prod,
    groupby_sum "region"
      (production_method_of production market capacity technologies) = Ok prod
    /\ forall ix,
        val unmet ix == Qmax (val (consumption market) ix - val prod ix) 0.
Proof.
  unfold unmet_demand. intros H. inv_bind H. injection H as <-.
  exists x. split; [exact Hx|]. intros ix. simpl. apply clip_min_max.
Qed.

Lemma new_consumption_min capacity market technologies production
    current_year forecast new_demand :
  new_consumption capacity market technologies production current_year forecast
  = Ok new_demand ->
  let y := match current_year with Some y => y | None => year_min market end in
  let smarket := market_interp market [y; (y + forecast)%Z] in
  let current := market_sel_year smarket y in
  let forecasted := market_sel_year smarket (y + forecast)%Z in
  exists missing,
    unmet_demand forecasted
                 (convert_timeslice (interp_year capacity y) (timeslice market))
                 technologies (ByName "maximum_production") = Ok missing
    /\ forall ix,
        val new_demand ix
        == Qmin (Qmax (val (consumption forecasted) ix
                       - val (consumption current) ix) 0)
                (val missing ix).
Proof.
  intros H y smarket current forecasted. unfold new_consumption in H.
  inv_bind H. exists x. split; [exact Hx|]. intros ix.
  rewrite (where_array_val _ _ _ _ H ix). simpl.
  fold y. fold smarket. fold current. fold forecasted.
  set (delta := clip_min 0 (val (consumption forecasted) ix
                            - val (consumption current) ix)).
  rewrite <- (clip_min_max 0). fold delta.
  destruct (Qltb delta (val x ix)) eqn:E.
  - apply Qltb_true in E. symmetry. apply Q.min_l. lra.
  - apply Qltb_false in E. symmetry. apply Q.min_r. exact E.
Qed.

(** C4. The unmet demand is [max(consumption - production, 0)] entry by
    entry; the new demand is the smaller of the growth of the consumption
    between the current and the forecast year, clipped at zero, and of the
    demand of the forecast year that the capacity of the current year
    leaves unmet; the retrofit demand is the consumption of the forecast
    year minus the new demand minus the production of the forecast year's
    capacity, clipped at zero. *)
Theorem sector_level_split capacity market technologies production
    current_year forecast demands :
  new_and_retro_demands capacity market technologies production
                        current_year forecast = Ok demands ->
  let y := match current_year with Some y => y | None => year_min market end in
  let smarket := market_interp market [y; (y + forecast)%Z] in
  let current := market_sel_year smarket y in
  let forecasted := market_sel_year smarket (y + forecast)%Z in
  let ts_capa :=
    region_per_asset
      (convert_timeslice (interp_years capacity [y; (y + forecast)%Z])
                         (timeslice market)) in
  let current_capa :=
    convert_timeslice (interp_year ts_capa y) (timeslice smarket) in
  let forecast_capa := sel_year ts_capa (y + forecast)%Z in
  exists produced missing new_demand service retro_demand,
    (* unmet demand of the forecast year with the current capacity *)
    groupby_sum "region"
      (prod_factory "maximum_production"
                    (market_sel_year
                       (market_interp smarket [y; (y + forecast)%Z])
                       (y + forecast)%Z)
                    current_capa technologies) = Ok produced
    /\ (forall ix,
          val missing ix
          == Qmax (val (consumption
                          (market_sel_year
                             (market_interp smarket [y; (y + forecast)%Z])
                             (y + forecast)%Z)) ix
                   - val produced ix) 0)
    (* new demand *)
    /\ (forall ix,
          val new_demand ix
          == Qmin (Qmax (val (consumption
                                (market_sel_year
                                   (market_interp smarket [y; (y + forecast)%Z])
                                   (y + forecast)%Z)) ix
                         - val (consumption
                                  (market_sel_year
                                     (market_interp smarket [y; (y + forecast)%Z])
                                     y)) ix) 0)
                  (val missing ix))
    /\ (if has_dim "year" (dims new_demand)
        then squeeze "year" new_demand else Ok new_demand) = Ok (new demands)
    (* retrofit demand *)
    /\ groupby_sum "region"
         (production_method_of production forecasted forecast_capa technologies)
       = Ok service
    /\ (forall ix,
          val retro_demand ix
          == Qmax (val (consumption forecasted) ix - val (new demands) ix
                   - val service ix) 0)
    /\ (if has_dim "year" (dims retro_demand)
        then squeeze "year" retro_demand else Ok retro_demand)
       = Ok (retrofit demands).
Proof.
  intros H y smarket current forecasted ts_capa current_capa forecast_capa.
  unfold new_and_retro_demands in H.
  fold y in H. fold smarket in H. fold ts_capa in H.
  inv_bind H. rename x into n, Hx into Hn.
  inv_bind H. rename x into n', Hx into Hn'.
  inv_bind H. rename x into service, Hx into Hservice.
  inv_bind H. rename x into r', Hx into Hr'.
  injection H as <-. simpl.
  destruct (new_consumption_min _ _ _ _ _ _ _ Hn) as (missing & Hmissing & Hmin).
  simpl in Hmissing, Hmin.
  destruct (unmet_demand_max _ _ _ _ _ Hmissing) as (produced & Hprod & Hmax).
  simpl in Hprod.
  exists produced, missing, n, service.
  exists (amap (clip_min 0)
               (binop Qminus (binop Qminus (consumption forecasted) n') service)).
  repeat split.
  - exact Hprod.
  - exact Hmax.
  - exact Hmin.
  - exact Hn'.
  - exact Hservice.
  - intros ix. simpl. apply clip_min_max.
  - exact Hr'.
Qed.

End split.

End SectorSplitFacts.

(** ** The search-space filters *)

Module FiltersFacts.
Import XArray XArrayFacts Num NumFacts Filters.

Lemma ntrue_app l l' : ntrue (l ++ l') = (ntrue l + ntrue l')%nat.
Proof. unfold ntrue. rewrite filter_app, List.length_app. reflexivity. Qed.

Lemma filter_none {A} (f : A -> bool) l :
  (forall x, In x l -> f x = false) -> filter f l = [].
Proof.
  induction l as [|a l IH]; intros H; simpl; [reflexivity|].
  rewrite (H a (or_introl eq_refl)). apply IH. intros x Hx. apply H. right. exact Hx.
Qed.

Lemma filter_all {A} (l : list A) : filter (fun _ => true) l = l.
Proof. induction l as [|a l IH]; simpl; [reflexivity | f_equal; exact IH]. Qed.

(** Fewer labels and smaller values give fewer [True] entries. *)
Lemma entries_over_le ds ds' (f g : Index -> bool) :
  narrows ds ds' ->
  (forall ix, g ix = true -> f ix = true) ->
  forall ix, (ntrue (entries_over ds' g ix) <= ntrue (entries_over ds f ix))%nat.
Proof.
  intros Hn Hfg.
  induction Hn as [|[d ls] [d' ls'] r r' [Hd [keep Hk]] Hr IH]; intros ix.
  - simpl. unfold ntrue. simpl. destruct (g ix) eqn:E.
    + rewrite (Hfg _ E). simpl. lia.
    + destruct (f ix); simpl; lia.
  - simpl in Hd, Hk. subst d' ls'. simpl.
    induction ls as [|l ls IHls]; simpl; [lia|].
    destruct (keep l); simpl; rewrite ?ntrue_app;
      specialize (IH (upd ix d l)); lia.
Qed.

Lemma narrows_refl ds : narrows ds ds.
Proof.
  induction ds as [|[d ls] r IH]; constructor; [|exact IH].
  split; [reflexivity|]. exists (fun _ => true). simpl. symmetry. apply filter_all.
Qed.

Lemma narrows_names ds ds' : narrows ds ds' -> map fst ds' = map fst ds.
Proof.
  induction 1 as [|dl dl' r r' [Hd _] _ IH]; simpl; [reflexivity|].
  rewrite Hd, IH. reflexivity.
Qed.

Lemma join_dims_narrows dx dy :
  incl (map fst dy) (map fst dx) -> narrows dx (join_dims dx dy).
Proof.
  intros Hi. unfold join_dims.
  rewrite (filter_none _ dy), app_nil_r.
  - clear Hi. induction dx as [|[d ls] r IH]; simpl; constructor; [|exact IH].
    destruct (lookup d dy) as [ls'|]; simpl.
    + split; [reflexivity|]. eexists. reflexivity.
    + split; [reflexivity|]. exists (fun _ => true). symmetry. apply filter_all.
  - intros dl Hdl. apply negb_false_iff, has_dim_In, Hi, in_map, Hdl.
Qed.

Lemma names_join dx dy n :
  In n (map fst (join_dims dx dy)) -> In n (map fst dx) \/ In n (map fst dy).
Proof.
  unfold join_dims. rewrite map_app, in_app_iff. intros [H|H].
  - left. rewrite map_map in H. apply in_map_iff in H.
    destruct H as ([d ls] & E & Hin). apply in_map_iff. exists (d, ls).
    split; [|exact Hin]. destruct (lookup d dy); exact E.
  - right. apply in_map_iff in H. destruct H as (dl & E & Hin).
    apply filter_In in Hin. apply in_map_iff. exists dl. tauto.
Qed.

Lemma names_rename old new ds n :
  In n (map fst (rename_dim old new ds)) ->
  n = new \/ (n <> old /\ In n (map fst ds)).
Proof.
  unfold rename_dim. rewrite map_map. intros H. apply in_map_iff in H.
  destruct H as ([d ls] & E & Hin). simpl in E.
  destruct (String.eqb old d) eqn:Eo; simpl in E.
  - left. congruence.
  - right. subst n. apply String.eqb_neq in Eo. split; [congruence|].
    apply in_map_iff. exists (d, ls). split; [reflexivity | exact Hin].
Qed.

Lemma names_replace d new ds n :
  In n (map fst (replace_dim d new ds)) ->
  n = fst new \/ (n <> d /\ In n (map fst ds)).
Proof.
  unfold replace_dim. rewrite map_map. intros H. apply in_map_iff in H.
  destruct H as ([d' ls] & E & Hin). simpl in E.
  destruct (String.eqb d d') eqn:Eo; simpl in E.
  - left. congruence.
  - right. subst n. apply String.eqb_neq in Eo. split; [congruence|].
    apply in_map_iff. exists (d', ls). split; [reflexivity | exact Hin].
Qed.

Lemma names_remove d ds n :
  In n (map fst (remove_dim d ds)) -> n <> d /\ In n (map fst ds).
Proof.
  unfold remove_dim. intros H. apply in_map_iff in H.
  destruct H as ([d' ls] & E & Hin). simpl in E. subst d'.
  apply filter_In in Hin. destruct Hin as [Hin Hne]. simpl in Hne.
  apply negb_true_iff, String.eqb_neq in Hne. split; [congruence|].
  apply in_map_iff. exists (n, ls). split; [reflexivity | exact Hin].
Qed.

Lemma reduce_dims {A B} (op : list A -> B) d x y :
  reduce op d x = Ok y -> dims y = remove_dim d (dims x).
Proof.
  unfold reduce. destruct (lookup d (dims x)); [|discriminate].
  intros [= <-]. reflexivity.
Qed.

Lemma rename_dims {A} old new (x y : DataArray A) :
  rename old new x = Ok y -> dims y = rename_dim old new (dims x).
Proof.
  unfold rename. destruct (has_dim old (dims x)); [|discriminate].
  intros [= <-]. reflexivity.
Qed.

Lemma coord_dims {A} (x : DataArray A) d c :
  coord x d = Ok c ->
  exists ls, lookup d (dims x) = Some ls /\ c = mkDA [(d, ls)] (fun ix => ix d).
Proof.
  unfold coord. destruct (lookup d (dims x)) as [ls|]; [|discriminate].
  intros [= <-]. exists ls. split; reflexivity.
Qed.

Lemma sel_dims {A} d (indexer : DataArray string) (x y : DataArray A) :
  sel d indexer x = Ok y ->
  exists d' ls', dims indexer = [(d', ls')]
                 /\ dims y = replace_dim d (d', ls') (dims x).
Proof.
  unfold sel. destruct (lookup d (dims x)); [|discriminate].
  destruct (dims indexer) as [|[d' ls'] [|? ?]]; try discriminate.
  destruct (negb (String.eqb d d') && has_dim d' (dims x)); [discriminate|].
  destruct (forallb _ ls'); [|discriminate].
  intros [= <-]. exists d', ls'. split; reflexivity.
Qed.

(** A search space has the two dimensions [asset] and [replacement]. *)
Lemma search_space_dims ss :
  is_search_space ss ->
  exists la lr, dims ss = [("asset", la); ("replacement", lr)].
Proof.
  unfold is_search_space. destruct (dims ss) as [|[a la] [|[r lr] [|? ?]]];
    simpl; try discriminate.
  intros [= -> ->]. exists la, lr. reflexivity.
Qed.

(** The conjunction of a search space with a mask over its own dimensions
    narrows it. *)
Lemma and_mask_narrowed ss mask :
  is_search_space ss ->
  dims_among ["asset"; "replacement"] mask ->
  narrowed ss (binop andb ss mask).
Proof.
  intros Hss Hm.
  assert (Hn : narrows (dims ss) (dims (binop andb ss mask))).
  { simpl. apply join_dims_narrows. unfold is_search_space in Hss.
    rewrite Hss. exact Hm. }
  assert (Hv : forall ix, val (binop andb ss mask) ix = true -> val ss ix = true).
  { intros ix H. simpl in H. apply andb_true_iff in H. tauto. }
  repeat split.
  - exact Hn.
  - exact Hv.
  - unfold count_true, entries. apply entries_over_le; assumption.
Qed.

Lemma narrowed_search_space ss out :
  is_search_space ss -> narrowed ss out -> is_search_space out.
Proof.
  unfold is_search_space. intros Hss (Hn & _). apply narrows_names in Hn. congruence.
Qed.

Lemma narrowed_intro ss out :
  narrows (dims ss) (dims out) ->
  (forall ix, val out ix = true -> val ss ix = true) ->
  narrowed ss out.
Proof.
  intros Hn Hv. repeat split; try assumption.
  unfold count_true, entries. apply entries_over_le; assumption.
Qed.

Lemma forallb_mem_self ls : forallb (fun l => mem l ls) ls = true.
Proof. apply forallb_forall. intros l Hl. apply mem_In, Hl. Qed.

Lemma existsb_map {A B} (f : A -> B) (p : B -> bool) l :
  existsb p (map f l) = existsb (fun a => p (f a)) l.
Proof. induction l as [|a l IH]; simpl; [reflexivity | rewrite IH; reflexivity]. Qed.

Ltac among :=
  repeat match goal with
         | H : _ /\ _ |- _ => destruct H
         | H : _ \/ _ |- _ => destruct H
         | H : In _ (map fst (join_dims _ _)) |- _ => apply names_join in H
         | H : In _ (map fst (rename_dim _ _ _)) |- _ => apply names_rename in H
         | H : In _ (map fst (replace_dim _ _ _)) |- _ => apply names_replace in H
         | H : In _ (map fst (remove_dim _ _)) |- _ => apply names_remove in H
         | H : In _ (_ :: _) |- _ => destruct H
         | H : In _ [] |- _ => destruct H
         | H : In ?n (map fst (dims ?x)), G : dims_among _ ?x |- _ => apply G in H
         end;
  simpl in *; subst; try congruence; try tauto.

Section filters.

Context {external : External}.

Implicit Types ss out : DataArray bool.

(** X1. same_enduse narrows a search space: when the enduse outputs lie on
    technology and commodity, the result has the dimensions asset and
    replacement with a selection of the labels, no entry is turned True
    and the number of True entries does not grow. *)
Lemma same_enduse_narrowed agent ss technologies out :
  is_search_space ss ->
  dims_among ["technology"; "commodity"]
    (filter_input Q agent (fixed_outputs technologies) (Some (year agent))
                  (Some (is_enduse (comm_usage technologies)))) ->
  same_enduse agent ss technologies = Ok out ->
  narrowed ss out.
Proof.
  intros Hss Hfo H. unfold same_enduse in H.
  bind_inv H as te Hte. bind_inv H as asset Hasset.
  bind_inv H as ae Hae. bind_inv H as covers Hcovers. injection H as <-.
  apply and_mask_narrowed; [exact Hss|].
  apply rename_dims in Hte. simpl in Hte.
  apply coord_dims in Hasset. destruct Hasset as (la & _ & ->).
  apply sel_dims in Hae. destruct Hae as (d' & ls' & E & Hae).
  injection E as <- <-.
  apply reduce_dims in Hcovers. simpl in Hcovers.
  unfold dims_among. rewrite Hcovers, Hae, Hte. intros n Hn. among.
Qed.

Lemma typed_mask_dims (kind : DataArray string) ss asset replacement x y :
  dims_among ["technology"] kind ->
  coord ss "asset" = Ok asset ->
  sel "technology" asset kind = Ok x ->
  coord ss "replacement" = Ok replacement ->
  sel "technology" replacement kind = Ok y ->
  dims_among ["asset"; "replacement"] (binop String.eqb x y).
Proof.
  intros Hk Hasset Hx Hrepl Hy.
  apply coord_dims in Hasset. destruct Hasset as (la & _ & ->).
  apply coord_dims in Hrepl. destruct Hrepl as (lr & _ & ->).
  apply sel_dims in Hx. destruct Hx as (d' & ls' & E & Hx). injection E as <- <-.
  apply sel_dims in Hy. destruct Hy as (d' & ls' & E & Hy). injection E as <- <-.
  unfold dims_among. simpl. rewrite Hx, Hy. intros n Hn. among.
Qed.

(** X2. similar_technology narrows a search space (no dimension or label
    added, no entry turned True, no more True entries) when the technology
    types lie on the technology dimension. *)
Lemma similar_technology_narrowed agent ss technologies out :
  is_search_space ss ->
  dims_among ["technology"]
    (filter_input string agent (tech_type technologies) None None) ->
  similar_technology agent ss technologies = Ok out ->
  narrowed ss out.
Proof.
  intros Hss Hk H. unfold similar_technology in H.
  bind_inv H as asset Hasset. bind_inv H as x Hx.
  bind_inv H as replacement Hrepl. bind_inv H as y Hy. injection H as <-.
  apply and_mask_narrowed; [exact Hss|].
  eapply typed_mask_dims; eassumption.
Qed.

(** X3. same_fuels narrows a search space (no dimension or label added, no
    entry turned True, no more True entries) when the fuels lie on the
    technology dimension. *)
Lemma same_fuels_narrowed agent ss technologies out :
  is_search_space ss ->
  dims_among ["technology"]
    (filter_input string agent (fuel technologies) None None) ->
  same_fuels agent ss technologies = Ok out ->
  narrowed ss out.
Proof.
  intros Hss Hk H. unfold same_fuels in H.
  bind_inv H as asset Hasset. bind_inv H as x Hx.
  bind_inv H as replacement Hrepl. bind_inv H as y Hy. injection H as <-.
  apply and_mask_narrowed; [exact Hss|].
  eapply typed_mask_dims; eassumption.
Qed.

Lemma isin_replacement_dims ss c test :
  coord ss "replacement" = Ok c ->
  dims_among ["asset"; "replacement"] (isin c test).
Proof.
  intros H. apply coord_dims in H. destruct H as (lr & _ & ->).
  unfold dims_among. simpl. intros n Hn. among.
Qed.

(** X4. currently_referenced_tech narrows a search space: no dimension or
    label added, no entry turned True, no more True entries. *)
Lemma currently_referenced_tech_narrowed agent ss technologies market out :
  is_search_space ss ->
  currently_referenced_tech agent ss technologies market = Ok out ->
  narrowed ss out.
Proof.
  intros Hss H. unfold currently_referenced_tech in H.
  bind_inv H as capacity Hcap. bind_inv H as c Hc.
  bind_inv H as cc Hcc. bind_inv H as labels Hlabels. injection H as <-.
  apply and_mask_narrowed; [exact Hss|].
  eapply isin_replacement_dims; eassumption.
Qed.

Lemma currently_existing_tech_narrowed agent ss technologies market out :
  is_search_space ss ->
  currently_existing_tech agent ss technologies market = Ok out ->
  narrowed ss out.
Proof.
  intros Hss H. unfold currently_existing_tech in H.
  bind_inv H as capacity Hcap. bind_inv H as c Hc.
  bind_inv H as cc Hcc. bind_inv H as labels Hlabels.
  bind_inv H as ss_labels Hss_labels. bind_inv H as both Hboth.
  bind_inv H as both_values Hbv. bind_inv H as selected Hsel.
  bind_inv H as existing Hex. bind_inv H as selected' Hsel'.
  destruct (and_mask_narrowed ss (isin c labels) Hss
              (isin_replacement_dims ss c labels Hc)) as (Hn & Hv & _).
  set (result := binop andb ss (isin c labels)) in *.
  unfold loc_set in H. destruct (lookup "replacement" (dims result)); [|discriminate].
  destruct (forallb _ both_values); [|discriminate].
  injection H as <-.
  unfold loc in Hsel. destruct (lookup "replacement" (dims result)); [|discriminate].
  destruct (forallb _ both_values); [|discriminate].
  injection Hsel as <-.
  unfold inplace in Hsel'. destruct (same_labels _ _); [|discriminate].
  injection Hsel' as <-.
  apply narrowed_intro.
  - exact Hn.
  - intros ix. simpl. intros Hix. apply Hv.
    destruct (mem (ix "replacement") both_values); [|exact Hix].
    apply andb_true_iff in Hix. tauto.
Qed.

(** The maturity filter turns no entry [True]. *)
Lemma maturity_pointwise agent ss technologies market out :
  maturity agent ss technologies market = Ok out ->
  forall ix, val out ix = true -> val ss ix = true.
Proof.
  intros H ix. unfold maturity in H.
  bind_inv H as production Hprod. bind_inv H as mature Hmature.
  injection H as <-. simpl. intros Hix. apply andb_true_iff in Hix. tauto.
Qed.

(** X7. with_asset_technology always succeeds on a search space and widens
    it: same coordinates, no entry turned False, no fewer True entries. *)
Lemma with_asset_technology_widened agent ss technologies market :
  is_search_space ss ->
  exists out,
    with_asset_technology agent ss technologies market = Ok out
    /\ widened ss out.
Proof.
  intros Hss. destruct (search_space_dims ss Hss) as (la & lr & Hd).
  unfold with_asset_technology, coord. rewrite Hd. simpl.
  eexists. split; [reflexivity|].
  assert (Hdims :
    dims (binop orb ss
                (binop String.eqb
                       (mkDA [("asset", la)] (fun ix : Index => ix "asset"))
                       (mkDA [("replacement", lr)]
                             (fun ix : Index => ix "replacement"))))
    = dims ss).
  { simpl. rewrite Hd. unfold join_dims. simpl. rewrite !filter_mem_self.
    reflexivity. }
  repeat split.
  - exact Hdims.
  - intros ix Hix. simpl. rewrite Hix. reflexivity.
  - unfold count_true, entries. rewrite Hdims. apply entries_over_le.
    + apply narrows_refl.
    + intros ix Hix. simpl. rewrite Hix. reflexivity.
Qed.

(** X8. compress always succeeds on a search space; it keeps the values
    and the assets, and keeps exactly the replacements that are True for
    at least one asset, in their order. *)
Lemma compress_columns agent ss technologies market :
  is_search_space ss ->
  exists out la lr,
    compress agent ss technologies market = Ok out
    /\ dims ss = [("asset", la); ("replacement", lr)]
    /\ val out = val ss
    /\ dims out
       = [("asset", la);
          ("replacement",
           filter (fun r =>
                     existsb (fun a =>
                                val ss (upd (upd ix0 "replacement" r) "asset" a))
                             la)
                  lr)].
Proof.
  intros Hss. destruct (search_space_dims ss Hss) as (la & lr & Hd).
  unfold compress, any_, reduce, sel_mask. rewrite Hd. simpl.
  rewrite forallb_mem_self. simpl.
  eexists. exists la, lr. split; [reflexivity|]. simpl.
  repeat split. f_equal. f_equal. f_equal.
  apply filter_ext. intros r.
  apply (existsb_map
           (fun a => val ss (upd (upd ix0 "replacement" r) "asset" a))
           (fun b : bool => b)).
Qed.

(** The entries of the result of the maturity filter, on the three
    dimensions that it has. *)
Lemma maturity_entries agent ss technologies market out :
  maturity agent ss technologies market = Ok out ->
  let capacity := filter_input Q agent (capacity market) (Some (year agent)) None in
  let outputs :=
    filter_input Q agent (fixed_outputs technologies) (Some (year agent))
                 (Some (is_enduse (comm_usage technologies))) in
  let produced := join_dims (dims capacity) (dims outputs) in
  exists techs commodities,
    lookup "technology" produced = Some techs
    /\ lookup "commodity"
              (join_dims (remove_dim "technology" produced) (dims capacity))
       = Some commodities
    /\ forall ix,
        val out ix = true <->
        val ss ix = true
        /\ forall c, In c commodities ->
             let at_ t := upd (upd ix "commodity" c) "technology" t in
             maturity_threshhold agent
             * Qsum (map (fun t => val capacity (at_ t) * val outputs (at_ t)) techs)
             <= val capacity (upd ix "commodity" c).
Proof.
  intros H capacity outputs produced. unfold maturity in H.
  fold capacity in H. fold outputs in H.
  bind_inv H as production Hprod. bind_inv H as mature Hmature.
  injection H as <-.
  unfold sum_, reduce in Hprod. simpl in Hprod. fold produced in Hprod.
  destruct (lookup "technology" produced) as [techs|] eqn:Et; [|discriminate].
  injection Hprod as <-.
  unfold all_, reduce in Hmature. simpl in Hmature.
  destruct (lookup "commodity" _) as [commodities|] eqn:Ec; [|discriminate].
  injection Hmature as <-.
  exists techs, commodities. repeat split; try reflexivity.
  - simpl in H. apply andb_true_iff in H. tauto.
  - simpl in H. apply andb_true_iff in H. destruct H as [_ H].
    intros c Hc at_. rewrite forallb_forall in H.
    apply Qle_bool_iff. apply H. apply in_map_iff. exists c. split; [reflexivity|exact Hc].
  - intros [Hss Hb]. simpl. rewrite Hss. simpl.
    apply forallb_forall. intros b Hin. apply in_map_iff in Hin.
    destruct Hin as (c & <- & Hc). apply Qle_bool_iff. apply (Hb c Hc).
Qed.

(** C6, amended. The entry of an asset and of a candidate replacement,
    read in the result at the technology of the replacement, is [True]
    exactly when it was [True] in the search space and, for every enduse
    commodity, the maturity threshold times the enduse production
    aggregated over the technologies of the market does not exceed the
    capacity of the candidate replacement. *)
Theorem maturity_keeps_mature agent ss technologies market out :
  maturity agent ss technologies market = Ok out ->
  let capacity := filter_input Q agent (capacity market) (Some (year agent)) None in
  let outputs :=
    filter_input Q agent (fixed_outputs technologies) (Some (year agent))
                 (Some (is_enduse (comm_usage technologies))) in
  let produced := join_dims (dims capacity) (dims outputs) in
  exists techs commodities,
    lookup "technology" produced = Some techs
    /\ lookup "commodity"
              (join_dims (remove_dim "technology" produced) (dims capacity))
       = Some commodities
    /\ forall ix,
        ix "technology" = ix "replacement" ->
        val out ix = true <->
        val ss ix = true
        /\ forall c, In c commodities ->
             let at_ t := upd (upd ix "commodity" c) "technology" t in
             maturity_threshhold agent
             * Qsum (map (fun t => val capacity (at_ t) * val outputs (at_ t)) techs)
             <= val capacity (at_ (ix "replacement")).
Proof.
  intros H capacity outputs produced.
  destruct (maturity_entries _ _ _ _ _ H) as (techs & commodities & Ht & Hc & Hiff).
  exists techs, commodities. split; [exact Ht|]. split; [exact Hc|].
  intros ix Hdiag. rewrite Hiff.
  assert (Hat : forall c,
             upd (upd ix "commodity" c) "technology" (ix "replacement")
             = upd ix "commodity" c).
  { intros c. apply functional_extensionality. intros d. unfold upd.
    destruct (String.eqb "technology" d) eqn:E; [|reflexivity].
    apply String.eqb_eq in E. subst d. rewrite <- Hdiag. reflexivity. }
  split; intros [Hss Hb]; (split; [exact Hss|]); intros c Hin; cbv zeta.
  - rewrite Hat. apply (Hb c Hin).
  - specialize (Hb c Hin). cbv zeta in Hb. rewrite Hat in Hb. exact Hb.
Qed.

End filters.

Import Examples.F.

(** C6: the bound that the code tests is not the one the specification
    words.  With one technology of capacity 1 that produces one unit of
    heat and a threshold of 1/2 the entry stays [True], as 1/2 * 1 <= 1,
    although the production, 1, exceeds capacity times threshold, 1/2. *)
Lemma maturity_bound_counterexample :
  exists out,
    maturity (agent (1 # 2)) (all_allowed ["gas"] ["gas"]) (heaters ["gas"]) gas_only
    = Ok out
    /\ valid (dims out) (entry "gas" "gas" "gas")
    /\ val out (entry "gas" "gas" "gas") = true
    /\ ~ spec_maturity_bound (capacity gas_only) (fixed_outputs (heaters ["gas"]))
                             (1 # 2) ["gas"] ["heat"] "gas"
    /\ ~ spec_maturity_bound_own (capacity gas_only) (fixed_outputs (heaters ["gas"]))
                                 (1 # 2) ["heat"] "gas".
Proof.
  eexists. split; [reflexivity|]. split; [|split; [reflexivity|split]].
  - intros d ls Hin. simpl in Hin.
    destruct Hin as [E|[E|[E|[]]]]; injection E as <- <-; left; reflexivity.
  - intros Hb. specialize (Hb "heat" (or_introl eq_refl)). vm_compute in Hb.
    apply Hb. reflexivity.
  - intros Hb. specialize (Hb "heat" (or_introl eq_refl)). vm_compute in Hb.
    apply Hb. reflexivity.
Qed.

(** C3 at the maturity filter. The mask of the filter lies on the
    [technology] dimension of the market capacity, which the search space
    does not have: the result is broadcast over it.  With two mature
    technologies, the one [True] entry of the search space becomes two. *)
Lemma maturity_count_grows :
  let ss := all_allowed ["gas"] ["gas"] in
  is_search_space ss
  /\ count_true ss = 1%nat
  /\ exists out,
      maturity (agent (1 # 10)) ss (heaters ["gas"; "wind"]) gas_and_wind = Ok out
      /\ map fst (dims out) = ["asset"; "replacement"; "technology"]
      /\ count_true out = 2%nat.
Proof.
  split; [reflexivity|]. split; [reflexivity|].
  eexists. split; [reflexivity|]. split; reflexivity.
Qed.

End FiltersFacts.

(** ** The split of a demand among agents *)

Module InnerSplitFacts.
Import XArray XArrayFacts Num NumFacts DemandShare.

Lemma map_values_length {A B} (f : A -> result B) d d' :
  map_values f d = Ok d' -> List.length d' = List.length d.
Proof.
  revert d'. induction d as [|[k a] r IH]; simpl; intros d' H.
  - injection H as <-. reflexivity.
  - bind_inv H as b Hb. bind_inv H as r' Hr'. injection H as <-.
    simpl. f_equal. apply IH, Hr'.
Qed.


Lemma where_val {A} (x : DataArray A) cond other y :
  where_ x cond other = Ok y ->
  forall ix, val y ix = if val cond ix then val x ix else other.
Proof.
  unfold where_. intros H ix. bind_inv H as ds Hds. injection H as <-. reflexivity.
Qed.

Lemma coord_labels {A} (x : DataArray A) d c labels :
  coord x d = Ok c -> values c = Ok labels -> lookup d (dims x) = Some labels.
Proof.
  unfold coord, values. destruct (lookup d (dims x)) as [ls|]; [|discriminate].
  intros [= <-]. simpl. intros [= <-]. f_equal.
  rewrite <- (map_id ls) at 1. apply map_ext. intros l. symmetry. apply upd_same.
Qed.

(** The shape of a successful split: the reference quantities, their sum
    over the agents, its total over the assets, and every entry of every
    share as the sum of the proportional and of the equal part. *)
Lemma inner_split_entries assets demand method split :
  _inner_split assets demand method = Ok split ->
  exists shares summed total labels,
    map_values (reference method) assets = Ok shares
    /\ py_sum (map snd shares) = PyArr summed
    /\ sum_ "asset" summed = Ok total
    /\ lookup "asset" (dims summed) = Some labels
    /\ Forall2
         (fun (us : string * DataArray Q) (ur : string * DataArray num) =>
            fst ur = fst us
            /\ forall ix,
                val (snd ur) ix
                = fadd (proportional (val (snd us) ix) (val total ix) (val demand ix))
                       (equal_part (val total ix) (val demand ix)
                                   (Z.of_nat (List.length assets)
                                    * Z.of_nat (List.length labels))))
         shares split.
Proof.
  unfold _inner_split. intros H.
  bind_inv H as shares Hshares. bind_inv H as summed Hsummed.
  bind_inv H as total Htotal. bind_inv H as summed' Hsummed'.
  bind_inv H as asset Hasset. bind_inv H as labels Hlabels.
  bind_inv H as unassigned Hun. injection H as <-.
  rewrite Hsummed in Hsummed'. injection Hsummed' as <-.
  exists shares, summed, total, labels.
  repeat split; try assumption.
  - destruct (py_sum (map snd shares)); simpl in Hsummed; congruence.
  - eapply coord_labels; eassumption.
  - rewrite <- (map_values_length _ _ _ Hshares).
    assert (Hu : forall ix,
               val unassigned ix
               = equal_part (val total ix) (val demand ix)
                            (Z.of_nat (List.length shares)
                             * Z.of_nat (List.length labels))).
    { intros ix. rewrite (where_val _ _ _ _ Hun ix). reflexivity. }
    clear Hun Hshares Hsummed.
    generalize dependent (Z.of_nat (List.length shares)). intros count Hu.
    induction shares as [|[u s] r IH]; simpl; constructor.
    + split; [reflexivity|]. intros ix. simpl. rewrite Hu. reflexivity.
    + exact IH.
Qed.

Lemma equal_part_trigger total demand count :
  tol < demand -> total <= tol ->
  equal_part total demand count = fdiv (Fin demand) (Fin (inject_Z count)).
Proof.
  intros Hd Ht. unfold equal_part.
  apply Qgtb_true in Hd. apply Qle_bool_iff in Ht. rewrite Hd, Ht. reflexivity.
Qed.

Lemma equal_part_other total demand count :
  ~ (tol < demand /\ total <= tol) -> equal_part total demand count = Fin 0.
Proof.
  intros H. unfold equal_part.
  destruct (Qgtb demand tol) eqn:Ed; [|reflexivity].
  destruct (Qle_bool total tol) eqn:Et; [|reflexivity].
  exfalso. apply H. split; [apply Qgtb_true, Ed | apply Qle_bool_iff, Et].
Qed.

Lemma sgn_inject_Z_pos z : (0 < z)%Z -> sgn (inject_Z z) = Gt.
Proof.
  intros H. apply sgn_Gt. unfold Qlt, inject_Z. simpl. lia.
Qed.

Lemma fdiv_count demand count :
  (0 < count)%Z ->
  fdiv (Fin demand) (Fin (inject_Z count)) = Fin (demand / inject_Z count).
Proof. intros H. simpl. rewrite (sgn_inject_Z_pos _ H). reflexivity. Qed.

Lemma quotient_zero_total share total :
  total == 0 ->
  is_nan (fillna 0 (fdiv (Fin share) (Fin total))) = false
  /\ (share == 0 -> fillna 0 (fdiv (Fin share) (Fin total)) = Fin 0).
Proof.
  intros Ht. split; [apply fillna_not_nan|].
  intros Hs. simpl. apply sgn_Eq in Ht. apply sgn_Eq in Hs.
  rewrite Ht, Hs. reflexivity.
Qed.


Lemma fsum_Fin {A} (f : A -> Q) (l : list A) :
  fsum (map (fun a => Fin (f a)) l) = Fin (Qsum (map f l)).
Proof.
  unfold fsum. induction l as [|a l IH]; simpl; [reflexivity|].
  rewrite IH. reflexivity.
Qed.

Lemma Qsum_scaled (l : list Q) (t d e : Q) :
  Qsum (map (fun s => s / t * d + e) l)
  == Qsum l / t * d + inject_Z (Z.of_nat (List.length l)) * e.
Proof.
  induction l as [|a l IH].
  - simpl. unfold Qdiv. ring.
  - change (Qsum (map (fun s => s / t * d + e) (a :: l)))
      with (a / t * d + e + Qsum (map (fun s => s / t * d + e) l)).
    rewrite IH. change (Qsum (a :: l)) with (a + Qsum l).
    change (List.length (a :: l)) with (S (List.length l)).
    rewrite Nat2Z.inj_succ. unfold Z.succ. rewrite inject_Z_plus.
    unfold Qdiv. ring.
Qed.

Lemma Qsum_const {A} (l : list A) (c : Q) :
  Qsum (map (fun _ => c) l) == inject_Z (Z.of_nat (List.length l)) * c.
Proof.
  induction l as [|a l IH].
  - simpl. ring.
  - change (Qsum (map (fun _ => c) (a :: l))) with (c + Qsum (map (fun _ => c) l)).
    rewrite IH. change (List.length (a :: l)) with (S (List.length l)).
    rewrite Nat2Z.inj_succ. unfold Z.succ. rewrite inject_Z_plus. ring.
Qed.

Lemma Qsum_nonneg (l : list Q) : Forall (fun s => 0 <= s) l -> 0 <= Qsum l.
Proof.
  induction 1 as [|a l Ha _ IH]; simpl; lra.
Qed.

Lemma Qsum_zero (l : list Q) :
  Forall (fun s => 0 <= s) l -> Qsum l == 0 -> Forall (fun s => s == 0) l.
Proof.
  induction 1 as [|a l Ha Hl IH]; simpl; intros H; constructor.
  - pose proof (Qsum_nonneg l Hl). lra.
  - apply IH. pose proof (Qsum_nonneg l Hl). lra.
Qed.

Lemma map_ext_Forall {A B} (P : A -> Prop) (f g : A -> B) l :
  Forall P l -> (forall a, P a -> f a = g a) -> map f l = map g l.
Proof.
  induction 1 as [|a l Ha _ IH]; intros H; simpl; [reflexivity|].
  rewrite (H a Ha), (IH H). reflexivity.
Qed.

(** Where the split conserves the demand. Let the reference quantities of
    a cell be non-negative and sum to [total].  The entries of the cell
    sum to the demand when the total exceeds 1e-12, and when it is zero
    and the demand exceeds 1e-12; they sum to zero when the total is zero
    and the demand at most 1e-12.  Nothing is said of a total between 0
    and 1e-12. *)
Lemma split_conserves_outside_band shares total demand :
  shares <> [] ->
  Forall (fun s => 0 <= s) shares ->
  Qsum shares == total ->
  exists q,
    fsum (cell_entries shares total demand) = Fin q
    /\ (tol < total -> q == demand)
    /\ (total == 0 -> tol < demand -> q == demand)
    /\ (total == 0 -> demand <= tol -> q == 0).
Proof.
  intros Hne Hpos Hsum. unfold cell_entries.
  set (count := Z.of_nat (List.length shares)).
  assert (Hcount : (0 < count)%Z).
  { unfold count. destruct shares; [congruence | simpl; lia]. }
  assert (Htol : 0 < tol) by reflexivity.
  destruct (Qlt_le_dec tol total) as [Hbig|Hsmall].
  - (* the total counts: proportional parts only *)
    assert (Hs : sgn total = Gt) by (apply sgn_Gt; lra).
    assert (He : equal_part total demand count = Fin 0).
    { apply equal_part_other. lra. }
    rewrite (map_ext _ (fun s => Fin (s / total * demand + 0))).
    + rewrite fsum_Fin. eexists. split; [reflexivity|]. repeat split.
      * intros _. rewrite Qsum_scaled, Hsum. field. lra.
      * intros H. lra.
      * intros H. lra.
    + intros s. rewrite He. unfold proportional. simpl. rewrite Hs. reflexivity.
  - destruct (Qeq_dec total 0) as [Hzero|Hnz].
    + (* no reference quantity at all *)
      assert (Hsum0 : Qsum shares == 0) by (rewrite Hsum; exact Hzero).
      pose proof (Qsum_zero shares Hpos Hsum0) as Hall.
      assert (Hp : forall s, s == 0 -> proportional s total demand = Fin (0 * demand)).
      { intros s Hs. unfold proportional.
        rewrite (proj2 (quotient_zero_total s total Hzero) Hs). reflexivity. }
      destruct (Qlt_le_dec tol demand) as [Hd|Hd].
      * rewrite (map_ext_Forall _ _
                   (fun _ => Fin (0 * demand + demand / inject_Z count)) _ Hall).
        -- rewrite fsum_Fin. eexists. split; [reflexivity|]. repeat split.
           ++ intros H. lra.
           ++ intros _ _. rewrite Qsum_const. fold count.
              assert (0 < inject_Z count).
              { unfold Qlt, inject_Z. simpl. lia. }
              field. lra.
           ++ intros _ H. lra.
        -- intros s Hs. rewrite (Hp s Hs).
           rewrite equal_part_trigger by lra.
           rewrite fdiv_count by exact Hcount. reflexivity.
      * rewrite (map_ext_Forall _ _ (fun _ => Fin (0 * demand + 0)) _ Hall).
        -- rewrite fsum_Fin. eexists. split; [reflexivity|]. repeat split.
           ++ intros H. lra.
           ++ intros _ H. lra.
           ++ intros _ _. rewrite Qsum_const. lra.
        -- intros s Hs. rewrite (Hp s Hs).
           rewrite equal_part_other by lra. reflexivity.
    + (* the band: nothing is claimed *)
      assert (Hs : sgn total <> Eq) by (rewrite sgn_Eq; exact Hnz).
      assert (Hf : exists q,
                 fsum (map (fun s =>
                              fadd (proportional s total demand)
                                   (equal_part total demand count)) shares)
                 = Fin q).
      { assert (He : exists e, equal_part total demand count = Fin e).
        { unfold equal_part. destruct (_ && _).
          - rewrite fdiv_count by exact Hcount. eexists. reflexivity.
          - eexists. reflexivity. }
        destruct He as (e & He). rewrite He.
        rewrite (map_ext _ (fun s => Fin (s / total * demand + e))).
        - rewrite fsum_Fin. eexists. reflexivity.
        - intros s. unfold proportional. simpl.
          destruct (sgn total); [congruence | reflexivity | reflexivity]. }
      destruct Hf as (q & Hq). exists q. split; [exact Hq|]. repeat split.
      * intros H. lra.
      * intros H. contradiction.
      * intros H. contradiction.
Qed.

End InnerSplitFacts.

(** ** Dictionaries *)

Module DictFacts.
Import DemandShare.

Section dict.

Context {K V : Type}.
Variable eqb : K -> K -> bool.
Hypothesis eqb_eq : forall x y, eqb x y = true <-> x = y.

Implicit Types d items : list (K * V).

Lemma eqb_refl k : eqb k k = true.
Proof. apply eqb_eq. reflexivity. Qed.

Lemma eqb_neq x y : eqb x y = false <-> x <> y.
Proof.
  rewrite <- eqb_eq. destruct (eqb x y); split; congruence.
Qed.

Lemma key_dec k d : {In k (map fst d)} + {~ In k (map fst d)}.
Proof.
  apply in_dec. intros x y. destruct (eqb x y) eqn:E.
  - left. apply eqb_eq, E.
  - right. apply eqb_neq, E.
Qed.

Lemma dict_set_present k v d :
  In k (map fst d) -> map fst (dict_set eqb k v d) = map fst d.
Proof.
  induction d as [|[k' v'] r IH]; simpl; intros H; [contradiction|].
  destruct (eqb k k') eqn:E; simpl; [reflexivity|].
  f_equal. apply IH. destruct H as [H|H]; [|exact H].
  apply eqb_neq in E. congruence.
Qed.

Lemma dict_set_fresh k v d :
  ~ In k (map fst d) -> dict_set eqb k v d = (d ++ [(k, v)])%list.
Proof.
  induction d as [|[k' v'] r IH]; simpl; intros H; [reflexivity|].
  destruct (eqb k k') eqn:E.
  - apply eqb_eq in E. subst. exfalso. apply H. left. reflexivity.
  - f_equal. apply IH. intros Hin. apply H. right. exact Hin.
Qed.



(** Items of distinct keys, none of them in the dictionary, are appended
    in order. *)
Lemma fold_put_fresh items d :
  NoDup (map fst items) ->
  (forall k, In k (map fst items) -> ~ In k (map fst d)) ->
  fold_left (put eqb) items d = (d ++ items)%list.
Proof.
  revert d. induction items as [|[k v] r IH]; intros d Hnd Hfresh; simpl.
  - rewrite app_nil_r. reflexivity.
  - simpl in Hnd. inversion Hnd as [|? ? Hk Hr]; subst.
    change (put eqb d (k, v)) with (dict_set eqb k v d).
    rewrite dict_set_fresh.
    + rewrite IH.
      * rewrite <- app_assoc. reflexivity.
      * exact Hr.
      * intros k' Hk' Hin. rewrite map_app, in_app_iff in Hin. simpl in Hin.
        destruct Hin as [Hin|[<-|[]]].
        -- apply (Hfresh k'); [right; exact Hk' | exact Hin].
        -- contradiction.
    + apply Hfresh. left. reflexivity.
Qed.


Lemma dict_of_distinct items :
  NoDup (map fst items) -> dict_of eqb items = items.
Proof.
  intros H. unfold dict_of. apply (fold_put_fresh items [] H). intros k _ [].
Qed.


Lemma dict_get_In k d v : dict_get eqb k d = Ok v -> In (k, v) d.
Proof.
  induction d as [|[k' v'] r IH]; simpl; [discriminate|].
  destruct (eqb k k') eqn:E.
  - apply eqb_eq in E. subst. intros [= ->]. left. reflexivity.
  - intros H. right. apply IH, H.
Qed.

Lemma dict_get_Raise k d e :
  dict_get eqb k d = Raise e -> e = KeyError /\ ~ In k (map fst d).
Proof.
  induction d as [|[k' v'] r IH]; simpl.
  - intros [= <-]. split; [reflexivity | intros []].
  - destruct (eqb k k') eqn:E; [discriminate|].
    intros H. destruct (IH H) as [He Hn]. split; [exact He|].
    apply eqb_neq in E. intros [H1|H1]; [congruence | contradiction].
Qed.

Lemma dict_get_distinct k v d :
  NoDup (map fst d) -> In (k, v) d -> dict_get eqb k d = Ok v.
Proof.
  induction d as [|[k' v'] r IH]; simpl; intros Hnd Hin; [contradiction|].
  inversion Hnd as [|? ? Hk Hr]; subst.
  destruct Hin as [[= -> ->]|Hin].
  - rewrite eqb_refl. reflexivity.
  - destruct (eqb k k') eqn:E.
    + apply eqb_eq in E. subst. exfalso. apply Hk.
      apply (in_map fst) in Hin. exact Hin.
    + apply IH; assumption.
Qed.

Lemma dict_get_set k v d : dict_get eqb k (dict_set eqb k v d) = Ok v.
Proof.
  induction d as [|[k' v'] r IH]; simpl.
  - rewrite eqb_refl. reflexivity.
  - destruct (eqb k k') eqn:E; simpl; rewrite E; [reflexivity | exact IH].
Qed.

Lemma dict_get_set_other k k' v d :
  k <> k' -> dict_get eqb k' (dict_set eqb k v d) = dict_get eqb k' d.
Proof.
  intros Hne. induction d as [|[k0 v0] r IH]; simpl.
  - assert (E : eqb k' k = false) by (apply eqb_neq; congruence).
    rewrite E. reflexivity.
  - destruct (eqb k k0) eqn:E; simpl.
    + apply eqb_eq in E. subst k0.
      assert (E' : eqb k' k = false) by (apply eqb_neq; congruence).
      rewrite E'. reflexivity.
    + destruct (eqb k' k0); [reflexivity | exact IH].
Qed.

End dict.


End DictFacts.

(** ** The pairing of new agents with retrofit agents *)

Module PairingFacts.
Import XArray XArrayFacts Num DemandShare DictFacts InnerSplitFacts.



Lemma inner_split_empty demand method :
  _inner_split [] demand method = Raise AttributeError.
Proof. reflexivity. Qed.







Section pairing.

Context {Market Technologies TimeSlices : Type}.
Context {external : External Market Technologies TimeSlices}.



End pairing.

End PairingFacts.

(** ** The properties at the inputs of the examples *)

Module AtExamples.
Import XArray Num.

(** The forecast of a sector without forecasts, and of one whose agents
    look 3 and 7 years ahead. *)
Lemma forecast_horizon_witness :
  Sector.forecast (Examples.S.sector [Examples.S.agent "a" None]) = 5%Z
  /\ exists m,
      Sector.forecast
        (Examples.S.sector
           [Examples.S.agent "a" (Some 3%Z); Examples.S.agent "b" None;
            Examples.S.agent "c" (Some 7%Z)])
      = Z.max 1 m
      /\ m = 7%Z.
Proof.
  split.
  - apply (SectorFacts.forecast_horizon Q unit Z).
    intros agent [<-|[]]. reflexivity.
  - destruct (proj1 (proj2 (SectorFacts.forecast_horizon Q unit Z
                (Examples.S.sector
                   [Examples.S.agent "a" (Some 3%Z); Examples.S.agent "b" None;
                    Examples.S.agent "c" (Some 7%Z)]))))
      as (m & _ & _ & Hm).
    + exists (Examples.S.agent "a" (Some 3%Z)). split.
      * left. reflexivity.
      * discriminate.
    + exists 7%Z. split; reflexivity.
Defined.

(** An objective that returns objects over [replacement] and
    [technology], and one that returns objects over [replacement]. *)
Lemma register_objective_contract_witness :
  fst (Objectives.decorated
         (Examples.O.total_demand Objectives.object_ ["replacement"; "technology"] [])
         tt (Examples.O.demand 2) Examples.O.search_space tt [])
  = Raise RuntimeError
  /\ exists returned warning,
      Objectives.decorated
        (Examples.O.total_demand Objectives.object_ ["replacement"] [])
        tt (Examples.O.demand 2) Examples.O.search_space tt []
      = (Ok returned, [warning]).
Proof.
  split.
  - rewrite (proj1 (ObjectivesFacts.register_objective_contract unit unit Q Q
              (Examples.O.total_demand Objectives.object_
                                       ["replacement"; "technology"] [])
              tt (Examples.O.demand 2) Examples.O.search_space tt []
              _ _ eq_refl eq_refl)).
    + reflexivity.
    + right. left. right. left. reflexivity.
  - eexists. eexists.
    rewrite (proj2 (ObjectivesFacts.register_objective_contract unit unit Q Q
              (Examples.O.total_demand Objectives.object_ ["replacement"] [])
              tt (Examples.O.demand 2) Examples.O.search_space tt []
              _ _ eq_refl eq_refl)).
    + reflexivity.
    + intros d [<-|[]]. left. reflexivity.
    + intros [].
Defined.

(** The demand of coal, which the search space does not hold, changes
    nothing. *)
Lemma objective_demand_is_restricted_witness :
  Objectives.decorated (Examples.O.total_demand Objectives.float64 ["replacement"] [])
                       tt (Examples.O.demand 2) Examples.O.search_space tt []
  = Objectives.decorated (Examples.O.total_demand Objectives.float64 ["replacement"] [])
                         tt (Examples.O.demand 5) Examples.O.search_space tt [].
Proof.
  apply (proj2 (ObjectivesFacts.objective_demand_is_restricted unit unit Q Q
                  (Examples.O.total_demand Objectives.float64 ["replacement"] [])
                  tt (Examples.O.demand 2) Examples.O.search_space tt [])).
  intros la a Hla Ha. injection Hla as <-. destruct Ha as [<-|[]]. reflexivity.
Defined.

Import DemandShare Examples.D.

(** C1 fails on the code. A retrofit agent owns one gas asset of capacity
    5e-13 and the market consumes one unit of heat: the retrofit demand is
    1 - 5e-13 and the new demand is 0.  The reference total, 5e-13, is
    positive, so that the proportional part hands the whole demand to the
    agent, and it is at most 1e-12, so that the equal part hands it out a
    second time: the shares sum to twice the demand. *)
Lemma demand_allocated_twice :
  let tiny := 1 # 2000000000000 in
  let agents := Examples.D.pair_of_agents tiny in
  exists demand retro new_,
    demand_at (new_and_retro_demands (reduce_assets (map assets_capacity agents))
                                     1 tt (ByName "maximum_production") None 5)
    = Some demand
    /\ shapes (run agents 1)
       = Some [("r", [("asset", ["gas"]); ("commodity", ["heat"]);
                      ("timeslice", ["day"])]);
               ("n", [("asset", ["gas"]); ("commodity", ["heat"]);
                      ("timeslice", ["day"])])]
    /\ share_at "r" (run agents 1) = Some (Fin retro)
    /\ share_at "n" (run agents 1) = Some (Fin new_)
    /\ demand == 1 - tiny
    /\ retro + new_ == 2 * demand
    /\ ~ Qabs (retro + new_ - demand) <= 1 # 10000000000.
Proof.
  intros tiny agents.
  eexists. eexists. eexists.
  split; [vm_compute; reflexivity|].
  split; [vm_compute; reflexivity|].
  split; [vm_compute; reflexivity|].
  split; [vm_compute; reflexivity|].
  split; [vm_compute; reflexivity|].
  split; [vm_compute; reflexivity|].
  vm_compute. intros H. apply H. reflexivity.
Qed.


(** The split of a consumption of 3 that an asset of capacity 1 serves. *)
Lemma sector_level_split_witness :
  exists demands service retro_demand,
    new_and_retro_demands (one_asset "gas" "R1" 1) 3 tt
                          (ByName "maximum_production") None 5 = Ok demands
    /\ groupby_sum "region" (one_asset "gas" "R1" 1) = Ok service
    /\ forall ix,
        val retro_demand ix
        == Qmax (val (consumption 3) ix - val (new demands) ix - val service ix) 0.
Proof.
  destruct (returned
              (new_and_retro_demands (one_asset "gas" "R1" 1) 3 tt
                                     (ByName "maximum_production") None 5))
    as [demands E]; [vm_compute; reflexivity|].
  destruct (SectorSplitFacts.sector_level_split _ _ _ _ _ _ _ E)
    as (produced & missing & new_demand & service & retro_demand
        & _ & _ & _ & _ & Hservice & Hretro & _).
  exists demands, service, retro_demand.
  split; [exact E|]. split; [exact Hservice | exact Hretro].
Defined.


Import Examples.F.

(** The market of gas, of capacity 10, and wind, of capacity 1, with a
    threshold of 1/2: the production is 11; gas is mature and wind is
    not. *)
Lemma maturity_keeps_mature_witness :
  exists out,
    Filters.maturity (Examples.F.agent (1 # 2)) (all_allowed ["gas"] ["gas"; "wind"])
                     (heaters ["gas"; "wind"]) gas_and_little_wind = Ok out
    /\ val out (entry "gas" "gas" "gas") = true
    /\ val out (entry "gas" "wind" "wind") = false.
Proof.
  destruct (returned
              (Filters.maturity (Examples.F.agent (1 # 2))
                                (all_allowed ["gas"] ["gas"; "wind"])
                                (heaters ["gas"; "wind"]) gas_and_little_wind))
    as [out E]; [vm_compute; reflexivity|].
  destruct (FiltersFacts.maturity_keeps_mature _ _ _ _ _ E)
    as (techs & commodities & Ht & Hc & Hiff).
  vm_compute in Ht. injection Ht as <-.
  vm_compute in Hc. injection Hc as <-.
  exists out. split; [exact E|]. split.
  - apply (Hiff (entry "gas" "gas" "gas") eq_refl). split; [reflexivity|].
    intros c [<-|[]]. vm_compute. discriminate.
  - destruct (val out (entry "gas" "wind" "wind")) eqn:Ew; [|reflexivity].
    apply (Hiff (entry "gas" "wind" "wind") eq_refl) in Ew.
    destruct Ew as [_ Hb]. specialize (Hb "heat" (or_introl eq_refl)).
    vm_compute in Hb. exfalso. apply Hb. reflexivity.
Defined.

End AtExamples.


Module FilterEdgeFacts.
Import XArray XArrayFacts Num NumFacts Filters FiltersFacts.

Lemma values_coord {A} (x : DataArray A) d c labels :
  coord x d = Ok c -> values c = Ok labels -> lookup d (dims x) = Some labels.
Proof.
  unfold coord. destruct (lookup d (dims x)) as [ls|]; [|discriminate].
  intros [= <-]. unfold values. simpl. intros [= <-]. f_equal.
  rewrite <- (map_id ls) at 1. apply map_ext. intros l. symmetry. apply upd_same.
Qed.

Lemma search_space_join ss la lr test :
  dims ss = [("asset", la); ("replacement", lr)] ->
  dims (binop andb ss
              (isin (mkDA [("replacement", lr)] (fun ix : Index => ix "replacement"))
                    test))
  = dims ss.
Proof.
  intros Hd. simpl. rewrite Hd. unfold join_dims. simpl.
  rewrite filter_mem_self. reflexivity.
Qed.

Lemma lookup_rename_dim old new ds ls :
  lookup old ds = Some ls -> has_dim new ds = false ->
  lookup new (rename_dim old new ds) = Some ls.
Proof.
  unfold has_dim. induction ds as [|[d l] r IH]; simpl; [discriminate|].
  destruct (String.eqb old d) eqn:Eo; simpl.
  - intros [= <-] _. rewrite String.eqb_refl. reflexivity.
  - destruct (String.eqb new d); [discriminate|]. exact IH.
Qed.

Lemma map_upd_same (ls : list string) d :
  map (fun l : string => upd ix0 d l d) ls = ls.
Proof.
  rewrite <- (map_id ls) at 2. apply map_ext. intros l. apply upd_same.
Qed.

Section filters.

Context {external : External}.

(** X5. When currently_existing_tech returns, every technology of the
    market capacity is a replacement of the search space, the result has
    the coordinates of the search space, and an entry is True exactly when
    it was True, its replacement is a technology of the market and the
    capacity of that technology exceeds the agent's tolerance (1e-8 by
    default). *)
Theorem currently_existing_tech_kept agent ss technologies market out :
  is_search_space ss ->
  currently_existing_tech agent ss technologies market = Ok out ->
  exists cap cap_labels ss_labels,
    rename "technology" "replacement"
           (filter_input Q agent (capacity market) (Some (year agent)) None)
    = Ok cap
    /\ lookup "replacement" (dims cap) = Some cap_labels
    /\ lookup "replacement" (dims ss) = Some ss_labels
    /\ incl cap_labels ss_labels
    /\ dims out = dims ss
    /\ forall ix,
        val out ix = true <->
        val ss ix = true
        /\ In (ix "replacement") cap_labels
        /\ tolerance_of agent
           < val cap (upd ix "replacement" (ix "replacement")).
Proof.
  intros Hss H. unfold currently_existing_tech in H.
  bind_inv H as cap Hcap. bind_inv H as c Hc.
  bind_inv H as cc Hcc. bind_inv H as labels Hlabels.
  bind_inv H as ss_labels Hss_labels. bind_inv H as both Hboth.
  bind_inv H as both_values Hbv. bind_inv H as selected Hsel.
  bind_inv H as existing Hex. bind_inv H as selected' Hsel'.
  pose proof (values_coord _ _ _ _ Hcc Hlabels) as Hcl.
  pose proof (values_coord _ _ _ _ Hc Hss_labels) as Hsl.
  destruct (search_space_dims ss Hss) as (la & lr & Hd).
  assert (lr = ss_labels) by (rewrite Hd in Hsl; simpl in Hsl; congruence).
  subst lr.
  apply coord_dims in Hc. destruct Hc as (lr & Hlr & ->).
  assert (lr = ss_labels) by congruence. subst lr.
  apply coord_dims in Hcc. destruct Hcc as (lc & Hlc & ->).
  assert (lc = labels) by congruence. subst lc.
  simpl in Hboth. injection Hboth as <-.
  simpl in Hbv. unfold values in Hbv. simpl in Hbv. injection Hbv as <-.
  assert (Hbv : map (fun l : string => upd ix0 "replacement" l "replacement") labels
                = labels).
  { rewrite <- (map_id labels) at 2. apply map_ext. intros l. apply upd_same. }
  rewrite Hbv in *. clear Hbv.
  pose proof (search_space_join ss la ss_labels labels Hd) as Hj.
  set (result := binop andb ss
                   (isin (mkDA [("replacement", ss_labels)]
                               (fun ix : Index => ix "replacement")) labels)) in *.
  unfold loc_set in H. rewrite Hj, Hsl in H.
  destruct (forallb (fun l => mem l ss_labels) labels) eqn:Hall; [|discriminate].
  injection H as <-.
  unfold loc in Hsel. rewrite Hj, Hsl, Hall in Hsel. injection Hsel as <-.
  unfold inplace in Hsel'. destruct (same_labels _ _); [|discriminate].
  injection Hsel' as <-.
  unfold sel in Hex. rewrite Hlc in Hex. simpl in Hex.
  destruct (forallb _ labels) in Hex; [|discriminate].
  injection Hex as <-.
  exists cap, labels, ss_labels.
  split; [exact Hcap|]. split; [exact Hlc|]. split; [exact Hsl|].
  split.
  { intros l Hl. rewrite forallb_forall in Hall. apply mem_In, Hall, Hl. }
  split; [reflexivity|].
  intros ix. simpl.
  destruct (mem (ix "replacement") labels) eqn:Em.
  - rewrite andb_true_r. rewrite andb_true_iff, Qgtb_true, mem_In in *.
    tauto.
  - rewrite andb_false_r. split; [discriminate|].
    intros (_ & Hin & _). apply mem_In in Hin. congruence.
Qed.

(** X6. currently_existing_tech raises KeyError when the market capacity
    holds a technology that the search space does not list as a
    replacement: both is the whole coordinate of the capacity, not the
    labels found in both. *)
Theorem currently_existing_tech_unlisted agent ss technologies market techs t :
  is_search_space ss ->
  let raw := filter_input Q agent (capacity market) (Some (year agent)) None in
  lookup "technology" (dims raw) = Some techs ->
  has_dim "replacement" (dims raw) = false ->
  In t techs ->
  (forall lr, lookup "replacement" (dims ss) = Some lr -> ~ In t lr) ->
  currently_existing_tech agent ss technologies market = Raise KeyError.
Proof.
  intros Hss raw Ht Hr Hin Hout.
  destruct (search_space_dims ss Hss) as (la & lr & Hd).
  assert (Hlr : lookup "replacement" (dims ss) = Some lr) by (rewrite Hd; reflexivity).
  specialize (Hout lr Hlr).
  unfold currently_existing_tech. fold raw.
  unfold rename, has_dim. rewrite Ht. simpl.
  unfold coord at 1. rewrite Hlr. simpl.
  unfold coord at 1. simpl.
  rewrite (lookup_rename_dim _ _ _ _ Ht Hr). simpl.
  rewrite !map_upd_same.
  unfold loc.
  rewrite (search_space_join ss la lr techs Hd), Hlr.
  assert (Hall : forallb (fun l => mem l lr) techs = false).
  { destruct (forallb (fun l => mem l lr) techs) eqn:E; [|reflexivity].
    exfalso. rewrite forallb_forall in E. apply Hout, mem_In, E, Hin. }
  rewrite Hall. reflexivity.
Qed.

End filters.

End FilterEdgeFacts.

(** ** What a split hands out *)

Module ConservationFacts.
Import XArray XArrayFacts Num NumFacts DemandShare InnerSplitFacts.

Lemma upd_upd ix d a l : upd (upd ix d a) d l = upd ix d l.
Proof.
  apply functional_extensionality. intros d'. unfold upd.
  destruct (String.eqb d d'); reflexivity.
Qed.

Lemma Qsum_app l l' : Qsum (l ++ l') == Qsum l + Qsum l'.
Proof.
  induction l as [|a l IH]; simpl; [ring|]. rewrite IH. ring.
Qed.

Lemma Qsum_ext {A} (f g : A -> Q) l :
  (forall a, In a l -> f a == g a) -> Qsum (map f l) == Qsum (map g l).
Proof.
  induction l as [|a l IH]; intros H; simpl; [reflexivity|].
  rewrite (H a (or_introl eq_refl)), IH; [reflexivity|].
  intros b Hb. apply H. right. exact Hb.
Qed.

Lemma Qsum_plus {A} (f g : A -> Q) l :
  Qsum (map (fun a => f a + g a) l) == Qsum (map f l) + Qsum (map g l).
Proof.
  induction l as [|a l IH]; simpl; [ring|]. rewrite IH. ring.
Qed.

(** The sum over the agents, then over the assets, is the sum over the
    assets of the sums over the agents. *)
Lemma Qsum_swap {U} (f : U -> string -> Q) (us : list U) (labels : list string) :
  Qsum (flat_map (fun u => map (f u) labels) us)
  == Qsum (map (fun a => Qsum (map (fun u => f u a) us)) labels).
Proof.
  induction us as [|u us IH]; simpl.
  - induction labels as [|a l IHl]; simpl; [reflexivity|]. rewrite <- IHl. ring.
  - rewrite Qsum_app, IH, <- Qsum_plus. reflexivity.
Qed.

(** The value of Python's [sum] of arrays at an index. *)
Lemma py_sum_val (l : list (DataArray Q)) acc summed :
  fold_left py_add l acc = PyArr summed ->
  forall ix,
    val summed ix
    == match acc with
       | PyInt z => inject_Z z
       | PyArr y => val y ix
       end + Qsum (map (fun s => val s ix) l).
Proof.
  revert acc. induction l as [|s l IH]; simpl; intros acc H ix.
  - subst acc. ring.
  - rewrite (IH _ H ix). destruct acc; simpl; ring.
Qed.

Lemma flat_map_length_const {U B} (f : U -> list B) (us : list U) n :
  (forall u, List.length (f u) = n) ->
  List.length (flat_map f us) = (List.length us * n)%nat.
Proof.
  intros H. induction us as [|u us IH]; simpl; [reflexivity|].
  rewrite List.length_app, H, IH. reflexivity.
Qed.

Lemma flat_map_Forall2 {U V B C} (R : U -> V -> Prop) (f : U -> list B)
    (g : V -> list C) (h : B -> C) us vs :
  Forall2 R us vs ->
  (forall u v, R u v -> g v = map h (f u)) ->
  flat_map g vs = map h (flat_map f us).
Proof.
  intros H Hfg. induction H as [|u v us vs Huv _ IH]; simpl; [reflexivity|].
  rewrite map_app, (Hfg u v Huv), IH. reflexivity.
Qed.

End ConservationFacts.

(** ** The initial search space and the chain of filters *)

Module SearchSpaceFacts.
Import XArray XArrayFacts Num NumFacts Filters FiltersFacts SearchSpace.
Import ConservationFacts.

Lemma Qsum_flat_map {A} (g : A -> list Q) l :
  Qsum (flat_map g l) == Qsum (map (fun a => Qsum (g a)) l).
Proof.
  induction l as [|a l IH]; simpl; [reflexivity|].
  rewrite Qsum_app, IH. reflexivity.
Qed.

(** The sum of the entries over dimensions that end with [(d, ls)] is the
    sum over the others of the sums along [d]. *)
Lemma Qsum_entries_snoc ds d ls (f : Index -> Q) ix :
  Qsum (entries_over (ds ++ [(d, ls)])%list f ix)
  == Qsum (entries_over ds (fun ix' => Qsum (map (fun l => f (upd ix' d l)) ls)) ix).
Proof.
  revert ix. induction ds as [|[d' ls'] r IH]; intros ix; simpl.
  - rewrite Qsum_flat_map. simpl. rewrite Qplus_0_r. apply Qsum_ext.
    intros l _. simpl. ring.
  - rewrite !Qsum_flat_map. apply Qsum_ext. intros l _. apply IH.
Qed.

Lemma lookup_remove_dim d d' ds :
  d <> d' -> lookup d' (remove_dim d ds) = lookup d' ds.
Proof.
  intros Hne. unfold remove_dim.
  induction ds as [|[n ls] r IH]; simpl; [reflexivity|].
  destruct (String.eqb d n) eqn:E; simpl.
  - apply String.eqb_eq in E. subst n.
    destruct (String.eqb d' d) eqn:E'; [|exact IH].
    apply String.eqb_eq in E'. congruence.
  - rewrite IH. reflexivity.
Qed.

Lemma lookup_NoDup d ls (ds : Dims) :
  NoDup (map fst ds) -> In (d, ls) ds -> lookup d ds = Some ls.
Proof.
  induction ds as [|[n l] r IH]; simpl; intros Hnd Hin; [contradiction|].
  inversion Hnd as [|? ? Hn Hr]; subst.
  destruct Hin as [E|Hin].
  - injection E as -> ->. rewrite String.eqb_refl. reflexivity.
  - destruct (String.eqb d n) eqn:E.
    + apply String.eqb_eq in E. subst n. exfalso. apply Hn.
      apply in_map_iff. exists (d, ls). split; [reflexivity | exact Hin].
    + apply IH; assumption.
Qed.

(** The sum over some of the dimensions of an array: what is left, and
    the value at an index. *)
Lemma sum_over_val ds (chosen : Dims) (x : DataArray Q) :
  NoDup ds ->
  map fst chosen = ds ->
  (forall d ls, In (d, ls) chosen -> lookup d (dims x) = Some ls) ->
  exists total,
    sum_over ds x = Ok total
    /\ dims total = filter (fun dl => negb (mem (fst dl) ds)) (dims x)
    /\ forall ix, val total ix == Qsum (entries_over (rev chosen) (val x) ix).
Proof.
  revert chosen x. induction ds as [|d r IH]; intros chosen x Hnd Hch Hlook.
  - destruct chosen; [|discriminate]. exists x. split; [reflexivity|]. split.
    + simpl. symmetry. apply filter_all.
    + intros ix. simpl. ring.
  - destruct chosen as [|[d' ls] chosen]; [discriminate|].
    simpl in Hch. injection Hch as -> Hch.
    inversion Hnd as [|? ? Hd Hr]; subst.
    pose proof (Hlook d ls (or_introl eq_refl)) as Hld.
    simpl. unfold sum_, reduce. rewrite Hld. simpl.
    destruct (IH chosen
                 (mkDA (remove_dim d (dims x))
                       (fun ix => Qsum (map (fun l => val x (upd ix d l)) ls)))
                 Hr eq_refl)
      as (total & Hsum & Hdims & Hval).
    { intros d' ls' Hin. simpl. rewrite lookup_remove_dim.
      - apply Hlook. right. exact Hin.
      - intros <-. apply Hd. apply in_map_iff. exists (d, ls').
        split; [reflexivity | exact Hin]. }
    exists total. split; [exact Hsum|]. split.
    + rewrite Hdims. simpl. unfold remove_dim.
      clear. induction (dims x) as [|[n l] ds IH]; simpl; [reflexivity|].
      rewrite (String.eqb_sym n d).
      destruct (String.eqb d n); simpl; [exact IH|].
      destruct (mem n (map fst chosen)); simpl; [exact IH|].
      rewrite IH. reflexivity.
    + intros ix. rewrite Hval. simpl. symmetry. apply Qsum_entries_snoc.
Qed.

Lemma Qgtb_compat x y t : x == y -> Qgtb x t = Qgtb y t.
Proof.
  intros H. destruct (Qgtb x t) eqn:Ex, (Qgtb y t) eqn:Ey; try reflexivity.
  - apply Qgtb_true in Ex. apply Qgtb_false in Ey. lra.
  - apply Qgtb_false in Ex. apply Qgtb_true in Ey. lra.
Qed.

Lemma lookup_cons {V} k k' (v : V) r :
  lookup k ((k', v) :: r) = if String.eqb k k' then Some v else lookup k r.
Proof. reflexivity. Qed.

Lemma only_asset (ds : Dims) la :
  NoDup (map fst ds) ->
  lookup "asset" ds = Some la ->
  filter (fun dl : string * list string => String.eqb (fst dl) "asset") ds
  = [("asset", la)].
Proof.
  induction ds as [|[n l] r IH]; intros Hnd H; [discriminate|].
  rewrite lookup_cons in H. cbn [filter fst].
  inversion Hnd as [|? ? Hn Hr]; subst.
  rewrite (String.eqb_sym n "asset").
  destruct (String.eqb "asset" n) eqn:E.
  - apply String.eqb_eq in E. subst n. injection H as ->.
    f_equal. apply filter_none. intros [n' l'] Hin. cbn [fst].
    apply String.eqb_neq. intros ->. apply Hn. apply in_map_iff.
    exists ("asset", l'). split; [reflexivity | exact Hin].
  - apply IH; assumption.
Qed.

Lemma no_asset (ds : Dims) :
  lookup "asset" ds = None ->
  filter (fun dl : string * list string => String.eqb (fst dl) "asset") ds = [].
Proof.
  induction ds as [|[n l] r IH]; intros H; [reflexivity|].
  rewrite lookup_cons in H. cbn [filter fst].
  rewrite (String.eqb_sym n "asset").
  destruct (String.eqb "asset" n); [discriminate | apply IH, H].
Qed.

Lemma not_assets_names (ds : Dims) :
  map fst (remove_dim "asset" ds)
  = filter (fun u => negb (String.eqb u "asset")) (map fst ds).
Proof.
  unfold remove_dim. induction ds as [|[n l] r IH]; [reflexivity|].
  cbn [filter map fst]. rewrite (String.eqb_sym n "asset").
  destruct (String.eqb "asset" n); cbn [negb map fst];
    [exact IH | rewrite IH; reflexivity].
Qed.

Lemma NoDup_filter {A} (p : A -> bool) l : NoDup l -> NoDup (filter p l).
Proof.
  induction 1 as [|a l Ha _ IH]; simpl; [constructor|].
  destruct (p a); [|exact IH]. constructor; [|exact IH].
  intros Hin. apply filter_In in Hin. tauto.
Qed.

Lemma left_after_sum (ds : Dims) :
  filter (fun dl : string * list string =>
            negb (mem (fst dl)
                      (filter (fun u => negb (String.eqb u "asset")) (map fst ds))))
         ds
  = filter (fun dl : string * list string => String.eqb (fst dl) "asset") ds.
Proof.
  apply filter_ext_in. intros [n l] Hin. simpl.
  destruct (String.eqb n "asset") eqn:E.
  - apply negb_true_iff. apply ObjectivesFacts.mem_false. intros H.
    apply filter_In in H. rewrite E in H. destruct H as [_ H]. discriminate.
  - apply negb_false_iff. apply mem_In. apply filter_In. split.
    + apply in_map_iff. exists (n, l). split; [reflexivity | exact Hin].
    + rewrite E. reflexivity.
Qed.

Section search_space.

Context {external : External}.

Variable Value : Type.
Variable technology : Technologies -> list string.

Lemma sum_not_assets (demand : DataArray Q) :
  NoDup (map fst (dims demand)) ->
  exists total,
    sum_over (filter (fun u => negb (String.eqb u "asset")) (map fst (dims demand)))
             demand = Ok total
    /\ dims total
       = filter (fun dl : string * list string => String.eqb (fst dl) "asset")
                (dims demand)
    /\ forall ix,
        val total ix
        == Qsum (entries_over (rev (remove_dim "asset" (dims demand)))
                              (val demand) ix).
Proof.
  intros Hnd.
  destruct (sum_over_val
              (filter (fun u => negb (String.eqb u "asset")) (map fst (dims demand)))
              (remove_dim "asset" (dims demand)) demand)
    as (total & Hsum & Hdims & Hval).
  - apply NoDup_filter, Hnd.
  - apply not_assets_names.
  - intros d ls Hin. apply lookup_NoDup; [exact Hnd|].
    unfold remove_dim in Hin. apply filter_In in Hin. tauto.
  - exists total. split; [exact Hsum|]. split; [|exact Hval].
    rewrite Hdims. apply left_after_sum.
Qed.

(** X10. On a demand whose dimensions have distinct names,
    initialize_from_technologies raises AttributeError when the demand has
    no asset dimension; otherwise it returns the all-True matrix whose
    assets are exactly the assets whose demand, summed over every other
    dimension, exceeds the agent's tolerance (1e-8 by default), in their
    order, and whose replacements are all the technologies of the dataset. *)
Theorem initialize_from_technologies_assets agent (demand : DataArray Q)
    technologies :
  NoDup (map fst (dims demand)) ->
  (lookup "asset" (dims demand) = None ->
   initialize_from_technologies technology agent demand technologies
   = Raise AttributeError)
  /\ forall la,
      lookup "asset" (dims demand) = Some la ->
      initialize_from_technologies technology agent demand technologies
      = Ok (mkDA
              [("asset",
                filter (fun a =>
                          Qgtb (Qsum (entries_over
                                        (rev (remove_dim "asset" (dims demand)))
                                        (val demand) (upd ix0 "asset" a)))
                               (tolerance_of agent))
                       la);
               ("replacement", technology technologies)]
              (fun _ => true)).
Proof.
  intros Hnd.
  destruct (sum_not_assets demand Hnd) as (total & Hsum & Hdims & Hval).
  split.
  - intros Hnone. unfold initialize_from_technologies. rewrite Hsum. simpl.
    unfold coord. rewrite Hnone. reflexivity.
  - intros la Hla. unfold initialize_from_technologies. rewrite Hsum. simpl.
    unfold coord. rewrite Hla. simpl.
    unfold sel_mask. simpl. rewrite Hdims, (only_asset _ _ Hnd Hla).
    simpl. rewrite forallb_mem_self. simpl.
    unfold values. simpl. rewrite FilterEdgeFacts.map_upd_same.
    do 3 f_equal. f_equal. apply filter_ext. intros a.
    apply Qgtb_compat, Hval.
Qed.

End search_space.

Lemma filter_filter {A} (f g : A -> bool) l :
  filter f (filter g l) = filter (fun x => g x && f x) l.
Proof.
  induction l as [|a l IH]; simpl; [reflexivity|].
  destruct (g a); simpl; [destruct (f a); rewrite IH; reflexivity | exact IH].
Qed.

Lemma narrows_trans ds ds' ds'' :
  narrows ds ds' -> narrows ds' ds'' -> narrows ds ds''.
Proof.
  intros H. revert ds''.
  induction H as [|dl dl' r r' [Hn [keep Hk]] _ IH]; intros ds'' H';
    inversion H' as [|? dl'' ? r'' [Hn' [keep' Hk']] Hr'']; subst; constructor.
  - split; [congruence|]. exists (fun x => keep x && keep' x).
    rewrite Hk', Hk. apply filter_filter.
  - apply IH, Hr''.
Qed.

Lemma narrowed_refl ss : narrowed ss ss.
Proof.
  apply narrowed_intro; [apply narrows_refl | tauto].
Qed.

Lemma narrowed_trans a b c : narrowed a b -> narrowed b c -> narrowed a c.
Proof.
  intros (Hn & Hv & _) (Hn' & Hv' & _). apply narrowed_intro.
  - eapply narrows_trans; eassumption.
  - intros ix H. apply Hv, Hv', H.
Qed.

Lemma dict_get_unregistered {V} n (d : list (string * V)) :
  mem n (map fst d) = false ->
  DemandShare.dict_get String.eqb n d = Raise KeyError.
Proof.
  induction d as [|[k v] r IH]; [reflexivity|].
  unfold mem. cbn [map fst existsb DemandShare.dict_get].
  destruct (String.eqb n k); [discriminate | exact IH].
Qed.

Section factory.

Variable Value : Type.
Variable initializers : list (string * Initializer Value).
Variable filters : list (string * Filter Value).

Local Abbreviation factory := (factory Value initializers filters).
Local Abbreviation partials := (partials Value filters).

Lemma name_of_error (m : Mapping Value) e : name_of Value m = Raise e -> e = KeyError.
Proof. unfold name_of. destruct (name m); congruence. Qed.

Lemma partials_error parameters e : partials parameters = Raise e -> e = KeyError.
Proof.
  induction parameters as [|p r IH]; simpl; [discriminate|].
  destruct (name_of Value p) as [n|e'] eqn:En; simpl.
  - destruct (DemandShare.dict_get String.eqb n filters) as [f|e''] eqn:Ef; simpl.
    + destruct (partials r) as [fs|e3]; simpl; [discriminate|].
      intros [= <-]. apply IH. reflexivity.
    + intros [= <-].
      apply (DictFacts.dict_get_Raise _ String.eqb_eq _ _ _ Ef).
  - intros [= <-]. apply (name_of_error _ _ En).
Qed.

Lemma partials_unknown parameters p :
  In p parameters ->
  (forall n, name p = Some n -> mem n (map fst filters) = false) ->
  partials parameters = Raise KeyError.
Proof.
  intros Hin Hp.
  destruct (partials parameters) as [fs|e] eqn:E;
    [|rewrite (partials_error _ _ E); reflexivity].
  exfalso. revert fs E.
  induction parameters as [|q r IH]; intros fs E; [contradiction|].
  simpl in E. bind_inv E as n Hn. bind_inv E as f Hf. bind_inv E as rest Hrest.
  destruct Hin as [->|Hin]; [|apply (IH Hin rest Hrest)].
  unfold name_of in Hn. destruct (name p) as [n'|] eqn:E'; [|discriminate].
  injection Hn as ->. rewrite (dict_get_unregistered _ _ (Hp n eq_refl)) in Hf.
  discriminate.
Qed.

Lemma factory_error settings e : factory settings = Raise e -> e = KeyError.
Proof.
  unfold SearchSpace.factory.
  destruct settings as [|s|[|s r]]; cbn [map];
    repeat match goal with
           | |- context [bind ?m _] =>
               let E := fresh "E" in destruct m eqn:E; cbn [bind]
           | |- context [if ?b then _ else _] => destruct b; cbn [bind]
           | |- Ok _ = Raise _ -> _ => discriminate
           | |- Raise _ = Raise _ -> _ => intros [= <-]
           end;
    first [ eapply name_of_error; eassumption
          | eapply (DictFacts.dict_get_Raise _ String.eqb_eq); eassumption
          | eapply partials_error; eassumption ].
Qed.

(** X11. filters.factory gives the same result for no settings, for an
    empty sequence and for the name initialize_from_technologies; when the
    first setting does not name a registered initializer, the settings
    behave exactly as the same settings with initialize_from_technologies
    put in front. *)
Theorem factory_inserts_initializer (s : Setting Value) l :
  (forall n, name (parameter Value s) = Some n ->
             mem n (map fst initializers) = false) ->
  factory NoSettings = factory (Many [])
  /\ factory NoSettings = factory (One (Text "initialize_from_technologies"))
  /\ factory (One s) = factory (Many [Text "initialize_from_technologies"; s])
  /\ factory (Many (s :: l))
     = factory (Many (Text "initialize_from_technologies" :: s :: l)).
Proof.
  intros Hs. split; [reflexivity|]. split; [reflexivity|].
  assert (H : forall r,
             factory (Many (s :: r))
             = factory (Many (Text "initialize_from_technologies" :: s :: r))).
  { intros r. unfold SearchSpace.factory. cbn [map parameter].
    change (name_of Value {| name := Some "initialize_from_technologies";
                             kwargs := [] |})
      with (@Ok string "initialize_from_technologies").
    cbn [bind].
    destruct (mem "initialize_from_technologies" (map fst initializers)) eqn:Ei.
    - unfold name_of at 1. destruct (name (parameter Value s)) as [n|] eqn:En.
      + cbn [bind]. rewrite (Hs n eq_refl). reflexivity.
      + cbn [bind].
        change (name_of Value {| name := Some "initialize_from_technologies";
                                 kwargs := [] |})
          with (@Ok string "initialize_from_technologies").
        cbn [bind].
        destruct (DemandShare.dict_get String.eqb "initialize_from_technologies"
                                       initializers) eqn:Ed; cbn [bind];
          [|rewrite (proj1 (DictFacts.dict_get_Raise _ String.eqb_eq _ _ _ Ed));
            reflexivity].
        cbn [SearchSpace.partials]. unfold name_of. rewrite En. reflexivity.
    - change (name_of Value (default Value))
        with (@Ok string "initialize_from_technologies").
      cbn [bind]. rewrite (dict_get_unregistered _ _ Ei). cbn [bind].
      unfold name_of at 1. destruct (name (parameter Value s)) as [n|] eqn:En.
      + cbn [bind]. rewrite (Hs n eq_refl).
        change (name_of Value (default Value))
          with (@Ok string "initialize_from_technologies").
        cbn [bind]. rewrite (dict_get_unregistered _ _ Ei). reflexivity.
      + reflexivity. }
  split; [apply (H []) | apply (H l)].
Qed.

(** X12. filters.factory fails with KeyError, when the chain is built and
    before any filter runs, as soon as a setting after the first has no
    name or names no registered filter (a registered initializer in second
    place included). *)
Theorem factory_unknown_filter (first s : Setting Value) tail :
  In s tail ->
  (forall n, name (parameter Value s) = Some n -> mem n (map fst filters) = false) ->
  factory (Many (first :: tail)) = Raise KeyError.
Proof.
  intros Hin Hs.
  destruct (factory (Many (first :: tail))) as [f|e] eqn:E;
    [exfalso | f_equal; eapply factory_error; eassumption].
  unfold SearchSpace.factory in E. cbn [map] in E.
  bind_inv E as n Hn.
  destruct (mem n (map fst initializers)).
  - bind_inv E as n' Hn'. bind_inv E as i Hi.
    rewrite (partials_unknown (map (parameter Value) tail) (parameter Value s))
      in E; [discriminate | apply in_map, Hin | exact Hs].
  - bind_inv E as n' Hn'. bind_inv E as i Hi.
    rewrite (partials_unknown
               (parameter Value first :: map (parameter Value) tail)
               (parameter Value s))
      in E; [discriminate | right; apply in_map, Hin | exact Hs].
Qed.

Lemma partials_registered parameters functions :
  partials parameters = Ok functions ->
  Forall (fun f => exists p n g,
            In p parameters /\ name p = Some n /\ In (n, g) filters
            /\ f = g (kwargs p))
         functions.
Proof.
  revert functions. induction parameters as [|p r IH]; simpl; intros functions H.
  - injection H as <-. constructor.
  - bind_inv H as n Hn. bind_inv H as g Hg. bind_inv H as rest Hrest.
    injection H as <-. constructor.
    + exists p, n, g. split; [left; reflexivity|].
      unfold name_of in Hn. destruct (name p) as [n'|]; [|discriminate].
      injection Hn as ->. split; [reflexivity|]. split; [|reflexivity].
      apply (DictFacts.dict_get_In _ String.eqb_eq _ _ _ Hg).
    + eapply Forall_impl; [|apply IH, Hrest].
      intros f (p' & n' & g' & Hp' & H'). exists p', n', g'.
      split; [right; exact Hp' | exact H'].
Qed.

Lemma apply_filters_narrowed functions agent ss technologies market out :
  Forall (fun f =>
            forall ss out,
              is_search_space ss ->
              f agent ss technologies market = Ok out -> narrowed ss out)
         functions ->
  is_search_space ss ->
  apply_filters functions agent ss technologies market = Ok out ->
  narrowed ss out.
Proof.
  intros Hall. revert ss. induction Hall as [|f r Hf _ IH]; simpl; intros ss Hss H.
  - injection H as <-. apply narrowed_refl.
  - bind_inv H as ss' Hss'. pose proof (Hf _ _ Hss Hss') as Hn.
    eapply narrowed_trans; [exact Hn|].
    apply IH; [|exact H]. eapply narrowed_search_space; eassumption.
Qed.

(** X13. Take a call of the function built by filters.factory that
    returns. If each filter that the settings name narrows the search
    spaces it is given in this call (whatever else is registered), and the
    initializer returns a search space, the result is the initial search
    space of a registered initializer, narrowed: the chain adds no
    dimension and no label and turns no entry True. *)
Theorem factory_narrows settings chain agent demand technologies market out :
  factory settings = Ok chain ->
  chain agent demand technologies market = Ok out ->
  (forall s n f,
     In s match settings with
          | NoSettings => []
          | One s => [s]
          | Many l => l
          end ->
     name (parameter Value s) = Some n ->
     In (n, f) filters ->
     forall ss out',
       is_search_space ss ->
       f (kwargs (parameter Value s)) agent ss technologies market = Ok out' ->
       narrowed ss out') ->
  (forall n i kw initial,
     In (n, i) initializers ->
     i kw agent demand technologies market = Ok initial ->
     is_search_space initial) ->
  exists n i kw initial,
    In (n, i) initializers
    /\ i kw agent demand technologies market = Ok initial
    /\ narrowed initial out.
Proof.
  intros E H Hfilters Hinit.
  set (l := match settings with
            | NoSettings => []
            | One s => [s]
            | Many l => l
            end) in *.
  assert (Hchain :
    exists n i kw functions,
      In (n, i) initializers
      /\ Forall (fun f => exists s m g,
                   In s l /\ name (parameter Value s) = Some m
                   /\ In (m, g) filters
                   /\ f = g (kwargs (parameter Value s)))
                functions
      /\ chain = fun agent demand technologies market =>
                   search_space <- i kw agent demand technologies market ;;
                   apply_filters functions agent search_space technologies market).
  { unfold SearchSpace.factory in E. fold l in E.
    destruct l as [|s0 l'].
    - cbn [map] in E.
      change (name_of Value (parameter Value (Map (default Value))))
        with (@Ok string "initialize_from_technologies") in E.
      cbn [bind] in E.
      destruct (mem "initialize_from_technologies" (map fst initializers)) eqn:Em.
      + bind_inv E as n' Hn'. bind_inv E as i Hi. bind_inv E as fs Hfs.
        injection Hfs as <-. injection E as <-.
        exists n', i, (kwargs (parameter Value (Map (default Value)))), [].
        split; [apply (DictFacts.dict_get_In _ String.eqb_eq _ _ _ Hi)|].
        split; [constructor | reflexivity].
      + bind_inv E as n' Hn'. injection Hn' as <-.
        rewrite (dict_get_unregistered _ _ Em) in E. discriminate.
    - cbn [map] in E. bind_inv E as n Hn.
      assert (Hnamed : forall ps fs,
                 partials ps = Ok fs ->
                 incl ps (map (parameter Value) (s0 :: l')) ->
                 Forall (fun f => exists s m g,
                           In s (s0 :: l') /\ name (parameter Value s) = Some m
                           /\ In (m, g) filters
                           /\ f = g (kwargs (parameter Value s)))
                        fs).
      { intros ps fs Hfs Hincl. eapply Forall_impl; [|apply (partials_registered _ _ Hfs)].
        intros f (p & m & g & Hp & Hm & Hg & ->).
        apply Hincl, in_map_iff in Hp. destruct Hp as (s & <- & Hs).
        exists s, m, g. repeat split; assumption. }
      destruct (mem n (map fst initializers)).
      + bind_inv E as n' Hn'. bind_inv E as i Hi. bind_inv E as fs Hfs.
        injection E as <-. exists n', i, (kwargs (parameter Value s0)), fs.
        split; [apply (DictFacts.dict_get_In _ String.eqb_eq _ _ _ Hi)|].
        split; [|reflexivity].
        apply (Hnamed _ _ Hfs). intros p Hp. right. exact Hp.
      + bind_inv E as n' Hn'. bind_inv E as i Hi. bind_inv E as fs Hfs.
        injection E as <-. exists n', i, (kwargs (default Value)), fs.
        split; [apply (DictFacts.dict_get_In _ String.eqb_eq _ _ _ Hi)|].
        split; [|reflexivity].
        apply (Hnamed _ _ Hfs). apply incl_refl. }
  destruct Hchain as (n & i & kw & functions & Hi & Hfs & ->).
  bind_inv H as initial Hinitial.
  exists n, i, kw, initial. split; [exact Hi|]. split; [exact Hinitial|].
  eapply apply_filters_narrowed; [| |exact H].
  - eapply Forall_impl; [|exact Hfs].
    intros f (s & m & g & Hs & Hm & Hg & ->) ss out' Hss Hout.
    eapply Hfilters; eassumption.
  - eapply Hinit; eassumption.
Qed.

End factory.

End SearchSpaceFacts.

(** ** The demand share of the settings *)

Module ShareFactoryFacts.
Import DemandShare DictFacts ShareFactory.

Lemma dict_get_update {V} k (d other : list (string * V)) :
  (forall v, In (k, v) other -> NoDup (map fst other) ->
             dict_get String.eqb k (dict_update String.eqb d other) = Ok v)
  /\ (~ In k (map fst other) ->
      dict_get String.eqb k (dict_update String.eqb d other)
      = dict_get String.eqb k d).
Proof.
  unfold dict_update. revert d.
  induction other as [|[k' v'] r IH]; intros d; simpl.
  - split; [intros v []|reflexivity].
  - change (put String.eqb d (k', v')) with (dict_set String.eqb k' v' d).
    split.
    + intros v [E|Hin] Hnd; inversion Hnd as [|? ? Hk Hr]; subst.
      * injection E as -> ->.
        rewrite (proj2 (IH _) Hk). apply (dict_get_set _ String.eqb_eq).
      * apply (proj1 (IH _) v Hin Hr).
    + intros Hk. rewrite (proj2 (IH _)) by tauto.
      apply (dict_get_set_other _ String.eqb_eq). intros ->. tauto.
Qed.

Section factory.

Variables Value Agents Market Technologies Shares : Type.
Variable registry : list (string * Function Value Agents Market Technologies Shares).

(** X14. The function built by demand_share.factory looks its name up
    (new_and_retro when the settings give none) only when it is called,
    raising KeyError then if the name is not registered; the registered
    function receives the keyword arguments of the call, and from the
    settings only the items that the call does not give: a keyword of the
    call overrides the settings. *)
Theorem factory_call (settings : Settings Value) agents market technologies
    (kwargs : Kwargs Value) :
  NoDup (map fst kwargs) ->
  (XArray.mem (name_of settings) (map fst registry) = false ->
   factory registry settings agents market technologies kwargs = Raise KeyError)
  /\ forall function,
      dict_get String.eqb (name_of settings) registry = Ok function ->
      exists keywords,
        factory registry settings agents market technologies kwargs
        = function agents market technologies keywords
        /\ (forall k v, In (k, v) kwargs -> dict_get String.eqb k keywords = Ok v)
        /\ (forall k, ~ In k (map fst kwargs) ->
                      dict_get String.eqb k keywords
                      = dict_get String.eqb k (params_of settings)).
Proof.
  intros Hnd. split.
  - intros Hname. unfold factory.
    rewrite (SearchSpaceFacts.dict_get_unregistered _ _ Hname). reflexivity.
  - intros function Hf. unfold factory. rewrite Hf. simpl.
    eexists. split; [reflexivity|]. split.
    + intros k v Hin. apply (proj1 (dict_get_update k _ _) v Hin Hnd).
    + intros k Hk. apply (proj2 (dict_get_update k _ _) Hk).
Qed.

End factory.

End ShareFactoryFacts.

(** ** The cache of outputs *)

Module CacheFacts.
Import Py DemandShare DictFacts Cache.

Lemma map_fst_combine {A B} (l : list A) (l' : list B) :
  List.length l = List.length l' -> map fst (combine l l') = l.
Proof.
  revert l'. induction l as [|a l IH]; intros [|b l'] H; simpl; try reflexivity;
    try discriminate.
  f_equal. apply IH. simpl in H. lia.
Qed.

Lemma map_snd_combine {A B} (l : list A) (l' : list B) :
  List.length l = List.length l' -> map snd (combine l l') = l'.
Proof.
  revert l'. induction l as [|a l IH]; intros [|b l'] H; simpl; try reflexivity;
    try discriminate.
  f_equal. apply IH. simpl in H. lia.
Qed.

Section cache.

Variables Array Written : Type.

Abbreviation Cache_ := (OutputCache Array Written).

(** X15. match_quantities on a sequence of arrays pairs the names with the
    arrays in order when there are as many distinct names as arrays, and
    raises ValueError when the numbers differ; a quantity given as one
    string counts as the sequence of its characters. *)
Theorem match_quantities_sequence quantity (l : list Array) :
  let names :=
    match quantity with
    | Text q => characters q
    | Names qs => qs
    end in
  NoDup names ->
  (List.length names = List.length l ->
   match_quantities quantity (Sequence l) = Returns (combine names l)
   /\ map fst (combine names l) = names
   /\ map snd (combine names l) = l)
  /\ (List.length names <> List.length l ->
      match_quantities quantity (Sequence l) = Raises (Builtin ValueError)).
Proof.
  intros names Hnd.
  assert (H : match_quantities quantity (Sequence l) = zipped names l)
    by (destruct quantity; reflexivity).
  rewrite H. unfold zipped. split.
  - intros Hlen. apply Nat.eqb_eq in Hlen as Hb. rewrite Hb. simpl.
    rewrite (dict_of_distinct _ String.eqb_eq)
      by (rewrite map_fst_combine; assumption).
    split; [reflexivity|].
    split; [apply map_fst_combine | apply map_snd_combine]; exact Hlen.
  - intros Hlen. apply Nat.eqb_neq in Hlen. rewrite Hlen. reflexivity.
Qed.

Lemma append_keys q v (d : list (string * list Array)) :
  map fst (append q v d) = map fst d.
Proof.
  induction d as [|[q' l] r IH]; simpl; [reflexivity|].
  destruct (String.eqb q q'); simpl; [reflexivity | rewrite IH; reflexivity].
Qed.

Lemma append_In q v (d : list (string * list Array)) q' l :
  NoDup (map fst d) ->
  In (q', l) d ->
  In (q', (l ++ if String.eqb q' q then [v] else [])%list) (append q v d).
Proof.
  induction d as [|[k l'] r IH]; simpl; intros Hnd Hin; [contradiction|].
  inversion Hnd as [|? ? Hk Hr]; subst.
  destruct (String.eqb q k) eqn:E.
  - apply String.eqb_eq in E. subst k. destruct Hin as [H|Hin].
    + injection H as <- <-. rewrite String.eqb_refl. left. reflexivity.
    + right. destruct (String.eqb q' q) eqn:E'.
      * apply String.eqb_eq in E'. subst q'. exfalso. apply Hk.
        apply in_map_iff. exists (q, l). split; [reflexivity | exact Hin].
      * rewrite app_nil_r. exact Hin.
  - destruct Hin as [H|Hin].
    + injection H as <- <-. rewrite String.eqb_sym, E, app_nil_r. left. reflexivity.
    + right. apply IH; assumption.
Qed.

Lemma cache_step (d : list (string * list Array)) (qv : string * Array) :
  let d' :=
    if negb (XArray.mem (fst qv) (map fst d)) then d
    else append (fst qv) (snd qv) d in
  map fst d' = map fst d
  /\ (NoDup (map fst d) ->
      forall q l, In (q, l) d ->
        In (q, (l ++ if String.eqb q (fst qv) then [snd qv] else [])%list) d').
Proof.
  intros d'. unfold d'. destruct (XArray.mem (fst qv) (map fst d)) eqn:E; simpl.
  - split; [apply append_keys|]. intros Hnd q l Hin. apply append_In; assumption.
  - split; [reflexivity|]. intros Hnd q l Hin.
    destruct (String.eqb q (fst qv)) eqn:E'.
    + apply String.eqb_eq in E'. subst q. exfalso.
      apply ObjectivesFacts.mem_false in E. apply E.
      apply in_map_iff. exists (fst qv, l). split; [reflexivity | exact Hin].
    + rewrite app_nil_r. exact Hin.
Qed.

(** X16. OutputCache.cache never changes the quantities that the cache
    holds: data of a quantity that was not selected is dropped, and the
    arrays of a selected quantity are appended, in the order of the data,
    after those already cached. *)
Theorem cache_appends (self : Cache_) data :
  NoDup (map fst (to_save self)) ->
  map fst (to_save (cache self data)) = map fst (to_save self)
  /\ forall q l,
      In (q, l) (to_save self) ->
      In (q, (l ++ map snd (filter (fun qv => String.eqb q (fst qv)) data))%list)
         (to_save (cache self data)).
Proof.
  unfold cache. simpl. generalize (to_save self) as d.
  induction data as [|qv data IH]; intros d Hnd; simpl.
  - split; [reflexivity|]. intros q l Hin. rewrite app_nil_r. exact Hin.
  - destruct (cache_step d qv) as [Hkeys Hin']. cbv zeta in Hkeys, Hin'.
    destruct (IH _ (eq_ind_r (fun ks => NoDup ks) Hnd Hkeys)) as [Hk Hv].
    split; [congruence|].
    intros q l Hin. specialize (Hv _ _ (Hin' Hnd q l Hin)).
    destruct (String.eqb q (fst qv)); simpl.
    + rewrite <- app_assoc in Hv. exact Hv.
    + rewrite app_nil_r in Hv. exact Hv.
Qed.

Lemma write_empty (sinks_ : list (string * Sink Array Written)) year
    (d : list (string * list Array)) :
  Forall (fun ql => snd ql = []) d -> write sinks_ year d = Returns [].
Proof.
  induction 1 as [|[q l] r Hl _ IH]; simpl; [reflexivity|].
  simpl in Hl. subst l. exact IH.
Qed.

Lemma write_length (sinks_ : list (string * Sink Array Written)) year
    (d : list (string * list Array)) written :
  write sinks_ year d = Returns written ->
  List.length written
  = List.length (filter (fun ql : string * list Array =>
                           negb (Nat.eqb (List.length (snd ql)) 0)) d).
Proof.
  revert written. induction d as [|[q l] r IH]; simpl; intros written H.
  - injection H as <-. reflexivity.
  - destruct (Nat.eqb (List.length l) 0); simpl; [apply IH, H|].
    destruct (lift (dict_get String.eqb q sinks_)) as [sink|e]; simpl in H;
      [|discriminate].
    destruct (sink l year) as [w|e]; simpl in H; [|discriminate].
    destruct (write sinks_ year r) as [rest|e]; simpl in H; [|discriminate].
    injection H as <-. simpl. f_equal. apply IH. reflexivity.
Qed.

(** X17. consolidate_cache leaves the cache untouched when a sink raises;
    otherwise it calls one sink per quantity with a non-empty list, keeps
    the quantities, empties every list, and a second call then writes
    nothing and changes nothing. *)
Theorem consolidate_cache_flushes (self self' : Cache_) year returned :
  consolidate_cache self year = (returned, self') ->
  match returned with
  | Raises _ => self' = self
  | Returns written =>
      map fst (to_save self') = map fst (to_save self)
      /\ Forall (fun ql => snd ql = []) (to_save self')
      /\ List.length written
         = List.length (filter (fun ql : string * list Array =>
                                  negb (Nat.eqb (List.length (snd ql)) 0))
                               (to_save self))
      /\ forall year', consolidate_cache self' year' = (Returns [], self')
  end.
Proof.
  unfold consolidate_cache.
  destruct (write (factory self) year (to_save self)) as [written|e] eqn:E;
    intros [= <- <-]; [|reflexivity].
  simpl. split; [rewrite map_map; reflexivity|].
  assert (Hall : Forall (fun ql : string * list Array => snd ql = [])
                        (map (fun ql : string * list Array => (fst ql, @nil Array))
                             (to_save self))).
  { apply Forall_forall. intros ql Hin. apply in_map_iff in Hin.
    destruct Hin as (x & <- & _). reflexivity. }
  split; [exact Hall|]. split; [apply (write_length _ _ _ _ E)|].
  intros year'. rewrite (write_empty _ _ _ Hall). rewrite map_map. reflexivity.
Qed.

(** X18. A function decorated with cache_quantity(quantity=q) that returns
    one array returns it unchanged and sends it once on the cache channel
    under q; but it sends nothing when q is "quantity", and raises
    ValueError when q is "function", because the matched items are passed
    as keyword arguments of cache_quantity itself. *)
Theorem decorated_array {Args} (function : Args -> outcome (Data Array)) q args
    (subscribers : list Cache_) a :
  function args = Returns (DataArray a) ->
  decorated function (Text q) args subscribers
  = if String.eqb q "function" then (Raises (Builtin ValueError), subscribers)
    else if String.eqb q "quantity" then (Returns (DataArray a), subscribers)
    else (Returns (DataArray a),
          sendMessage CACHE_TOPIC_CHANNEL [(q, a)] subscribers).
Proof.
  intros H. unfold decorated. rewrite H. cbn [match_quantities].
  unfold keyword. cbn [dict_get filter fst].
  rewrite (String.eqb_sym "function" q), (String.eqb_sym "quantity" q).
  destruct (String.eqb q "function") eqn:Ef.
  - apply String.eqb_eq in Ef. subst q. reflexivity.
  - destruct (String.eqb q "quantity") eqn:Eq; reflexivity.
Qed.

End cache.

Lemma and_then_Returns {A B} (m : outcome A) (k : A -> outcome B) b :
  and_then m k = Returns b -> exists a, m = Returns a /\ k a = Returns b.
Proof.
  destruct m as [a|e]; simpl; [|discriminate]. intros H. exists a. tauto.
Qed.

Tactic Notation "then_inv" hyp(H) "as" ident(a) ident(Ha) :=
  apply and_then_Returns in H; destruct H as (a & Ha & H).

(** The keys and the items of a dictionary built item by item. *)
Section keys.

Context {V : Type}.

Implicit Types d items : list (string * V).

Lemma dict_set_keys k v d :
  map fst (dict_set String.eqb k v d)
  = if key_dec String.eqb String.eqb_eq k d then map fst d
    else (map fst d ++ [k])%list.
Proof.
  destruct (key_dec String.eqb String.eqb_eq k d) as [H|H].
  - apply (dict_set_present _ String.eqb_eq), H.
  - rewrite (dict_set_fresh _ String.eqb_eq) by exact H.
    rewrite map_app. reflexivity.
Qed.

Lemma dict_set_item k v d k' v' :
  In (k', v') (dict_set String.eqb k v d) -> In (k', v') d \/ (k', v') = (k, v).
Proof.
  induction d as [|[k0 v0] r IH]; simpl.
  - intros [H|[]]. right. congruence.
  - destruct (String.eqb k k0) eqn:E; simpl.
    + apply String.eqb_eq in E. subst k0. intros [H|H]; [right; congruence | tauto].
    + intros [H|H]; [tauto|]. destruct (IH H); tauto.
Qed.

Lemma fold_put_keys items d k :
  In k (map fst (fold_left (put String.eqb) items d))
  <-> In k (map fst d) \/ In k (map fst items).
Proof.
  revert d. induction items as [|[k0 v0] r IH]; intros d; simpl; [tauto|].
  rewrite IH. unfold put. simpl. rewrite dict_set_keys.
  destruct (key_dec String.eqb String.eqb_eq k0 d) as [H|H].
  - split; [tauto|]. intros [H'|[<-|H']]; tauto.
  - rewrite in_app_iff. simpl. tauto.
Qed.

Lemma fold_put_NoDup items d :
  NoDup (map fst d) -> NoDup (map fst (fold_left (put String.eqb) items d)).
Proof.
  revert d. induction items as [|[k0 v0] r IH]; intros d Hnd; simpl; [exact Hnd|].
  apply IH. unfold put. simpl. rewrite dict_set_keys.
  destruct (key_dec String.eqb String.eqb_eq k0 d) as [H|H]; [exact Hnd|].
  apply NoDup_app; [exact Hnd | repeat constructor; intros [] |].
  intros x Hx [<-|[]]. contradiction.
Qed.

Lemma fold_put_item items d k v :
  In (k, v) (fold_left (put String.eqb) items d) -> In (k, v) d \/ In (k, v) items.
Proof.
  revert d. induction items as [|[k0 v0] r IH]; intros d; simpl; [tauto|].
  intros H. destruct (IH _ H) as [H'|H']; [|tauto].
  unfold put in H'. simpl in H'.
  destruct (dict_set_item _ _ _ _ _ H') as [H0|H0];
    [tauto | right; left; congruence].
Qed.

End keys.

Lemma fold_put_same_keys {V W} (items : list (string * V)) (items' : list (string * W))
    d d' :
  map fst items = map fst items' ->
  map fst d = map fst d' ->
  map fst (fold_left (put String.eqb) items d)
  = map fst (fold_left (put String.eqb) items' d').
Proof.
  revert items' d d'. induction items as [|[k v] r IH]; intros [|[k' v'] r'] d d';
    simpl; try discriminate; [tauto|].
  intros [= <- Hr] Hd. apply IH; [exact Hr|].
  unfold put. simpl. rewrite !dict_set_keys.
  destruct (key_dec String.eqb String.eqb_eq k d) as [H|H];
    destruct (key_dec String.eqb String.eqb_eq k d') as [H'|H'];
    rewrite Hd in *; try contradiction; congruence.
Qed.

Section init.

Variables Array Written Compute Options : Type.
Variable _factory :
  list (string * Compute) -> Setting Options -> outcome (Sink Array Written).
Variable OUTPUT_QUANTITIES : list (string * Compute).

Lemma quantities_spec known (parameters : list (Setting Options)) found :
  quantities known parameters = Returns found ->
  Forall2 (fun p x => x = (p, snd (fst x), XArray.mem (snd (fst x)) known)
                      /\ quantity_of p = Returns (snd (fst x)))
          parameters found.
Proof.
  revert found. induction parameters as [|p r IH]; simpl; intros found H.
  - injection H as <-. constructor.
  - then_inv H as q Hq. then_inv H as rest Hrest. injection H as <-.
    constructor; [|apply IH, Hrest]. simpl. split; [reflexivity | exact Hq].
Qed.

Lemma quantities_again known known' (parameters : list (Setting Options)) found :
  quantities known parameters = Returns found ->
  quantities known' parameters
  = Returns (map (fun x : Setting Options * string * bool =>
                    (fst x, XArray.mem (snd (fst x)) known'))
                 found).
Proof.
  revert found. induction parameters as [|p r IH]; simpl; intros found H.
  - injection H as <-. reflexivity.
  - then_inv H as q Hq. then_inv H as rest Hrest. injection H as <-.
    rewrite Hq. simpl. rewrite (IH _ Hrest). reflexivity.
Qed.

Lemma sinks_keys registry selected (made : list (string * Sink Array Written)) :
  sinks Array Written Compute Options _factory registry selected = Returns made ->
  map fst made = map (fun x : Setting Options * string * bool => snd (fst x)) selected.
Proof.
  revert made. induction selected as [|[[p q] b] r IH]; simpl; intros made H.
  - injection H as <-. reflexivity.
  - then_inv H as sink Hsink. then_inv H as rest Hrest. injection H as <-.
    simpl. f_equal. apply IH, Hrest.
Qed.

Lemma filter_all_true {A} (f : A -> bool) l :
  (forall x, In x l -> f x = true) -> filter f l = l.
Proof.
  induction l as [|a l IH]; simpl; intros H; [reflexivity|].
  rewrite (H a (or_introl eq_refl)). f_equal. apply IH. intros x Hx. apply H.
  right. exact Hx.
Qed.

Lemma none_missing {A} (f : A -> bool) l :
  List.length (filter (fun x => negb (f x)) l) = 0%nat ->
  forall x, In x l -> f x = true.
Proof.
  induction l as [|a l IH]; simpl; intros H x Hx; [contradiction|].
  destruct (f a) eqn:E; simpl in H; [|discriminate].
  destruct Hx as [<-|Hx]; [exact E | apply IH; assumption].
Qed.

(** X19. When OutputCache.__init__ returns, every parameter is a mapping
    with a registered quantity, the cache holds exactly these quantities,
    once each and each with an empty list, and has one sink per quantity
    held. *)
Theorem init_returns parameters output_quantities topic_ c :
  __init__ _factory OUTPUT_QUANTITIES parameters output_quantities topic_ = Returns c ->
  let registry :=
    match output_quantities with
    | None => OUTPUT_QUANTITIES
    | Some given => given
    end in
  exists qs,
    Forall2 (fun p q => quantity_of p = Returns q) parameters qs
    /\ incl qs (map fst registry)
    /\ (forall q, In q (map fst (to_save c)) <-> In q qs)
    /\ NoDup (map fst (to_save c))
    /\ Forall (fun ql => snd ql = []) (to_save c)
    /\ map fst (factory c) = map fst (to_save c)
    /\ topic c = topic_.
Proof.
  intros H registry. unfold __init__ in H. fold registry in H.
  then_inv H as found Hfound.
  destruct (Nat.eqb (List.length (filter (fun pq => negb (snd pq)) found)) 0)
    eqn:Emissing; simpl in H; [|discriminate].
  apply Nat.eqb_eq in Emissing.
  pose proof (none_missing _ _ Emissing) as Hknown.
  rewrite Hfound in H. simpl in H.
  rewrite (filter_all_true (fun pq : Setting Options * string * bool => snd pq)
                           _ Hknown) in H.
  set (items := map (fun pq : Setting Options * string * bool =>
                       (snd (fst pq), @nil Array)) found) in *.
  rewrite (quantities_again _ (map fst (dict_of String.eqb items)) _ _ Hfound) in H.
  simpl in H. then_inv H as made Hmade. injection H as <-. simpl.
  pose proof (quantities_spec _ _ _ Hfound) as Hspec.
  assert (Hkeys : forall q, In q (map fst (dict_of String.eqb items))
                            <-> In q (map (fun x : Setting Options * string * bool =>
                                             snd (fst x)) found)).
  { intros q. unfold dict_of. rewrite fold_put_keys. unfold items.
    rewrite map_map. simpl. tauto. }
  exists (map (fun x : Setting Options * string * bool => snd (fst x)) found).
  split; [|split; [|split; [|split; [|split; [|split]]]]].
  - clear -Hspec. induction Hspec as [|p x ps xs [_ Hq] _ IH]; simpl; constructor;
      assumption.
  - intros q Hq. apply in_map_iff in Hq. destruct Hq as (x & <- & Hx).
    specialize (Hknown x Hx).
    assert (Hx' : snd x = XArray.mem (snd (fst x)) (map fst registry)).
    { clear -Hspec Hx. induction Hspec as [|p y ps ys [Hy _] _ IH];
        [contradiction|].
      destruct Hx as [<-|Hx]; [rewrite Hy at 1; reflexivity | apply IH, Hx]. }
    rewrite Hx' in Hknown. apply XArrayFacts.mem_In, Hknown.
  - exact Hkeys.
  - unfold dict_of. apply fold_put_NoDup. constructor.
  - apply Forall_forall. intros [q l] Hin. simpl.
    unfold dict_of in Hin. destruct (fold_put_item _ _ _ _ Hin) as [[]|Hin'].
    unfold items in Hin'. apply in_map_iff in Hin'.
    destruct Hin' as (x & E & _). congruence.
  - apply sinks_keys in Hmade. unfold dict_of.
    apply fold_put_same_keys; [|reflexivity].
    rewrite Hmade. unfold items. rewrite map_map. simpl.
    rewrite filter_all_true.
    + rewrite map_map. reflexivity.
    + intros x Hx. apply in_map_iff in Hx. destruct Hx as (y & <- & Hy). simpl.
      apply XArrayFacts.mem_In, Hkeys. apply in_map_iff. exists y. tauto.
  - reflexivity.
Qed.

Lemma quantities_Lone known (parameters : list (Setting Options)) s :
  In (Lone s) parameters -> returns (quantities known parameters) = false.
Proof.
  induction parameters as [|p r IH]; simpl; intros H; [contradiction|].
  destruct H as [->|H]; [reflexivity|].
  destruct (quantity_of p); simpl; [|reflexivity].
  specialize (IH H). destruct (quantities known r); simpl; [discriminate|reflexivity].
Qed.

Lemma quantities_mappings known (parameters : list (Setting Options)) :
  (forall p, In p parameters -> exists q o, p = Mapping (Some q) o) ->
  exists found,
    quantities known parameters = Returns found
    /\ forall q o, In (Mapping (Some q) o) parameters ->
                   In (Mapping (Some q) o, q, XArray.mem q known) found.
Proof.
  induction parameters as [|p r IH]; simpl; intros H.
  - exists []. split; [reflexivity | intros q o []].
  - destruct (H p (or_introl eq_refl)) as (q & o & ->).
    destruct IH as (found & Hfound & Hin); [intros p Hp; apply H; tauto|].
    simpl. rewrite Hfound. simpl. eexists. split; [reflexivity|].
    intros q' o' [E|Hr]; [injection E as <- <-; left; reflexivity|].
    right. apply Hin, Hr.
Qed.

(** X20. OutputCache.__init__ never returns when a parameter is a lone
    string (indexing it raises), although the docstring allows lone
    strings; with mappings that all have a quantity, it raises ValueError
    as soon as one quantity is not registered. *)
Theorem init_rejects parameters output_quantities topic_ :
  let registry :=
    match output_quantities with
    | None => OUTPUT_QUANTITIES
    | Some given => given
    end in
  (forall s, In (Lone s) parameters ->
     returns (__init__ _factory OUTPUT_QUANTITIES parameters output_quantities topic_)
     = false)
  /\ ((forall p, In p parameters -> exists q o, p = Mapping (Some q) o) ->
      forall q o, In (Mapping (Some q) o) parameters ->
        XArray.mem q (map fst registry) = false ->
        __init__ _factory OUTPUT_QUANTITIES parameters output_quantities topic_
        = Raises (Builtin ValueError)).
Proof.
  intros registry. split.
  - intros s Hs. unfold __init__. fold registry.
    pose proof (quantities_Lone (map fst registry) _ _ Hs) as H.
    destruct (quantities (map fst registry) parameters); [discriminate|reflexivity].
  - intros Hall q o Hin Hq. unfold __init__. fold registry.
    destruct (quantities_mappings (map fst registry) _ Hall) as (found & Hfound & Hf).
    rewrite Hfound. simpl.
    specialize (Hf q o Hin). rewrite Hq in Hf.
    destruct (filter (fun pq : Setting Options * string * bool => negb (snd pq)) found)
      as [|x xs] eqn:E; [|reflexivity].
    exfalso.
    assert (Hx : In (Mapping (Some q) o, q, false)
                    (filter (fun pq : Setting Options * string * bool =>
                               negb (snd pq)) found))
      by (apply filter_In; split; [exact Hf | reflexivity]).
    rewrite E in Hx. destruct Hx.
Qed.

End init.

End CacheFacts.

(** ** The values of the objectives *)

Module ObjectiveValuesFacts.
Import XArray XArrayFacts Num NumFacts Py ObjectiveValues.
Import InnerSplitFacts ConservationFacts.

Section lcoe.

Variables Agent Technologies Prices Kwargs DatasetT ArrayT : Type.
Variable year_of : Agent -> Z.
Variable filter_technologies :
  Agent -> Technologies -> list string -> outcome (Filtered DatasetT ArrayT).
Variable filter_prices : Agent -> Prices -> outcome (Filtered DatasetT ArrayT).
Variable lifetimeLCOE :
  Filtered DatasetT ArrayT -> Filtered DatasetT ArrayT -> Z -> Kwargs
  -> outcome (DataArray num).

(** X23. lifetime_levelized_cost_of_energy (the LCOE objective) never
    returns: it asserts that the filtered technologies are a Dataset and
    then that the same object is a DataArray. When the search space has
    replacements and the filter of the technologies returns, it raises
    AssertionError, provided the technologies are no Dataset or the filter
    of the prices returns. *)
Theorem lcoe_never_returns agent search_space (technologies : Technologies)
    (prices : Prices) (kwargs : Kwargs) :
  returns (lifetime_levelized_cost_of_energy
             year_of filter_technologies filter_prices lifetimeLCOE
             agent search_space technologies prices kwargs) = false
  /\ forall replacement labels techs,
      coord search_space "replacement" = Ok replacement ->
      values replacement = Ok labels ->
      filter_technologies agent technologies labels = Returns techs ->
      (isinstance_Dataset DatasetT ArrayT techs = false
       \/ exists filtered, filter_prices agent prices = Returns filtered) ->
      lifetime_levelized_cost_of_energy
        year_of filter_technologies filter_prices lifetimeLCOE
        agent search_space technologies prices kwargs
      = Raises (Builtin AssertionError).
Proof.
  unfold lifetime_levelized_cost_of_energy. split.
  - destruct (coord search_space "replacement") as [replacement|e]; [|reflexivity].
    simpl. destruct (values replacement) as [labels|e]; [|reflexivity]. simpl.
    destruct (filter_technologies agent technologies labels) as [techs|e];
      [|reflexivity].
    simpl. destruct techs as [d|a|]; simpl; try reflexivity.
    destruct (filter_prices agent prices); reflexivity.
  - intros replacement labels techs H1 H2 H3 H.
    rewrite H1. simpl. rewrite H2. simpl. rewrite H3. simpl.
    destruct techs as [d|a|]; simpl; try reflexivity.
    destruct H as [H|(filtered & ->)]; [discriminate | reflexivity].
Qed.

End lcoe.

Section objectives.

Context {Agent TimeSlice : Type}.
Context {external : External Agent TimeSlice}.

(** X22. capacity_in_use raises UnboundLocalError whenever neither the
    market nor the coordinates of the search space hold represent_hours:
    its last branch reads the local variable hours before it is bound, so
    the hours are never taken from the timeslices of the market. It can
    return only when the search space holds them, if the market does not. *)
Theorem capacity_in_use_without_hours (agent : Agent) demand search_space
    technologies (market : Market TimeSlice) :
  represent_hours market = None ->
  capacity_in_use agent demand search_space None technologies market
  = Raises UnboundLocalError
  /\ forall coords_hours,
      returns (capacity_in_use agent demand search_space coords_hours
                               technologies market) = true ->
      coords_hours <> None.
Proof.
  intros H. unfold capacity_in_use. rewrite H. split; [reflexivity|].
  intros [hours|]; [discriminate|]. simpl. discriminate.
Qed.

End objectives.

(** *** The capacity that services a demand *)

Lemma upd_self ix d : upd ix d (ix d) = ix.
Proof.
  apply functional_extensionality. intros d'. unfold upd.
  destruct (String.eqb d d') eqn:E; [|reflexivity].
  apply String.eqb_eq in E. subst d'. reflexivity.
Qed.

Lemma fold_fmax2_Fin {A} (f : A -> Q) l x :
  fold_left fmax2 (map (fun a => Fin (f a)) l) (Fin x)
  = Fin (fold_left qmax (map f l) x).
Proof.
  revert x. induction l as [|a l IH]; intros x; simpl; [reflexivity|]. apply IH.
Qed.

Lemma fold_qmax_ge l x :
  x <= fold_left qmax l x /\ forall y, In y l -> y <= fold_left qmax l x.
Proof.
  revert x. induction l as [|a l IH]; intros x; simpl.
  - split; [lra | intros y []].
  - destruct (IH (qmax x a)) as [H1 H2].
    assert (Hx : x <= qmax x a /\ a <= qmax x a).
    { unfold qmax. destruct (Qle_bool x a) eqn:E.
      - apply Qle_bool_iff in E. lra.
      - assert (~ x <= a) by (rewrite <- Qle_bool_iff; congruence). lra. }
    split; [lra|]. intros y [<-|Hy]; [lra | apply H2, Hy].
Qed.

Lemma lookup_app {V} d (l l' : list (string * V)) :
  lookup d (l ++ l')
  = match lookup d l with
    | Some v => Some v
    | None => lookup d l'
    end.
Proof.
  induction l as [|[k v] r IH]; [reflexivity|].
  rewrite <- app_comm_cons, !SearchSpaceFacts.lookup_cons.
  destruct (String.eqb d k); [reflexivity | exact IH].
Qed.

Lemma lookup_filter_None d (p : string * list string -> bool) (ds : Dims) :
  lookup d ds = None -> lookup d (filter p ds) = None.
Proof.
  induction ds as [|[k v] r IH]; [reflexivity|].
  rewrite SearchSpaceFacts.lookup_cons. cbn [filter].
  destruct (String.eqb d k) eqn:E; [discriminate|]. intros H.
  destruct (p (k, v)); [|apply IH, H].
  rewrite SearchSpaceFacts.lookup_cons, E. apply IH, H.
Qed.

Lemma lookup_replace_same d ls' (ds : Dims) ls :
  lookup d ds = Some ls -> lookup d (replace_dim d (d, ls') ds) = Some ls'.
Proof.
  unfold replace_dim. induction ds as [|[k v] r IH]; [discriminate|].
  rewrite SearchSpaceFacts.lookup_cons. cbn [map fst].
  destruct (String.eqb d k) eqn:E.
  - intros _. rewrite SearchSpaceFacts.lookup_cons, String.eqb_refl. reflexivity.
  - intros H. rewrite SearchSpaceFacts.lookup_cons, E. apply IH, H.
Qed.

Lemma lookup_replace_other d d' ls' (ds : Dims) :
  d <> d' -> lookup d' (replace_dim d (d, ls') ds) = lookup d' ds.
Proof.
  intros Hne. unfold replace_dim. induction ds as [|[k v] r IH]; [reflexivity|].
  cbn [map fst]. destruct (String.eqb d k) eqn:E.
  - apply String.eqb_eq in E. subst k.
    rewrite !SearchSpaceFacts.lookup_cons.
    replace (String.eqb d' d) with false
      by (symmetry; apply String.eqb_neq; congruence).
    exact IH.
  - rewrite !SearchSpaceFacts.lookup_cons, IH. reflexivity.
Qed.

Lemma lookup_join d (dx dy : Dims) ls :
  lookup d dx = Some ls ->
  lookup d (join_dims dx dy)
  = Some match lookup d dy with
         | Some ls' => filter (fun l => mem l ls') ls
         | None => ls
         end.
Proof.
  intros H. unfold join_dims. rewrite lookup_app.
  assert (Hm : lookup d
                 (map (fun dl : string * list string =>
                         let (d0, ls0) := dl in
                         match lookup d0 dy with
                         | Some ls' => (d0, filter (fun l => mem l ls') ls0)
                         | None => (d0, ls0)
                         end) dx)
               = Some match lookup d dy with
                      | Some ls' => filter (fun l => mem l ls') ls
                      | None => ls
                      end).
  { induction dx as [|[k v] r IH]; [discriminate|].
    rewrite SearchSpaceFacts.lookup_cons in H. cbn [map].
    destruct (String.eqb d k) eqn:E.
    - apply String.eqb_eq in E. subst k. injection H as ->.
      destruct (lookup d dy); rewrite SearchSpaceFacts.lookup_cons, String.eqb_refl;
        reflexivity.
    - destruct (lookup k dy); rewrite SearchSpaceFacts.lookup_cons, E; apply IH, H. }
  rewrite Hm. reflexivity.
Qed.

Lemma lookup_join_None d (dx dy : Dims) :
  lookup d dx = None -> lookup d dy = None -> lookup d (join_dims dx dy) = None.
Proof.
  intros Hx Hy. unfold join_dims. rewrite lookup_app.
  rewrite (lookup_filter_None _ _ _ Hy).
  induction dx as [|[k v] r IH]; [reflexivity|].
  rewrite SearchSpaceFacts.lookup_cons in Hx. cbn [map].
  destruct (String.eqb d k) eqn:E; [discriminate|].
  destruct (lookup k dy); rewrite SearchSpaceFacts.lookup_cons, E; apply IH, Hx.
Qed.

Lemma exact_dims_Ok dx dy ds :
  exact_dims dx dy = Ok ds ->
  ds = (dx ++ filter (fun dl : string * list string => negb (has_dim (fst dl) dx)) dy)%list.
Proof.
  unfold exact_dims. destruct (forallb _ dx); [|discriminate]. congruence.
Qed.

Lemma where_dims {A} (x : DataArray A) cond other y :
  where_ x cond other = Ok y ->
  dims y
  = (dims x ++ filter (fun dl : string * list string =>
                         negb (has_dim (fst dl) (dims x))) (dims cond))%list.
Proof.
  unfold where_. intros H. bind_inv H as ds Hds. injection H as <-.
  apply exact_dims_Ok, Hds.
Qed.

Lemma sel_spec {A} d (indexer : DataArray string) (x y : DataArray A) :
  sel d indexer x = Ok y ->
  exists ls d' ls',
    lookup d (dims x) = Some ls
    /\ dims indexer = [(d', ls')]
    /\ dims y = replace_dim d (d', ls') (dims x)
    /\ forall ix, val y ix = val x (upd ix d (val indexer ix)).
Proof.
  unfold sel. destruct (lookup d (dims x)) as [ls|]; [|discriminate].
  destruct (dims indexer) as [|[d' ls'] [|? ?]]; try discriminate.
  destruct (negb (String.eqb d d') && has_dim d' (dims x)); [discriminate|].
  destruct (forallb _ ls'); [|discriminate].
  intros [= <-]. exists ls, d', ls'. repeat split; reflexivity.
Qed.

Section capacity.

Context {Agent TimeSlice : Type}.
Context {external : External Agent TimeSlice}.

(** X21. When capacity_to_service_demand returns, the capacity covers the
    demand of every commodity and timeslice of the demand (the timeslices
    are those of the demand when the fixed outputs do not vary with the
    timeslice): where the fixed output of the commodity, the utilization
    factor, the longest timeslice and the total of the hours are positive,
    the capacity is finite and capacity x utilization factor x (longest
    timeslice / total hours) x fixed output is at least the demand. *)
Theorem capacity_to_service_demand_suffices (agent : Agent) demand search_space
    coords_hours technologies (market : Market TimeSlice) out :
  capacity_to_service_demand agent demand search_space coords_hours
                             technologies market = Ok out ->
  exists selected replacement fixed_outputs utilization_factor longest
         commodities timeslices,
    getitems ["utilization_factor"; "fixed_outputs"] (data_vars technologies)
    = Ok selected
    /\ coord search_space "replacement" = Ok replacement
    /\ (let params :=
          filter_dataset agent selected
                         {| year := Some (agent_year agent);
                            region := Some (agent_region agent);
                            technology := Some replacement |} in
        getattr params "fixed_outputs" = Ok fixed_outputs
        /\ getattr params "utilization_factor" = Ok utilization_factor)
    /\ lookup "commodity" (dims demand) = Some commodities
    /\ (has_dim "timeslice" (dims fixed_outputs) = false ->
        lookup "timeslice" (dims demand) = Some timeslices)
    /\ let hours :=
         match represent_hours market with
         | Some hours => hours
         | None =>
             match coords_hours with
             | Some hours => hours
             | None => timeslice_hours (timeslice market)
             end
         end in
       max_all hours = Ok longest
       /\ forall ix c t,
           In c commodities -> In t timeslices ->
           let cell := upd (upd ix "timeslice" t) "commodity" c in
           0 < val fixed_outputs cell ->
           0 < val utilization_factor ix ->
           0 < longest -> 0 < sum_all hours ->
           exists q,
             val out ix = Fin q
             /\ val demand cell
                <= q * val utilization_factor ix * (longest / sum_all hours)
                   * val fixed_outputs cell.
Proof.
  intros H. unfold capacity_to_service_demand in H.
  bind_inv H as selected Hselected. bind_inv H as replacement Hreplacement.
  set (params := filter_dataset agent selected _) in *.
  set (hours := match represent_hours market with
                | Some hours => hours
                | None => _
                end) in *.
  bind_inv H as longest Hlongest. bind_inv H as fixed_outputs Hfo.
  bind_inv H as commodity Hcommodity. bind_inv H as co Hco.
  bind_inv H as demanded Hdemanded. bind_inv H as output Houtput.
  bind_inv H as oc Hoc. bind_inv H as md Hmd.
  bind_inv H as utilization_factor Huf. injection H as <-.
  set (produced := amap (fun q => Qgtb q 0) co) in *.
  set (needed := binop (fun d o => fdiv (Fin d) (Fin o)) demanded output) in *.
  (* the labels *)
  apply FiltersFacts.coord_dims in Hcommodity.
  destruct Hcommodity as (cs & Hcs & ->).
  destruct (sel_spec _ _ _ _ Hco) as (ls & d' & ls' & Hls & E & Hcodims & Hcoval).
  injection E as <- <-. simpl in Hcoval.
  pose proof (where_dims _ _ _ _ Hdemanded) as Hdd.
  pose proof (where_dims _ _ _ _ Houtput) as Hod.
  assert (Hcs_co : lookup "commodity" (dims co) = Some cs)
    by (rewrite Hcodims; apply (lookup_replace_same _ _ _ _ Hls)).
  assert (Hcs_needed : lookup "commodity" (dims needed) = Some cs).
  { unfold needed. simpl. rewrite (lookup_join _ _ _ cs).
    - rewrite Hod, lookup_app, Hcs_co, filter_mem_self. reflexivity.
    - rewrite Hdd, lookup_app, Hcs. reflexivity. }
  unfold max_ in Hoc. rewrite Hcs_needed in Hoc.
  destruct cs as [|c0 cs']; [discriminate|]. injection Hoc as <-.
  unfold max_ in Hmd. cbn [dims] in Hmd.
  rewrite SearchSpaceFacts.lookup_remove_dim in Hmd by discriminate.
  destruct (lookup "timeslice" (join_dims (dims demanded) (dims output)))
    as [[|t0 ts']|] eqn:Ets; try discriminate.
  injection Hmd as <-.
  exists selected, replacement, fixed_outputs, utilization_factor, longest,
         (c0 :: cs'), (t0 :: ts').
  split; [exact Hselected|]. split; [exact Hreplacement|].
  split; [split; assumption|]. split; [exact Hcs|]. split.
  { intros Hnone. unfold has_dim in Hnone.
    destruct (lookup "timeslice" (dims fixed_outputs)) eqn:Efo; [discriminate|].
    assert (Hco_ts : lookup "timeslice" (dims co) = None).
    { rewrite Hcodims, lookup_replace_other by discriminate. exact Efo. }
    assert (Hout_ts : lookup "timeslice" (dims output) = None).
    { rewrite Hod, lookup_app, Hco_ts. apply lookup_filter_None. exact Hco_ts. }
    destruct (lookup "timeslice" (dims demand)) as [ts|] eqn:Ed.
    - rewrite (lookup_join _ _ _ ts) in Ets
        by (rewrite Hdd, lookup_app, Ed; reflexivity).
      rewrite Hout_ts in Ets. exact Ets.
    - rewrite lookup_join_None in Ets; [discriminate| |exact Hout_ts].
      rewrite Hdd, lookup_app, Ed. apply lookup_filter_None. exact Hco_ts. }
  split; [exact Hlongest|].
  (* the values *)
  set (nq := fun ix : Index =>
               (if Qgtb (val fixed_outputs ix) 0 then val demand ix else 0)
               / (if Qgtb (val fixed_outputs ix) 0 then val fixed_outputs ix else 1)).
  assert (Hneeded : forall ix, val needed ix = Fin (nq ix)).
  { intros ix. unfold needed, nq. simpl.
    rewrite (InnerSplitFacts.where_val _ _ _ _ Hdemanded ix).
    rewrite (InnerSplitFacts.where_val _ _ _ _ Houtput ix).
    unfold produced. simpl. rewrite Hcoval, upd_self.
    destruct (Qgtb (val fixed_outputs ix) 0) eqn:Eg.
    - apply Qgtb_true in Eg.
      replace (sgn (val fixed_outputs ix)) with Gt
        by (symmetry; apply sgn_Gt; exact Eg).
      reflexivity.
    - reflexivity. }
  set (mq := fun ix : Index =>
               fold_left qmax (map (fun c' => nq (upd ix "commodity" c')) cs')
                         (nq (upd ix "commodity" c0))).
  intros ix c t Hc Ht cell Hpos Huf_pos Hlong Hsum.
  set (M := fold_left qmax (map (fun t' => mq (upd ix "timeslice" t')) ts')
                      (mq (upd ix "timeslice" t0))).
  set (raw := fold_left fmax2
                (map (fun l' =>
                        fold_left fmax2
                          (map (fun l'' =>
                                  val needed (upd (upd ix "timeslice" l')
                                                  "commodity" l''))
                               cs')
                          (val needed (upd (upd ix "timeslice" l') "commodity" c0)))
                     ts')
                (fold_left fmax2
                   (map (fun l'' =>
                           val needed (upd (upd ix "timeslice" t0) "commodity" l''))
                        cs')
                   (val needed (upd (upd ix "timeslice" t0) "commodity" c0)))).
  assert (Hmd : raw = Fin M).
  { unfold raw, M. rewrite <- (fold_fmax2_Fin (fun t' => mq (upd ix "timeslice" t'))).
    assert (Hrow : forall ix',
               fold_left fmax2
                 (map (fun l'' => val needed (upd ix' "commodity" l'')) cs')
                 (val needed (upd ix' "commodity" c0))
               = Fin (mq ix')).
    { intros ix'. unfold mq.
      rewrite <- (fold_fmax2_Fin (fun c' => nq (upd ix' "commodity" c'))).
      rewrite Hneeded. f_equal. apply map_ext. intros c'. apply Hneeded. }
    rewrite Hrow. f_equal. apply map_ext. intros t'. apply Hrow. }
  exists (M / val utilization_factor ix / (longest / sum_all hours)). split.
  - change (fdiv (fdiv raw (Fin (val utilization_factor ix)))
                 (fdiv (Fin longest) (Fin (sum_all hours)))
            = Fin (M / val utilization_factor ix / (longest / sum_all hours))).
    rewrite Hmd. simpl.
    replace (sgn (val utilization_factor ix)) with Gt
      by (symmetry; apply sgn_Gt; exact Huf_pos).
    replace (sgn (sum_all hours)) with Gt by (symmetry; apply sgn_Gt; exact Hsum).
    simpl.
    assert (Hmh : 0 < longest / sum_all hours) by (apply Qlt_shift_div_l; lra).
    replace (sgn (longest / sum_all hours)) with Gt
      by (symmetry; apply sgn_Gt; exact Hmh).
    reflexivity.
  - assert (Hmh : 0 < longest / sum_all hours) by (apply Qlt_shift_div_l; lra).
    assert (HM : nq cell <= M).
    { assert (Hrow : nq cell <= mq (upd ix "timeslice" t)).
      { unfold mq, cell. destruct (fold_qmax_ge
                  (map (fun c' => nq (upd (upd ix "timeslice" t) "commodity" c')) cs')
                  (nq (upd (upd ix "timeslice" t) "commodity" c0))) as [H0 Hr].
        destruct Hc as [<-|Hc]; [exact H0|].
        apply Hr. apply in_map_iff. exists c. split; [reflexivity | exact Hc]. }
      unfold M. destruct (fold_qmax_ge
                  (map (fun t' => mq (upd ix "timeslice" t')) ts')
                  (mq (upd ix "timeslice" t0))) as [H0 Hr].
      apply (Qle_trans _ _ _ Hrow).
      destruct Ht as [<-|Ht]; [exact H0|].
      apply Hr. apply in_map_iff. exists t. split; [reflexivity | exact Ht]. }
    assert (Hcell : nq cell == val demand cell / val fixed_outputs cell).
    { unfold nq. apply Qgtb_true in Hpos. rewrite Hpos. reflexivity. }
    rewrite Hcell in HM.
    assert (Hd : val demand cell <= M * val fixed_outputs cell).
    { assert (Hd : val demand cell
                   == val demand cell / val fixed_outputs cell
                      * val fixed_outputs cell) by (field; lra).
      rewrite Hd at 1. apply Qmult_le_compat_r; [exact HM | lra]. }
    assert (Hq : M / val utilization_factor ix / (longest / sum_all hours)
                 * val utilization_factor ix * (longest / sum_all hours)
                 * val fixed_outputs cell
                 == M * val fixed_outputs cell) by (field; lra).
    rewrite Hq. exact Hd.
Qed.

End capacity.

(** *** The capital recovery factor and the discount factors *)

Lemma Qpower_succ r (k : nat) :
  ~ r == 0 -> Qpower r (Z.of_nat (S k)) == r * Qpower r (Z.of_nat k).
Proof.
  intros Hr. rewrite Nat2Z.inj_succ. unfold Z.succ.
  rewrite Qpower_plus by exact Hr. simpl. ring.
Qed.

Lemma Qpower_above_one r (k : nat) : 1 < r -> 1 <= Qpower r (Z.of_nat k).
Proof.
  intros Hr. induction k as [|k IH].
  - simpl. lra.
  - assert (Hr' : ~ r == 0) by lra.
    rewrite (Qpower_succ r k Hr'). nra.
Qed.

(** The discount factors of the years 1 to [n], summed. *)
Lemma discounts_sum i (n : nat) :
  0 < i ->
  Qsum (map (fun k => 1 / Qpower (1 + i) (Z.of_nat k)) (seq 1 n)) * i
  == 1 - 1 / Qpower (1 + i) (Z.of_nat n).
Proof.
  intros Hi. induction n as [|n IH].
  - simpl. field.
  - rewrite seq_S, map_app, Qsum_app. simpl (1 + n)%nat.
    cbn [map]. unfold Qsum at 2. cbn [fold_right].
    rewrite Qmult_plus_distr_l, IH.
    pose proof (Qpower_above_one (1 + i) n ltac:(lra)) as Hn.
    assert (Hr : ~ 1 + i == 0) by lra.
    rewrite (Qpower_succ (1 + i) n Hr). field. split; lra.
Qed.

Lemma astype_int_years (x : Q) (z : Z) :
  (0 <= z <= int64_max)%Z ->
  inject_Z z <= x -> x < inject_Z z + 1 ->
  astype_int x = z.
Proof.
  intros Hz Hlo Hhi. unfold astype_int.
  assert (H0 : 0 <= x).
  { apply Qle_trans with (inject_Z z); [|exact Hlo].
    change 0 with (inject_Z 0). rewrite <- Zle_Qle. lia. }
  apply Qle_bool_iff in H0. rewrite H0.
  assert (Hf : Qfloor x = z).
  { apply Z.le_antisymm.
    - apply Z.lt_succ_r. rewrite Zlt_Qlt.
      apply Qle_lt_trans with x; [apply Qfloor_le|].
      unfold Z.succ. rewrite inject_Z_plus. exact Hhi.
    - rewrite <- (Qfloor_Z z). apply Qfloor_resp_le, Hlo. }
  rewrite Hf.
  replace (int64_min <=? z)%Z with true
    by (symmetry; apply Z.leb_le; unfold int64_min; lia).
  replace (z <=? int64_max)%Z with true by (symmetry; apply Z.leb_le; lia).
  reflexivity.
Qed.

Section annuity.

Context {Agent TimeSlice : Type}.
Context {external : External Agent TimeSlice}.

(** X24. When capital_recovery_factor returns, at a technology with a
    positive interest rate i and a technical life that truncates to n
    years, with n at least 1 and within the 64 bits of the integers that
    the life is cast to, the factor is finite and is the inverse of the
    annuity: multiplied by the sum of the discount factors of the years 1
    to n (discount_factor at rate i with mask 1), it gives 1. *)
Theorem capital_recovery_annuity (agent : Agent) search_space technologies crf :
  capital_recovery_factor agent search_space technologies = Ok crf ->
  exists selected replacement technical_life interest_rate,
    getitems ["technical_life"; "interest_rate"] (data_vars technologies) = Ok selected
    /\ coord search_space "replacement" = Ok replacement
    /\ (let tech :=
          filter_dataset agent selected
                         {| year := Some (agent_year agent);
                            region := None;
                            technology := Some replacement |} in
        getattr tech "technical_life" = Ok technical_life
        /\ getattr tech "interest_rate" = Ok interest_rate)
    /\ forall ix (n : nat),
      let i := val interest_rate ix in
      0 < i ->
      (Z.of_nat (S n) <= int64_max)%Z ->
      inject_Z (Z.of_nat (S n)) <= val technical_life ix ->
      val technical_life ix < inject_Z (Z.of_nat (S n)) + 1 ->
      exists c,
        val crf ix = Fin c
        /\ forall years mask (y : nat -> Index),
            (forall k, In k (seq 1 (S n)) ->
                       val years (y k) = Z.of_nat k
                       /\ val interest_rate (y k) = i
                       /\ val mask (y k) = 1) ->
            exists s,
              DemandShare.fsum
                (map (fun k => val (discount_factor years interest_rate mask) (y k))
                     (seq 1 (S n)))
              = Fin s
              /\ c * s == 1.
Proof.
  intros H. unfold capital_recovery_factor in H.
  bind_inv H as selected Hselected. bind_inv H as replacement Hreplacement.
  bind_inv H as technical_life Hlife. bind_inv H as interest_rate Hrate.
  bind_inv H as interest_rate' Hrate'. injection H as <-.
  rewrite Hrate in Hrate'. injection Hrate' as <-.
  exists selected, replacement, technical_life, interest_rate.
  split; [exact Hselected|]. split; [exact Hreplacement|].
  split; [split; assumption|].
  intros ix n i Hi Hfits Hlo Hhi.
  assert (Hn : astype_int (val technical_life ix) = Z.of_nat (S n))
    by (apply astype_int_years; [lia | exact Hlo | exact Hhi]).
  pose proof (Qpower_above_one (1 + i) (S n) ltac:(lra)) as Hp.
  pose proof (Qpower_above_one (1 + i) n ltac:(lra)) as Hp'.
  assert (Hgt : 1 < Qpower (1 + i) (Z.of_nat (S n))).
  { assert (Hr : ~ 1 + i == 0) by lra.
    rewrite (Qpower_succ (1 + i) n Hr). nra. }
  set (p := Qpower (1 + i) (Z.of_nat (S n))) in *.
  exists (i / (1 - 1 / p)). split.
  - simpl. fold i. rewrite Hn. unfold fpow.
    replace (Z.of_nat (S n) <? 0)%Z with false by (symmetry; apply Z.ltb_ge; lia).
    cbn [andb]. fold p. simpl.
    replace (sgn p) with Gt by (symmetry; apply sgn_Gt; lra).
    simpl.
    assert (Hd : 0 < 1 + - (1 / p)).
    { assert (1 / p < 1); [|lra]. apply Qlt_shift_div_r; lra. }
    replace (sgn (1 + - (1 / p))) with Gt by (symmetry; apply sgn_Gt; exact Hd).
    reflexivity.
  - intros years mask y Hy.
    exists (Qsum (map (fun k => 1 / Qpower (1 + i) (Z.of_nat k)) (seq 1 (S n)))).
    split.
    + rewrite <- fsum_Fin. f_equal. apply map_ext_in. intros k Hk.
      destruct (Hy k Hk) as (Hyears & Hrates & Hmask). simpl.
      rewrite Hyears, Hrates, Hmask. unfold fpow.
      replace (Z.of_nat k <? 0)%Z with false by (symmetry; apply Z.ltb_ge; lia).
      cbn [andb]. simpl.
      pose proof (Qpower_above_one (1 + i) k ltac:(lra)) as Hk'.
      replace (sgn (Qpower (1 + i) (Z.of_nat k))) with Gt
        by (symmetry; apply sgn_Gt; lra).
      reflexivity.
    + pose proof (discounts_sum i (S n) Hi) as Hs. fold p in Hs.
      assert (Hd : 0 < 1 - 1 / p).
      { assert (1 / p < 1); [|lra]. apply Qlt_shift_div_r; lra. }
      set (s := Qsum _) in *.
      assert (Hs' : s == (1 - 1 / p) / i) by (rewrite <- Hs; field; lra).
      rewrite Hs'. field. split; lra.
Qed.

End annuity.

End ObjectiveValuesFacts.

(** ** The split of a demand, agent by agent *)

Module SplitFacts.
Import XArray XArrayFacts Num NumFacts DemandShare.
Import InnerSplitFacts ConservationFacts ObjectiveValuesFacts.

Lemma rename_has_dim {A} old new (x y : DataArray A) :
  rename old new x = Ok y -> exists ls, lookup new (dims y) = Some ls.
Proof.
  unfold rename. destruct (has_dim old (dims x)) eqn:E; [|discriminate].
  intros [= <-]. cbn [dims]. unfold has_dim in E.
  induction (dims x) as [|[k v] r IH]; [discriminate|].
  rewrite SearchSpaceFacts.lookup_cons in E. cbn [rename_dim map fst snd].
  destruct (String.eqb old k).
  - rewrite SearchSpaceFacts.lookup_cons, String.eqb_refl. eauto.
  - rewrite SearchSpaceFacts.lookup_cons.
    destruct (String.eqb new k); [eauto | apply IH, E].
Qed.

Lemma references_have_assets method assets shares :
  map_values (reference method) assets = Ok shares ->
  Forall (fun us : string * DataArray Q =>
            exists ls, lookup "asset" (dims (snd us)) = Some ls)
         shares.
Proof.
  revert shares. induction assets as [|[u a] r IH]; simpl; intros shares H.
  - injection H as <-. constructor.
  - bind_inv H as share Hshare. bind_inv H as rest Hrest. injection H as <-.
    constructor; [|apply IH, Hrest].
    unfold reference in Hshare. bind_inv Hshare as grouped Hgrouped.
    apply (rename_has_dim _ _ _ _ Hshare).
Qed.

(** The assets of a sum of arrays: those of the first that the others have
    too. *)
Lemma py_sum_assets (l : list (DataArray Q)) y ly summed :
  Forall (fun x => exists ls, lookup "asset" (dims x) = Some ls) l ->
  lookup "asset" (dims y) = Some ly ->
  fold_left py_add l (PyArr y) = PyArr summed ->
  lookup "asset" (dims summed)
  = Some (filter (fun a =>
                    forallb (fun x =>
                               match lookup "asset" (dims x) with
                               | Some ls => mem a ls
                               | None => false
                               end) l)
                 ly).
Proof.
  intros Hall. revert y ly.
  induction Hall as [|x r [lx Hx] _ IH]; intros y ly Hy H.
  - simpl in H. injection H as <-. rewrite Hy. f_equal.
    symmetry. apply forallb_filter_id. apply forallb_forall. reflexivity.
  - cbn [fold_left py_add] in H.
    assert (Hj : lookup "asset" (dims (binop Qplus y x))
                 = Some (filter (fun a => mem a lx) ly)).
    { cbn [binop dims]. rewrite (lookup_join _ _ _ _ Hy), Hx. reflexivity. }
    rewrite (IH _ _ Hj H).
    f_equal. rewrite SearchSpaceFacts.filter_filter. apply filter_ext.
    intros a. cbn [forallb]. rewrite Hx. reflexivity.
Qed.




(** The shape of a successful split: the reference quantities, the assets
    that all the agents have, the total of the reference quantities over
    the agents and these assets, and every entry of every share. *)
Lemma inner_split_shape assets demand method split :
  _inner_split assets demand method = Ok split ->
  exists shares us0 rest first total,
    map_values (reference method) assets = Ok shares
    /\ shares = us0 :: rest
    /\ lookup "asset" (dims (snd us0)) = Some first
    /\ let labels :=
         filter (fun a =>
                   forallb (fun us : string * DataArray Q =>
                              match lookup "asset" (dims (snd us)) with
                              | Some ls => mem a ls
                              | None => false
                              end) shares)
                first in
       (forall ix,
           val total ix
           == Qsum (map (fun a =>
                           Qsum (map (fun us : string * DataArray Q =>
                                        val (snd us) (upd ix "asset" a))
                                     shares))
                        labels))
       /\ (forall ix a, val total (upd ix "asset" a) = val total ix)
       /\ Forall2
            (fun (us : string * DataArray Q) (ur : string * DataArray num) =>
               fst ur = fst us
               /\ forall ix,
                   val (snd ur) ix
                   = fadd (proportional (val (snd us) ix) (val total ix)
                                        (val demand ix))
                          (equal_part (val total ix) (val demand ix)
                                      (Z.of_nat (List.length shares)
                                       * Z.of_nat (List.length labels))))
            shares split.
Proof.
  intros H.
  destruct (inner_split_entries _ _ _ _ H)
    as (shares & summed & total & labels & Hshares & Hsum & Htotal & Hlabels & Hall).
  pose proof (references_have_assets _ _ _ Hshares) as Hassets.
  destruct shares as [|us0 rest]; [discriminate|].
  inversion Hassets as [|? ? [first Hfirst] Hrest]; subst.
  exists (us0 :: rest), us0, rest, first, total.
  split; [exact Hshares|]. split; [reflexivity|]. split; [exact Hfirst|].
  assert (Hl : labels
               = filter (fun a =>
                           forallb (fun us : string * DataArray Q =>
                                      match lookup "asset" (dims (snd us)) with
                                      | Some ls => mem a ls
                                      | None => false
                                      end) (us0 :: rest))
                        first).
  { unfold py_sum in Hsum. cbn [map fold_left py_add] in Hsum.
    assert (Hr : Forall (fun x : DataArray Q =>
                           exists ls, lookup "asset" (dims x) = Some ls)
                        (map snd rest))
      by (apply Forall_map; exact Hrest).
    rewrite (py_sum_assets (map snd rest) (amap (Qplus (inject_Z 0)) (snd us0))
                           first summed Hr Hfirst Hsum) in Hlabels.
    injection Hlabels as <-. apply filter_ext_in. intros a Ha.
    cbn [forallb]. rewrite Hfirst.
    replace (mem a first) with true by (symmetry; apply mem_In, Ha).
    cbn [andb]. clear. induction rest as [|us r IHr]; [reflexivity|].
    cbn [map forallb]. rewrite IHr. reflexivity. }
  cbv zeta. rewrite <- Hl. split; [|split].
  - intros ix. unfold sum_, reduce in Htotal. rewrite Hlabels in Htotal.
    injection Htotal as <-. cbn [val]. apply Qsum_ext. intros a _.
    rewrite (py_sum_val _ _ _ Hsum). cbn [inject_Z]. rewrite map_map.
    change (inject_Z 0) with 0. ring.
  - intros ix a. unfold sum_, reduce in Htotal. rewrite Hlabels in Htotal.
    injection Htotal as <-. cbn [val]. f_equal. apply map_ext.
    intros l. rewrite upd_upd. reflexivity.
  - rewrite <- (map_values_length _ _ _ Hshares) in Hall. exact Hall.
Qed.


(** X9. In a cell of a successful _inner_split whose agents have at least
    one asset in common, whose demand does not vary with the asset and
    whose reference quantities are non-negative, the shares summed over
    all agents and over the assets common to the agents equal the demand
    when the reference total exceeds 1e-12, and when the total is zero and
    the demand exceeds 1e-12; they are zero when the total is zero and the
    demand is at most 1e-12. *)
Theorem inner_split_conserves assets demand method split :
  _inner_split assets demand method = Ok split ->
  exists shares us0 rest first total,
    map_values (reference method) assets = Ok shares
    /\ shares = us0 :: rest
    /\ lookup "asset" (dims (snd us0)) = Some first
    /\ let labels :=
         filter (fun a =>
                   forallb (fun us : string * DataArray Q =>
                              match lookup "asset" (dims (snd us)) with
                              | Some ls => mem a ls
                              | None => false
                              end) shares)
                first in
       (forall ix,
           val total ix
           == Qsum (map (fun a =>
                           Qsum (map (fun us : string * DataArray Q =>
                                        val (snd us) (upd ix "asset" a))
                                     shares))
                        labels))
       /\ forall ix,
           labels <> [] ->
           (forall a, val demand (upd ix "asset" a) = val demand ix) ->
           (forall us a, In us shares -> In a labels ->
                         0 <= val (snd us) (upd ix "asset" a)) ->
           exists q,
             fsum (flat_map (fun ur : string * DataArray num =>
                               map (fun a => val (snd ur) (upd ix "asset" a)) labels)
                            split)
             = Fin q
             /\ (tol < val total ix -> q == val demand ix)
             /\ (val total ix == 0 -> tol < val demand ix -> q == val demand ix)
             /\ (val total ix == 0 -> val demand ix <= tol -> q == 0).
Proof.
  intros H.
  destruct (inner_split_shape _ _ _ _ H)
    as (shares & us0 & rest & first & total & Hshares & Hcons & Hfirst & Hshape).
  exists shares, us0, rest, first, total.
  split; [exact Hshares|]. split; [exact Hcons|]. split; [exact Hfirst|].
  cbv zeta in Hshape |- *. destruct Hshape as (Htotal & Htot & Hall).
  set (labels := filter _ first) in *.
  split; [exact Htotal|].
  intros ix Hne Hdemand Hpos.
  set (refs := flat_map (fun us : string * DataArray Q =>
                           map (fun a => val (snd us) (upd ix "asset" a)) labels)
                        shares).
  assert (Hlen : List.length refs = (List.length shares * List.length labels)%nat).
  { unfold refs. apply flat_map_length_const. intros u. apply length_map. }
  assert (Hentries :
    flat_map (fun ur : string * DataArray num =>
                map (fun a => val (snd ur) (upd ix "asset" a)) labels) split
    = cell_entries refs (val total ix) (val demand ix)).
  { unfold cell_entries. rewrite Hlen, Nat2Z.inj_mul.
    unfold refs. apply (flat_map_Forall2 _ _ _ _ _ _ Hall).
    intros [u s] [u' r] [_ Hv]. simpl. rewrite map_map. apply map_ext.
    intros a. simpl in Hv. rewrite Hv, Htot, Hdemand. reflexivity. }
  rewrite Hentries.
  apply split_conserves_outside_band.
  - unfold refs. rewrite Hcons.
    destruct labels as [|a labels']; [congruence|]. discriminate.
  - unfold refs. apply Forall_forall. intros x Hx. apply in_flat_map in Hx.
    destruct Hx as (us & Hus & Hx). apply in_map_iff in Hx.
    destruct Hx as (a & <- & Ha). apply (Hpos us a Hus Ha).
  - unfold refs.
    rewrite (Qsum_swap (fun (us : string * DataArray Q) a =>
                          val (snd us) (upd ix "asset" a))).
    symmetry. apply Htotal.
Qed.

End SplitFacts.

(** ** The objectives of the settings *)

Module ObjectiveFactoryFacts.
Import XArray ObjectiveFactory.

Lemma nodup_shorter (l : list string) :
  (List.length (nodup string_dec l) <= List.length l)%nat.
Proof.
  induction l as [|a l IH]; simpl; [lia|].
  destruct (in_dec string_dec a l); simpl; lia.
Qed.

Lemma distinct_full names :
  distinct names = List.length names <-> NoDup names.
Proof.
  unfold distinct. split.
  - induction names as [|a l IH]; simpl; [constructor|].
    destruct (in_dec string_dec a l) as [Hin|Hout]; simpl; intros H.
    + pose proof (nodup_shorter l). lia.
    + constructor; [exact Hout | apply IH; lia].
  - intros H. rewrite (nodup_fixed_point string_dec H). reflexivity.
Qed.

Section factory.

Variables Value Agent Demand Args Array Dataset : Type.
Variable with_coords : DataArray bool -> Dataset.
Variable setitem : Dataset -> string -> Array -> Dataset.
Variable OBJECTIVES : list (string * Objective Value Agent Demand Args Array).

Local Abbreviation factory := (factory with_coords setitem OBJECTIVES).
Local Abbreviation functions_of := (functions_of OBJECTIVES).

Implicit Types params : list (SearchSpace.Mapping Value).

Lemma names_of_length params names :
  names_of params = Ok names -> List.length names = List.length params.
Proof.
  revert names. induction params as [|p r IH]; intros names H; simpl in H.
  - injection H as <-. reflexivity.
  - bind_inv H as n Hn. bind_inv H as rest Hrest. injection H as <-.
    simpl. rewrite (IH rest Hrest). reflexivity.
Qed.

Lemma names_of_error params e : names_of params = Raise e -> e = KeyError.
Proof.
  induction params as [|p r IH]; simpl; [discriminate|].
  unfold SearchSpace.name_of at 1. destruct (SearchSpace.name p); simpl.
  - destruct (names_of r); simpl; [discriminate|].
    intros [= <-]. apply IH. reflexivity.
  - intros [= <-]. reflexivity.
Qed.

Lemma functions_of_error params e : functions_of params = Raise e -> e = KeyError.
Proof.
  induction params as [|p r IH]; simpl; [discriminate|].
  unfold SearchSpace.name_of at 1. destruct (SearchSpace.name p) as [n|]; simpl.
  - destruct (DemandShare.dict_get String.eqb n OBJECTIVES) eqn:Ef; simpl.
    + destruct (ObjectiveFactory.functions_of OBJECTIVES r); simpl; [discriminate|].
      intros [= <-]. apply IH. reflexivity.
    + intros [= <-]. apply (DictFacts.dict_get_Raise _ String.eqb_eq _ _ _ Ef).
  - intros [= <-]. reflexivity.
Qed.

Lemma names_of_named params :
  Forall (fun p => exists n, SearchSpace.name p = Some n) params <->
  is_ok (names_of params) = true.
Proof.
  induction params as [|p r IH]; simpl.
  - split; [reflexivity | constructor].
  - unfold SearchSpace.name_of at 1. split.
    + intros H. inversion H as [|? ? [n Hn] Hr]; subst.
      rewrite Hn. simpl. apply IH in Hr.
      destruct (names_of r); [reflexivity | discriminate].
    + destruct (SearchSpace.name p) as [n|] eqn:En; simpl; [|discriminate].
      destruct (names_of r); simpl; [|discriminate].
      intros _. constructor; [eauto | apply IH; reflexivity].
Qed.

Lemma functions_of_registered params :
  Forall (fun p => exists n, SearchSpace.name p = Some n
                             /\ In n (map fst OBJECTIVES)) params <->
  is_ok (functions_of params) = true.
Proof.
  induction params as [|p r IH]; simpl.
  - split; [reflexivity | constructor].
  - unfold SearchSpace.name_of at 1. split.
    + intros H. inversion H as [|? ? (n & Hn & Hin) Hr]; subst.
      rewrite Hn. simpl.
      destruct (DemandShare.dict_get String.eqb n OBJECTIVES) eqn:Ef; simpl.
      * apply IH in Hr.
        destruct (ObjectiveFactory.functions_of OBJECTIVES r);
          [reflexivity | discriminate].
      * exfalso.
        apply (proj2 (DictFacts.dict_get_Raise _ String.eqb_eq _ _ _ Ef)), Hin.
    + destruct (SearchSpace.name p) as [n|] eqn:En; simpl; [|discriminate].
      destruct (DemandShare.dict_get String.eqb n OBJECTIVES) eqn:Ef; simpl;
        [|discriminate].
      destruct (ObjectiveFactory.functions_of OBJECTIVES r); simpl; [|discriminate].
      intros _. constructor.
      * exists n. split; [exact En|].
        apply DictFacts.dict_get_In in Ef; [|exact String.eqb_eq].
        apply in_map_iff. eexists. split; [|exact Ef]. reflexivity.
      * apply IH. reflexivity.
Qed.

(** X25. When every setting has a name, objectives.factory logs one
    critical record (the same objective is named twice) exactly when two
    settings carry the same name, and logs nothing when the names are
    distinct; this holds whether or not the construction then fails on an
    unregistered name. *)
Theorem factory_named_twice settings log names :
  names_of (params_of settings) = Ok names ->
  (NoDup names -> snd (factory settings log) = log)
  /\ (~ NoDup names ->
      snd (factory settings log)
      = (log ++ [("muse.objectives", Objectives.CRITICAL, named_twice)])%list).
Proof.
  intros Hnames. pose proof (names_of_length _ _ Hnames) as Hlen.
  unfold ObjectiveFactory.factory. rewrite Hnames, <- Hlen.
  split; intros H.
  - apply distinct_full in H. rewrite H, Nat.eqb_refl. simpl.
    destruct (ObjectiveFactory.functions_of OBJECTIVES (params_of settings));
      reflexivity.
  - destruct (Nat.eqb (distinct names) (List.length names)) eqn:E.
    + apply Nat.eqb_eq, distinct_full in E. contradiction.
    + simpl.
      destruct (ObjectiveFactory.functions_of OBJECTIVES (params_of settings));
        reflexivity.
Qed.

(** X26. objectives.factory returns a function exactly when every setting
    has a name that is registered in OBJECTIVES (the default setting is
    fixed_costs); otherwise it raises KeyError when the function is built,
    before any objective is run. *)
Theorem factory_registered settings log :
  (Forall (fun p => exists n, SearchSpace.name p = Some n
                              /\ In n (map fst OBJECTIVES))
          (params_of settings)
   <-> is_ok (fst (factory settings log)) = true)
  /\ forall e, fst (factory settings log) = Raise e -> e = KeyError.
Proof.
  unfold ObjectiveFactory.factory. split; [split|].
  - intros H.
    assert (Hn : is_ok (names_of (params_of settings)) = true).
    { apply names_of_named. eapply Forall_impl; [|exact H].
      intros p (n & Hn & _). eauto. }
    apply functions_of_registered in H.
    destruct (names_of (params_of settings)); [|discriminate].
    destruct (ObjectiveFactory.functions_of OBJECTIVES (params_of settings));
      [reflexivity | discriminate].
  - intros H. apply functions_of_registered.
    destruct (names_of (params_of settings)); [|discriminate].
    destruct (ObjectiveFactory.functions_of OBJECTIVES (params_of settings));
      [reflexivity | discriminate].
  - intros e.
    destruct (names_of (params_of settings)) eqn:En.
    + destruct (ObjectiveFactory.functions_of OBJECTIVES (params_of settings)) eqn:Ef;
        [discriminate|].
      intros [= <-]. apply (functions_of_error _ _ Ef).
    + intros [= <-]. apply (names_of_error _ _ En).
Qed.

End factory.

End ObjectiveFactoryFacts.

(** ** The loop of the investments *)

Module InvestmentLoopFacts.
Import XArray Num Sector.

Section loop.

Variables Assets Technologies Market Capacity : Type.
Variable year_min : Market -> Z.
Variable year_max : Market -> Z.
Variable reduce_assets : list Assets -> Capacity.
Variable interp_capacity : Capacity -> Market -> Capacity.
Variable asset_capacity : Capacity -> Capacity.
Variable with_capacity : Market -> Capacity -> Market.
Variable invest :
  AgentBase.t Assets -> Technologies -> Market -> DataArray num -> Z
  -> result Assets.

Implicit Types self : Sector Assets Technologies Market.
Implicit Types agent : AgentBase.t Assets.

Lemma invest_agents_returns self market agent_market technologies shares
    time_period todo log agents' log' :
  invest_agents year_min invest self market agent_market technologies shares
                time_period todo log
  = (Ok agents', log') ->
  List.length agents' = List.length todo
  /\ (forall agent, In agent todo ->
        (AgentBase.year agent = None
         \/ AgentBase.year agent = Some (year_min market))
        /\ exists share, lookup (AgentBase.uuid agent) shares = Some share)
  /\ exists records,
      log' = (log ++ records)%list
      /\ map agent_name records
         = map (@AgentBase.name Assets)
               (filter (fun agent =>
                          match lookup (AgentBase.uuid agent) shares with
                          | Some share => AgentBase.negligible share
                          | None => false
                          end)
                       todo)
      /\ Forall (fun r => sector_name r = name self) records.
Proof.
  revert log agents' log'.
  induction todo as [|agent rest IH]; intros log agents' log' H.
  - simpl in H. injection H as <- <-. split; [reflexivity|].
    split; [intros ? []|]. exists []. rewrite app_nil_r.
    repeat split. constructor.
  - simpl in H.
    destruct (invest_agent year_min invest self market agent_market technologies
                           shares time_period agent log)
      as [[agent'|e] log1] eqn:E1; [|discriminate].
    destruct (invest_agents year_min invest self market agent_market
                            technologies shares time_period rest log1)
      as [[rest'|e] log2] eqn:E2; [|discriminate].
    injection H as <- <-.
    destruct (IH _ _ _ E2) as (Hlen & Hall & records & -> & Hnames & Hsector).
    unfold invest_agent in E1.
    destruct (Z.eqb (year_min market)
                    match AgentBase.year agent with
                    | Some y => y
                    | None => year_min market
                    end) eqn:Ey; [|discriminate].
    cbn [negb] in E1.
    destruct (lookup (AgentBase.uuid agent) shares) as [share|] eqn:Es;
      [|discriminate].
    injection E1 as _ <-.
    split; [simpl; rewrite Hlen; reflexivity|]. split.
    { intros a [<-|Ha]; [|apply Hall, Ha]. split; [|eauto].
      apply Z.eqb_eq in Ey. destruct (AgentBase.year agent); [right | left];
        congruence. }
    cbn [filter]. rewrite Es. unfold AgentBase.negligible.
    destruct (Nat.eqb (size share) 0); cbn [orb].
    + eexists (_ :: records). rewrite <- app_assoc. split; [reflexivity|].
      split; [simpl; rewrite Hnames; reflexivity|].
      constructor; [reflexivity | exact Hsector].
    + destruct (fltb (nansum (entries share)) (1 # 1000000000000)).
      * eexists (_ :: records). rewrite <- app_assoc. split; [reflexivity|].
        split; [simpl; rewrite Hnames; reflexivity|].
        constructor; [reflexivity | exact Hsector].
      * exists records. repeat split; assumption.
Qed.

(** X27. When Sector.investment returns, the demand share returned shares,
    every agent had no year or the first year of the market and had a
    share under its uuid, there are as many agents as before, and the log
    gained, after what it held, exactly one critical record per agent
    whose share is empty or sums to less than 1e-12, in the order of the
    agents, each naming the sector. *)
Theorem investment_returns self market technologies time_period log agents' log' :
  investment Assets Technologies Market Capacity year_min year_max reduce_assets
             interp_capacity asset_capacity with_capacity invest
             self market technologies time_period log
  = (Ok agents', log') ->
  exists shares records,
    demand_share self (agents self) market technologies (year_min market)
                 (forecast self)
    = Ok shares
    /\ List.length agents' = List.length (agents self)
    /\ (forall agent, In agent (agents self) ->
          (AgentBase.year agent = None
           \/ AgentBase.year agent = Some (year_min market))
          /\ exists share, lookup (AgentBase.uuid agent) shares = Some share)
    /\ log' = (log ++ records)%list
    /\ map agent_name records
       = map (@AgentBase.name Assets)
             (filter (fun agent =>
                        match lookup (AgentBase.uuid agent) shares with
                        | Some share => AgentBase.negligible share
                        | None => false
                        end)
                     (agents self))
    /\ Forall (fun r => sector_name r = name self) records.
Proof.
  unfold investment.
  destruct (demand_share self (agents self) market technologies (year_min market)
                         (forecast self)) as [shares|e]; [|discriminate].
  intros H. apply invest_agents_returns in H.
  destruct H as (Hlen & Hall & records & Hlog & Hnames & Hsector).
  exists shares, records. repeat split; try assumption; apply Hall; assumption.
Qed.



End loop.

End InvestmentLoopFacts.

(** ** The filters at the inputs of the examples *)

Module FiltersAtExamples.
Import XArray Num Filters FiltersFacts Examples.F.

(** Two heaters, each allowed for a gas asset. *)
Lemma same_enduse_narrowed_witness :
  exists out,
    same_enduse (agent (1 # 2)) (all_allowed ["gas"] ["gas"; "wind"])
                (heaters ["gas"; "wind"]) = Ok out
    /\ narrowed (all_allowed ["gas"] ["gas"; "wind"]) out.
Proof.
  destruct (returned
              (same_enduse (agent (1 # 2)) (all_allowed ["gas"] ["gas"; "wind"])
                           (heaters ["gas"; "wind"])))
    as [out E]; [vm_compute; reflexivity|].
  exists out. split; [exact E|].
  apply (same_enduse_narrowed (agent (1 # 2)) _ (heaters ["gas"; "wind"]) out).
  - reflexivity.
  - intros n Hn. simpl in Hn. simpl. tauto.
  - exact E.
Defined.

Lemma similar_technology_narrowed_witness :
  exists out,
    similar_technology (agent (1 # 2)) (all_allowed ["gas"] ["gas"; "wind"])
                       (heaters ["gas"; "wind"]) = Ok out
    /\ narrowed (all_allowed ["gas"] ["gas"; "wind"]) out.
Proof.
  destruct (returned
              (similar_technology (agent (1 # 2))
                                  (all_allowed ["gas"] ["gas"; "wind"])
                                  (heaters ["gas"; "wind"])))
    as [out E]; [vm_compute; reflexivity|].
  exists out. split; [exact E|].
  apply (similar_technology_narrowed (agent (1 # 2)) _ (heaters ["gas"; "wind"]) out).
  - reflexivity.
  - intros n Hn. simpl in Hn. simpl. tauto.
  - exact E.
Defined.

Lemma same_fuels_narrowed_witness :
  exists out,
    same_fuels (agent (1 # 2)) (all_allowed ["gas"] ["gas"; "wind"])
               (heaters ["gas"; "wind"]) = Ok out
    /\ narrowed (all_allowed ["gas"] ["gas"; "wind"]) out.
Proof.
  destruct (returned
              (same_fuels (agent (1 # 2)) (all_allowed ["gas"] ["gas"; "wind"])
                          (heaters ["gas"; "wind"])))
    as [out E]; [vm_compute; reflexivity|].
  exists out. split; [exact E|].
  apply (same_fuels_narrowed (agent (1 # 2)) _ (heaters ["gas"; "wind"]) out).
  - reflexivity.
  - intros n Hn. simpl in Hn. simpl. tauto.
  - exact E.
Defined.

(** The market holds gas only: wind is not referenced. *)
Lemma currently_referenced_tech_narrowed_witness :
  exists out,
    currently_referenced_tech (agent (1 # 2)) (all_allowed ["gas"] ["gas"; "wind"])
                              (heaters ["gas"; "wind"]) gas_only = Ok out
    /\ narrowed (all_allowed ["gas"] ["gas"; "wind"]) out.
Proof.
  destruct (returned
              (currently_referenced_tech (agent (1 # 2))
                                         (all_allowed ["gas"] ["gas"; "wind"])
                                         (heaters ["gas"; "wind"]) gas_only))
    as [out E]; [vm_compute; reflexivity|].
  exists out. split; [exact E|].
  apply (currently_referenced_tech_narrowed
           (agent (1 # 2)) _ (heaters ["gas"; "wind"]) gas_only out).
  - reflexivity.
  - exact E.
Defined.

Lemma with_asset_technology_widened_witness :
  exists out,
    with_asset_technology (agent (1 # 2)) (all_allowed ["gas"] ["gas"; "wind"])
                          (heaters ["gas"; "wind"]) gas_only = Ok out
    /\ widened (all_allowed ["gas"] ["gas"; "wind"]) out.
Proof.
  apply (with_asset_technology_widened
           (agent (1 # 2)) (all_allowed ["gas"] ["gas"; "wind"])
           (heaters ["gas"; "wind"]) gas_only).
  reflexivity.
Defined.

(** The market holds gas only, with a capacity of 1: gas stays allowed. *)
Lemma currently_existing_tech_kept_witness :
  let ss := all_allowed ["gas"] ["gas"; "wind"] in
  exists out cap,
    currently_existing_tech (agent (1 # 2)) ss (heaters ["gas"; "wind"]) gas_only
    = Ok out
    /\ incl ["gas"] ["gas"; "wind"]
    /\ dims out = dims ss
    /\ forall ix,
        val out ix = true <->
        val ss ix = true
        /\ In (ix "replacement") ["gas"]
        /\ tolerance_of (agent (1 # 2))
           < val cap (upd ix "replacement" (ix "replacement")).
Proof.
  intros ss.
  destruct (returned
              (currently_existing_tech (agent (1 # 2)) ss
                                       (heaters ["gas"; "wind"]) gas_only))
    as [out E]; [vm_compute; reflexivity|].
  destruct (FilterEdgeFacts.currently_existing_tech_kept
              (agent (1 # 2)) ss (heaters ["gas"; "wind"]) gas_only out
              eq_refl E)
    as (cap & cap_labels & ss_labels & Hcap & Hcl & Hsl & Hincl & Hdims & Hiff).
  injection Hcap as <-.
  injection Hcl as <-. injection Hsl as <-.
  exists out. eexists. split; [exact E|]. split; [exact Hincl|].
  split; [exact Hdims | exact Hiff].
Defined.

(** The market holds wind too, which the search space does not list. *)
Lemma currently_existing_tech_unlisted_witness :
  currently_existing_tech (agent (1 # 2)) (all_allowed ["gas"] ["gas"])
                          (heaters ["gas"]) gas_and_wind
  = Raise KeyError.
Proof.
  apply (FilterEdgeFacts.currently_existing_tech_unlisted
           (agent (1 # 2)) (all_allowed ["gas"] ["gas"]) (heaters ["gas"])
           gas_and_wind ["gas"; "wind"] "wind").
  - reflexivity.
  - reflexivity.
  - reflexivity.
  - right. left. reflexivity.
  - intros lr H. injection H as <-. intros [E|[]]. discriminate.
Defined.

(** Wind is a replacement of no asset: its column goes. *)
Lemma compress_columns_witness :
  exists out,
    compress (agent (1 # 2)) gas_for_gas (heaters ["gas"; "wind"]) gas_only = Ok out
    /\ val out = val gas_for_gas
    /\ dims out = [("asset", ["gas"]); ("replacement", ["gas"])].
Proof.
  destruct (compress_columns (agent (1 # 2)) gas_for_gas
                             (heaters ["gas"; "wind"]) gas_only eq_refl)
    as (out & la & lr & E & Hd & Hv & Ho).
  injection Hd as <- <-.
  exists out. split; [exact E|]. split; [exact Hv | exact Ho].
Defined.

End FiltersAtExamples.

(** ** The split at the inputs of the examples *)

Module SplitAtExamples.
Import XArray Num DemandShare Examples.D.



(** Two agents with a gas asset each, of capacity 1 and 3, share a demand
    of 2. *)
Lemma inner_split_conserves_witness :
  let assets := [("a", one_asset "gas" "R1" 1); ("b", one_asset "gas" "R1" 3)] in
  exists split q,
    _inner_split assets (heat 2) (fun c => c) = Ok split
    /\ fsum (flat_map (fun ur : string * DataArray num =>
                         map (fun a => val (snd ur) (upd cell "asset" a)) ["gas"])
                      split)
       = Fin q
    /\ q == 2.
Proof.
  intros assets.
  destruct (returned (_inner_split assets (heat 2) (fun c => c)))
    as [split E]; [vm_compute; reflexivity|].
  destruct (SplitFacts.inner_split_conserves _ _ _ _ E)
    as (shares & us0 & rest & first & total & Hshares & Hcons & Hfirst
        & Htotal & Hcell).
  hnf in Hshares. injection Hshares as <-.
  injection Hcons as <- <-.
  vm_compute in Hfirst. injection Hfirst as <-.
  destruct (Hcell cell) as (q & Hq & Hbig & _).
  - vm_compute. discriminate.
  - reflexivity.
  - intros us a Hus Ha. vm_compute in Ha. destruct Ha as [<-|[]].
    destruct Hus as [<-|[<-|[]]]; vm_compute; discriminate.
  - exists split, q. split; [exact E|]. split; [exact Hq|].
    apply Hbig. rewrite (Htotal cell). vm_compute. reflexivity.
Defined.

End SplitAtExamples.

(** ** The chain of filters at the inputs of the examples *)

Module SearchSpaceAtExamples.
Import XArray Num Filters FiltersFacts SearchSpace SearchSpaceFacts.
Import Examples.F Examples.P.

(** Only the gas asset has a demand: it is the one asset of the initial
    search space.  A demand without assets has no search space. *)
Lemma initialize_from_technologies_assets_witness :
  initialize_from_technologies technology (agent (1 # 2)) (demand 1 0)
                               (heaters ["gas"; "wind"])
  = Ok (all_allowed ["gas"] ["gas"; "wind"])
  /\ initialize_from_technologies technology (agent (1 # 2)) (Examples.D.heat 1)
                                  (heaters ["gas"; "wind"])
     = Raise AttributeError.
Proof.
  split.
  - refine (proj2 (initialize_from_technologies_assets technology
                     (agent (1 # 2)) (demand 1 0) (heaters ["gas"; "wind"]) _)
                  ["gas"; "coal"] eq_refl).
    repeat constructor; simpl; intuition discriminate.
  - refine (proj1 (initialize_from_technologies_assets technology
                     (agent (1 # 2)) (Examples.D.heat 1)
                     (heaters ["gas"; "wind"]) _)
                  eq_refl).
    repeat constructor; simpl; intuition discriminate.
Defined.

(** A filter alone, and the initializer before it. *)
Lemma factory_inserts_initializer_witness :
  factory unit initializers filters (One (Text "existing"))
  = factory unit initializers filters
            (Many [Text "initialize_from_technologies"; Text "existing"]).
Proof.
  apply (factory_inserts_initializer unit initializers filters
                                     (Text "existing") []).
  intros n [= <-]. reflexivity.
Defined.

(** The initializer is no filter: it cannot come second. *)
Lemma factory_unknown_filter_witness :
  factory unit initializers filters
          (Many [Text "all"; Text "initialize_from_technologies"])
  = Raise KeyError.
Proof.
  apply (factory_unknown_filter unit initializers filters (Text "all")
                                (Text "initialize_from_technologies")).
  - left. reflexivity.
  - intros n [= <-]. reflexivity.
Defined.

(** The chain of three of the registered filters, in a registry that also
    holds filters that do not narrow. *)
Lemma factory_narrows_witness :
  let settings := Many [Text "existing"; Text "same_enduse"; Text "all"] in
  exists chain initial out,
    factory unit initializers registered_filters settings = Ok chain
    /\ initialize_from_technologies technology (agent (1 # 2)) (demand 1 0)
                                    (heaters ["gas"; "wind"]) = Ok initial
    /\ chain (agent (1 # 2)) (demand 1 0) (heaters ["gas"; "wind"]) gas_only = Ok out
    /\ narrowed initial out.
Proof.
  intros settings.
  destruct (returned (factory unit initializers registered_filters settings))
    as [chain Hchain]; [vm_compute; reflexivity|].
  destruct (returned (chain (agent (1 # 2)) (demand 1 0) (heaters ["gas"; "wind"])
                            gas_only))
    as [out E].
  { hnf in Hchain. injection Hchain as <-. vm_compute. reflexivity. }
  destruct (factory_narrows unit initializers registered_filters settings chain
              (agent (1 # 2)) (demand 1 0) (heaters ["gas"; "wind"]) gas_only out
              Hchain E)
    as (n & i & kw & initial & Hi & Hinitial & Hnarrowed).
  - intros s n f [<-|[<-|[<-|[]]]] [= <-] Hin ss out' Hss Hout;
      simpl in Hin;
      repeat (destruct Hin as [Hin|Hin]; [try discriminate Hin|]);
      try contradiction; injection Hin as <-.
    + eapply currently_existing_tech_narrowed; eassumption.
    + eapply same_enduse_narrowed; [exact Hss| |exact Hout].
      intros d Hd. simpl in Hd. simpl. tauto.
    + injection Hout as <-. apply narrowed_refl.
  - intros n i kw initial [Hin|[]] Hout. injection Hin as <- <-.
    unfold initialize_from_technologies in Hout.
    bind_inv Hout as total Htotal. bind_inv Hout as asset Hasset.
    bind_inv Hout as kept Hkept. bind_inv Hout as assets Hassets.
    injection Hout as <-. reflexivity.
  - destruct Hi as [Hin|[]]. injection Hin as <- <-.
    exists chain, initial, out.
    split; [exact Hchain|]. split; [exact Hinitial|].
    split; [exact E | exact Hnarrowed].
Defined.

End SearchSpaceAtExamples.

(** ** The demand share of the settings at the inputs of the examples *)

Module ShareFactoryAtExamples.
Import XArray Num DemandShare ShareFactory Examples.D.

(** The settings ask for a forecast of 10 years; the sector calls the
    demand share with its own forecast, 5, which the function gets. *)
Lemma factory_call_witness :
  let settings :=
    Map {| name := None; items := [("forecast", 10%Z)] |} in
  let kwargs := [("current_year", 2020%Z); ("forecast", 5%Z)] in
  exists keywords,
    factory [("new_and_retro", registered)] settings (pair_of_agents 1) 1 tt kwargs
    = registered (pair_of_agents 1) 1 tt keywords
    /\ dict_get String.eqb "forecast" keywords = Ok 5%Z
    /\ factory [("default", registered)] settings (pair_of_agents 1) 1 tt kwargs
       = Raise KeyError.
Proof.
  intros settings kwargs.
  assert (Hnd : NoDup (map fst kwargs)).
  { repeat constructor; simpl; intuition discriminate. }
  destruct (proj2 (ShareFactoryFacts.factory_call
                     Z (list AgentBase) Q unit (list (string * DataArray num))
                     [("new_and_retro", registered)] settings
                     (pair_of_agents 1) 1 tt kwargs Hnd)
                  registered eq_refl)
    as (keywords & Hcall & Hkw & _).
  exists keywords. split; [exact Hcall|]. split.
  - apply Hkw. right. left. reflexivity.
  - apply (proj1 (ShareFactoryFacts.factory_call
                    Z (list AgentBase) Q unit (list (string * DataArray num))
                    [("default", registered)] settings
                    (pair_of_agents 1) 1 tt kwargs Hnd)).
    reflexivity.
Defined.

End ShareFactoryAtExamples.

(** ** The cache of outputs at the inputs of the examples *)

Module CacheAtExamples.
Import Py Cache CacheFacts Examples.K.

(** Two arrays under the name "ab": one for "a", one for "b". *)
Lemma match_quantities_sequence_witness :
  match_quantities (Text "ab") (Sequence [1; 2]) = Returns [("a", 1); ("b", 2)]
  /\ match_quantities (Text "ab") (Sequence [1]) = Raises (Builtin ValueError).
Proof.
  assert (Hnd : NoDup ["a"; "b"]).
  { repeat constructor; simpl; intuition discriminate. }
  split.
  - apply (proj1 (match_quantities_sequence Q (Text "ab") [1; 2] Hnd)). reflexivity.
  - apply (proj2 (match_quantities_sequence Q (Text "ab") [1] Hnd)). discriminate.
Defined.

(** The cost of energy is not cached here: its array is dropped. *)
Lemma cache_appends_witness :
  let after := cache (holding [1]) [("capacity", 2); ("lcoe", 3)] in
  map fst (to_save after) = ["capacity"; "production"]
  /\ In ("capacity", [1; 2]) (to_save after).
Proof.
  intros after.
  assert (Hnd : NoDup (map fst (to_save (holding [1])))).
  { repeat constructor; simpl; intuition discriminate. }
  destruct (cache_appends Q (Z * list Q) (holding [1])
                          [("capacity", 2); ("lcoe", 3)] Hnd) as [Hkeys Hin].
  split; [exact Hkeys|].
  apply (Hin "capacity" [1]). left. reflexivity.
Defined.

(** One sink is called, for the capacity; a second call writes nothing. *)
Lemma consolidate_cache_flushes_witness :
  exists written flushed,
    consolidate_cache (holding [1; 2]) 2020 = (Returns written, flushed)
    /\ List.length written = 1%nat
    /\ to_save flushed = [("capacity", []); ("production", [])]
    /\ consolidate_cache flushed 2025 = (Returns [], flushed).
Proof.
  eexists. eexists. split; [reflexivity|].
  destruct (consolidate_cache_flushes Q (Z * list Q) (holding [1; 2]) _ 2020%Z _
                                      eq_refl)
    as (_ & _ & Hlen & Hagain).
  split; [exact Hlen|]. split; [reflexivity | apply Hagain].
Defined.

(** A function decorated for the capacity, for "quantity" and for
    "function". *)
Lemma decorated_array_witness :
  decorated (constant 5) (Text "capacity") tt [holding []]
  = (Returns (DataArray 5), [holding [5]])
  /\ decorated (constant 5) (Text "quantity") tt [holding []]
     = (Returns (DataArray 5), [holding []])
  /\ decorated (constant 5) (Text "function") tt [holding []]
     = (Raises (Builtin ValueError), [holding []]).
Proof.
  split; [|split].
  - apply (decorated_array Q (Z * list Q) (constant 5) "capacity" tt
                           [holding []] 5 eq_refl).
  - apply (decorated_array Q (Z * list Q) (constant 5) "quantity" tt
                           [holding []] 5 eq_refl).
  - apply (decorated_array Q (Z * list Q) (constant 5) "function" tt
                           [holding []] 5 eq_refl).
Defined.

(** The capacity, asked for twice, and the production. *)
Lemma init_returns_witness :
  exists c,
    __init__ _factory OUTPUT_QUANTITIES
             (selected ["capacity"; "production"; "capacity"]) None "cache_quantity"
    = Returns c
    /\ (forall q, In q (map fst (to_save c)) <-> In q ["capacity"; "production"])
    /\ NoDup (map fst (to_save c))
    /\ Forall (fun ql => snd ql = []) (to_save c)
    /\ map fst (factory c) = map fst (to_save c).
Proof.
  eexists. split; [reflexivity|].
  destruct (init_returns Q (Z * list Q) unit unit _factory OUTPUT_QUANTITIES
                         (selected ["capacity"; "production"; "capacity"]) None
                         "cache_quantity" _ eq_refl)
    as (qs & Hqs & _ & Hkeys & Hnd & Hempty & Hfactory & _).
  split; [|split; [exact Hnd | split; [exact Hempty | exact Hfactory]]].
  intros q. rewrite Hkeys.
  inversion Hqs as [|? q1 ? ? H1 Hr1]; subst. injection H1 as <-.
  inversion Hr1 as [|? q2 ? ? H2 Hr2]; subst. injection H2 as <-.
  inversion Hr2 as [|? q3 ? ? H3 Hr3]; subst. injection H3 as <-.
  inversion Hr3; subst. simpl. tauto.
Defined.

(** A lone string, and a quantity that is not registered. *)
Lemma init_rejects_witness :
  returns (__init__ _factory OUTPUT_QUANTITIES [Lone "capacity"] None "cache_quantity")
  = false
  /\ __init__ _factory OUTPUT_QUANTITIES (selected ["capacity"; "costs"]) None
              "cache_quantity"
     = Raises (Builtin ValueError).
Proof.
  split.
  - apply (proj1 (init_rejects Q (Z * list Q) unit unit _factory OUTPUT_QUANTITIES
                               [Lone "capacity"] None "cache_quantity")
                 "capacity").
    left. reflexivity.
  - apply (proj2 (init_rejects Q (Z * list Q) unit unit _factory OUTPUT_QUANTITIES
                               (selected ["capacity"; "costs"]) None
                               "cache_quantity"))
      with (q := "costs") (o := tt).
    + intros p [<-|[<-|[]]]; eexists; eexists; reflexivity.
    + right. left. reflexivity.
    + reflexivity.
Defined.

End CacheAtExamples.

(** ** The values of the objectives at the inputs of the examples *)

Module ObjectiveValuesAtExamples.
Import XArray Num Py ObjectiveValues ObjectiveValuesFacts Examples.V.

(** Whatever the class of the filtered technologies, one of the two
    assertions fails. *)
Lemma lcoe_never_returns_witness :
  lifetime_levelized_cost_of_energy
    (fun _ : unit => 2020%Z)
    (fun _ (_ : unit) _ => Returns (@IsDataset unit unit tt))
    (fun _ (_ : unit) => Returns (@IsDataArray unit unit tt))
    (fun _ _ _ (_ : unit) => Returns (mkDA [] (fun _ => Fin 0)))
    tt search_space tt tt tt
  = Raises (Builtin AssertionError).
Proof.
  eapply (proj2 (lcoe_never_returns unit unit unit unit unit unit _ _ _ _
                                    tt search_space tt tt tt)).
  - reflexivity.
  - reflexivity.
  - reflexivity.
  - right. eexists. reflexivity.
Defined.

Lemma capacity_in_use_without_hours_witness :
  capacity_in_use tt demand search_space None boiler market = Raises UnboundLocalError.
Proof.
  apply (proj1 (capacity_in_use_without_hours tt demand search_space boiler market
                                              eq_refl)).
Defined.

(** Two years at 10%: the factor is 0.1 / (1 - 1 / 1.21), and the two
    discount factors sum to its inverse. *)
Lemma capital_recovery_annuity_witness :
  exists crf c s,
    capital_recovery_factor tt search_space boiler = Ok crf
    /\ val crf (upd ix0 "replacement" "gas") = Fin c
    /\ DemandShare.fsum
         (map (fun k => val (discount_factor years (per_replacement (1 # 10)) always)
                            (year k))
              [1%nat; 2%nat])
       = Fin s
    /\ c * s == 1.
Proof.
  destruct (returned (capital_recovery_factor tt search_space boiler))
    as [crf E]; [vm_compute; reflexivity|].
  destruct (capital_recovery_annuity tt search_space boiler crf E)
    as (selected & replacement & technical_life & interest_rate
        & Hselected & Hreplacement & [Hlife Hrate] & H).
  hnf in Hselected. injection Hselected as <-.
  hnf in Hlife. injection Hlife as <-.
  hnf in Hrate. injection Hrate as <-.
  destruct (H (upd ix0 "replacement" "gas") 1%nat) as (c & Hc & Hsum).
  - reflexivity.
  - discriminate.
  - discriminate.
  - reflexivity.
  - destruct (Hsum years always year) as (s & Hs & Hcs).
    + intros k [<-|[<-|[]]]; repeat split; reflexivity.
    + exists crf, c, s. repeat split; assumption.
Defined.

(** A demand of 3 by day, from a boiler used half of the time, with
    timeslices of half the year each. *)
Lemma capacity_to_service_demand_suffices_witness :
  exists out q,
    capacity_to_service_demand tt demand search_space None boiler market = Ok out
    /\ val out (upd (upd ix0 "asset" "gas") "replacement" "gas") = Fin q
    /\ 3 <= q * (1 # 2) * (12 / 24) * 1.
Proof.
  destruct (returned (capacity_to_service_demand tt demand search_space None
                                                 boiler market))
    as [out E]; [vm_compute; reflexivity|].
  destruct (capacity_to_service_demand_suffices tt demand search_space None
                                                boiler market out E)
    as (selected & replacement & fixed_outputs & utilization_factor & longest
        & commodities & timeslices
        & Hselected & Hreplacement & [Hfo Huf] & Hcommodities & Htimeslices
        & Hlongest & H).
  hnf in Hselected. injection Hselected as <-.
  hnf in Hfo. injection Hfo as <-.
  hnf in Huf. injection Huf as <-.
  vm_compute in Hcommodities. injection Hcommodities as <-.
  specialize (Htimeslices eq_refl).
  vm_compute in Htimeslices. injection Htimeslices as <-.
  vm_compute in Hlongest. injection Hlongest as <-.
  destruct (H (upd (upd ix0 "asset" "gas") "replacement" "gas") "heat" "day")
    as (q & Hq & Hle).
  - left. reflexivity.
  - left. reflexivity.
  - reflexivity.
  - reflexivity.
  - reflexivity.
  - reflexivity.
  - exists out, q. split; [exact E|]. split; [exact Hq | exact Hle].
Defined.

End ObjectiveValuesAtExamples.

Module ObjectiveFactoryAtExamples.
Import XArray ObjectiveFactory ObjectiveFactoryFacts Examples.G.

(** Two settings name the objective [scaled]: one critical record. *)
Lemma factory_named_twice_witness :
  snd (factory (fun _ => 0) (fun d _ a => d + a) OBJECTIVES
               (Many [SearchSpace.Text "fixed_costs"; scaled 2; scaled 3]) [])
  = [("muse.objectives", Objectives.CRITICAL, named_twice)].
Proof.
  apply (proj2 (factory_named_twice Q unit Q unit Q Q (fun _ => 0)
                  (fun d _ a => d + a) OBJECTIVES
                  (Many [SearchSpace.Text "fixed_costs"; scaled 2; scaled 3]) []
                  ["fixed_costs"; "scaled"; "scaled"] eq_refl)).
  intros H. inversion H as [|? ? _ H']. inversion H' as [|? ? Hn _].
  apply Hn. left. reflexivity.
Defined.

Lemma factory_registered_witness :
  is_ok (fst (factory (fun _ => 0) (fun d _ a => d + a) OBJECTIVES
                      (One (scaled 2)) []))
  = true.
Proof.
  apply (proj1 (proj1 (factory_registered Q unit Q unit Q Q (fun _ => 0)
                         (fun d _ a => d + a) OBJECTIVES (One (scaled 2)) []))).
  constructor; [|constructor].
  exists "scaled". split; [reflexivity|]. right. left. reflexivity.
Defined.

End ObjectiveFactoryAtExamples.

Module InvestmentLoopAtExamples.
Import XArray Num Sector InvestmentLoopFacts.

(** Of the two agents, the one with the empty share is logged. *)
Lemma investment_returns_witness :
  exists agents' log',
    Examples.I.investment Examples.I.sector 2020%Z tt None [] = (Ok agents', log')
    /\ List.length agents' = 2%nat
    /\ map agent_name log' = ["a"].
Proof.
  destruct (Examples.I.investment Examples.I.sector 2020%Z tt None [])
    as [[agents'|e] log'] eqn:E; [|exfalso; vm_compute in E; discriminate].
  destruct (investment_returns Q unit Z Q Examples.S.year_min
              (fun y => (y + 5)%Z) Qsum (fun c _ => c) (fun c => c)
              (fun m _ => m) Examples.I.invest
              Examples.I.sector 2020%Z tt None [] agents' log' E)
    as (shares & records & Hshares & Hlen & _ & Hlog & Hnames & _).
  hnf in Hshares. injection Hshares as <-.
  exists agents', log'. split; [reflexivity|]. split; [exact Hlen|].
  rewrite Hlog. exact Hnames.
Defined.



End InvestmentLoopAtExamples.
